(** * IMG2GS: camera model, depth projection, splat store, optimizer and PLY codec

    A shallow embedding of [src/core/geometry.py], [src/core/optimization.py]
    and [src/run_optimization.py].

    Numbers.  NumPy and PyTorch compute in IEEE binary32/binary64.  Here a
    finite float is idealised as a real number ([R]): rounding, overflow and
    underflow are outside the model, and a statement about a value is a
    statement about the formula that the code evaluates.  What a float
    division adds to the reals is kept: the quotients of [project_to_3d]
    are [npfloat]s, so a division by zero gives inf or nan as in NumPy and
    does not raise.  Two places where rounding decides are modelled apart:
    the narrowing of float64 values to the 'f4' fields of a PLY file
    ([float32]), and the depth pipeline of [project_to_3d] in binary64
    ([Binary64]), which is evaluated where a claim turns on the last bit.
    The only Python exceptions that are modelled are the ones the embedded
    functions can raise on well-typed arguments. *)

From Stdlib Require Import Reals Lra Lia.
From Stdlib Require PrimFloat.
From stdpp Require Import gmap strings list.

(** ** Python results *)

Inductive exn : Type :=
| ValueError        (* NumPy: empty reduction, shape mismatch, missing field *)
| KeyError          (* plyfile: no element of that name *)
| IndexError        (* index out of range *)
| FileNotFoundError (* open() of a path that does not exist *)
| AttributeError    (* attribute lookup on an object that lacks it *)
| RuntimeError.     (* Torch: backward() of a loss that requires no gradient *)

Inductive result (A : Type) : Type :=
| Ok (a : A)
| Raise (e : exn).
Arguments Ok {A} a.
Arguments Raise {A} e.

Definition rbind {A B} (r : result A) (k : A -> result B) : result B :=
  match r with
  | Ok a => k a
  | Raise e => Raise e
  end.

Declare Scope py_scope.
Delimit Scope py_scope with py.
Notation "x <~ r ;; k" := (rbind r (fun x => k))
  (at level 100, r at next level, right associativity) : py_scope.

(** ** Float results

    The result of a float operation: a finite number, an infinity or nan.
    The operations follow IEEE 754 on the special values and are exact on
    the finite ones; a zero carries no sign and divides like +0. *)

Inductive npfloat : Type :=
| Fin (x : R)
| Inf (negative : bool)
| NaN.

Definition negative (x : R) : bool := if Rlt_dec x 0 then true else false.

Definition np_add (a b : npfloat) : npfloat :=
  match a, b with
  | Fin x, Fin y => Fin (x + y)
  | Fin _, Inf s | Inf s, Fin _ => Inf s
  | Inf s, Inf t => if Bool.eqb s t then Inf s else NaN
  | NaN, _ | _, NaN => NaN
  end.

Definition np_mul (a b : npfloat) : npfloat :=
  match a, b with
  | Fin x, Fin y => Fin (x * y)
  | Fin x, Inf s | Inf s, Fin x =>
      if Req_dec_T x 0 then NaN else Inf (xorb s (negative x))
  | Inf s, Inf t => Inf (xorb s t)
  | NaN, _ | _, NaN => NaN
  end.

Definition np_div (a b : npfloat) : npfloat :=
  match a, b with
  | Fin x, Fin y =>
      if Req_dec_T y 0
      then (if Req_dec_T x 0 then NaN else Inf (negative x))
      else Fin (x / y)
  | Fin _, Inf _ => Fin 0
  | Inf s, Fin y => Inf (xorb s (negative y))
  | Inf _, Inf _ => NaN
  | NaN, _ | _, NaN => NaN
  end.

(** ** Arrays *)

Definition vec3 : Type := R * R * R.

(** A point whose coordinates are float results. *)
Definition fvec3 : Type := npfloat * npfloat * npfloat.

Definition fin3 (p : vec3) : fvec3 :=
  let '(x, y, z) := p in (Fin x, Fin y, Fin z).

(** A two-dimensional [np.ndarray]: its shape (rows, columns) and its entry
    at row [v], column [u].  Entries outside the shape are never read. *)
Record ndarray2 : Type := NdArray2 {
  shape : nat * nat;
  at2 : nat -> nat -> R
}.

(** The entries [f v u] of an array of [rows] rows and [cols] columns, in
    row-major order: row 0 first, and within a row column 0 first. *)
Definition grid {A : Type} (f : nat -> nat -> A) (rows cols : nat) : list A :=
  flat_map (fun v => map (fun u => f v u) (seq 0 cols)) (seq 0 rows).

(** [a.ravel()]: the entries in row-major order. *)
Definition ravel (a : ndarray2) : list R :=
  grid (at2 a) (fst (shape a)) (snd (shape a)).

(** [a.min()] and [a.max()]: NumPy raises ValueError on a zero-size array. *)
Definition reduce (op : R -> R -> R) (l : list R) : result R :=
  match l with
  | [] => Raise ValueError
  | x :: l' => Ok (fold_left op l' x)
  end.

Definition amin (a : ndarray2) : result R := reduce Rmin (ravel a).
Definition amax (a : ndarray2) : result R := reduce Rmax (ravel a).

(** Elementwise operation of an array with scalars. *)
Definition amap (f : R -> R) (a : ndarray2) : ndarray2 :=
  {| shape := shape a; at2 := fun v u => f (at2 a v u) |}.

Definition shape_eqb (s t : nat * nat) : bool :=
  Nat.eqb (fst s) (fst t) && Nat.eqb (snd s) (snd t).

(** A two-dimensional array of float results. *)
Record farray2 : Type := FArray2 {
  fshape : nat * nat;
  fat2 : nat -> nat -> npfloat
}.

(** An array of finite numbers as an array of float results. *)
Definition of_reals (a : ndarray2) : farray2 :=
  {| fshape := shape a; fat2 := fun v u => Fin (at2 a v u) |}.

(** Elementwise operation of an array of float results with scalars. *)
Definition fmap2 (f : npfloat -> npfloat) (a : farray2) : farray2 :=
  {| fshape := fshape a; fat2 := fun v u => f (fat2 a v u) |}.

(** Elementwise operation of two arrays.  NumPy broadcasting of unequal
    shapes is not modelled: inside [project_to_3d] a two-dimensional depth
    map whose shape differs from (height, width) ends in ValueError either at
    the product or at [np.stack], which wants equal shapes, unless the image
    has a single row or a single column. *)
Definition azip (f : npfloat -> npfloat -> npfloat) (a b : farray2)
  : result farray2 :=
  if shape_eqb (fshape a) (fshape b)
  then Ok {| fshape := fshape a; fat2 := fun v u => f (fat2 a v u) (fat2 b v u) |}
  else Raise ValueError.

(** [np.stack((x, y, z), axis=-1).reshape(-1, 3)]: one row per entry, in
    row-major order. *)
Definition stack3_rows (x y z : farray2) : result (list fvec3) :=
  if shape_eqb (fshape x) (fshape y) && shape_eqb (fshape y) (fshape z)
  then Ok (grid (fun v u => (fat2 x v u, fat2 y v u, fat2 z v u))
                (fst (fshape x)) (snd (fshape x)))
  else Raise ValueError.

(** ** [src/core/geometry.py] *)

(** The 3x3 matrix that [get_intrinsics] returns. *)
Record matrix3 : Type := Matrix3 {
  k00 : R; k01 : R; k02 : R;
  k10 : R; k11 : R; k12 : R;
  k20 : R; k21 : R; k22 : R
}.

(** [np.radians] *)
Definition radians (deg : R) : R := (deg * PI / 180)%R.

Definition default_fov : R := 55%R.

Definition get_intrinsics (width height : nat) (fov : R) : matrix3 :=
  let f := (0.5 * INR width / tan (0.5 * radians fov))%R in
  let cx := (INR width / 2)%R in
  let cy := (INR height / 2)%R in
  {| k00 := f; k01 := 0; k02 := cx;
     k10 := 0; k11 := f; k12 := cy;
     k20 := 0; k21 := 0; k22 := 1 |}.

(** A PIL image in RGB mode: [size] is (width, height) and [getpixel u v]
    the three 8-bit channels of the pixel in column [u], row [v]. *)
Record Image : Type := PILImage {
  size : nat * nat;
  getpixel : nat -> nat -> Byte.byte * Byte.byte * Byte.byte
}.

(** The value of an 8-bit channel. *)
Definition channel (b : Byte.byte) : R := INR (N.to_nat (Byte.to_N b)).

(** [np.meshgrid(np.arange(width), np.arange(height))] *)
Definition meshgrid_xx (width height : nat) : ndarray2 :=
  {| shape := (height, width); at2 := fun _ u => INR u |}.
Definition meshgrid_yy (width height : nat) : ndarray2 :=
  {| shape := (height, width); at2 := fun v _ => INR v |}.

(** [(depth - depth_min) / (depth_max - depth_min + 1e-8)]: the depth map
    holds finite numbers, so the two differences and the sum are finite; the
    quotient is a float division. *)
Definition disparity_of (depth : ndarray2) (depth_min depth_max : R) : farray2 :=
  fmap2 (fun d => np_div d (Fin (depth_max - depth_min + 1e-8)%R))
        (of_reals (amap (fun d => (d - depth_min)%R) depth)).

(** [z_3d = 1.0 / (disparity + 0.05)] followed by [z_3d = z_3d * 5.0] *)
Definition z_of (disparity : farray2) : farray2 :=
  fmap2 (fun z => np_mul z (Fin 5.0%R))
        (fmap2 (fun d => np_div (Fin 1.0%R) (np_add d (Fin 0.05%R))) disparity).

(** [np.array(image).reshape(-1, 3) / 255.0] *)
Definition image_rgb (image : Image) : list vec3 :=
  let '(width, height) := size image in
  grid (fun v u => let '(r, g, b) := getpixel image u v in
                   ((channel r / 255.0)%R,
                    (channel g / 255.0)%R,
                    (channel b / 255.0)%R))
       height width.

Definition project_to_3d (image : Image) (depth : ndarray2) (fov : R)
  : result (list fvec3 * list vec3) :=
  (let '(width, height) := size image in
   let xx := meshgrid_xx width height in
   let yy := meshgrid_yy width height in
   let K := get_intrinsics width height fov in
   let fx := k00 K in let fy := k11 K in
   let cx := k02 K in let cy := k12 K in
   depth_min <~ amin depth ;;
   depth_max <~ amax depth ;;
   let disparity := disparity_of depth depth_min depth_max in
   let z_3d := z_of disparity in
   xz <~ azip np_mul (of_reals (amap (fun x => (x - cx)%R) xx)) z_3d ;;
   let x_3d := fmap2 (fun x => np_div x (Fin fx)) xz in
   yz <~ azip np_mul (of_reals (amap (fun y => (y - cy)%R) yy)) z_3d ;;
   let y_3d := fmap2 (fun y => np_div y (Fin fy)) yz in
   xyz <~ stack3_rows x_3d y_3d z_3d ;;
   let rgb := image_rgb image in
   Ok (xyz, rgb))%py.

(** Components of a point, and small inputs used to exercise the theorems. *)
Definition vx (p : vec3) : R := fst (fst p).
Definition vy (p : vec3) : R := snd (fst p).
Definition vz (p : vec3) : R := snd p.

(** [Image.new('RGB', (W, H), color='blue')] *)
Definition blue_image (W H : nat) : Image :=
  {| size := (W, H); getpixel := fun _ _ => (Byte.x00, Byte.x00, Byte.xff) |}.

(** [np.ones((H, W)) * c] *)
Definition constant_depth (H W : nat) (c : R) : ndarray2 :=
  {| shape := (H, W); at2 := fun _ _ => c |}.

(** A 1x2 depth map with the entries 0 and 1. *)
Definition ramp_depth : ndarray2 :=
  {| shape := (1%nat, 2%nat); at2 := fun _ u => INR u |}.

(** The depth [Z] and the point that [project_to_3d] computes for the pixel
    in column [u], row [v], given the minimum and maximum of the depth map. *)
Definition depth_z (depth : ndarray2) (dmin dmax : R) (v u : nat) : R :=
  (1.0 / ((at2 depth v u - dmin) / (dmax - dmin + 1e-8) + 0.05) * 5.0)%R.

Definition pixel_point (W H : nat) (fov : R) (depth : ndarray2) (dmin dmax : R)
    (v u : nat) : vec3 :=
  let K := get_intrinsics W H fov in
  let Z := depth_z depth dmin dmax v u in
  (((INR u - k02 K) * Z / k00 K)%R, ((INR v - k12 K) * Z / k11 K)%R, Z).

(** The same two as [project_to_3d] evaluates them, division by division. *)
Definition np_depth_z (depth : ndarray2) (dmin dmax : R) (v u : nat) : npfloat :=
  np_mul (np_div (Fin 1.0%R)
            (np_add (np_div (Fin (at2 depth v u - dmin)%R)
                            (Fin (dmax - dmin + 1e-8)%R))
                    (Fin 0.05%R)))
         (Fin 5.0%R).

Definition np_pixel_point (W H : nat) (fov : R) (depth : ndarray2) (dmin dmax : R)
    (v u : nat) : fvec3 :=
  let K := get_intrinsics W H fov in
  let Z := np_depth_z depth dmin dmax v u in
  (np_div (np_mul (Fin (INR u - k02 K)%R) Z) (Fin (k00 K)),
   np_div (np_mul (Fin (INR v - k12 K)%R) Z) (Fin (k11 K)),
   Z).

(** The Z of a point of float results. *)
Definition fz (p : fvec3) : npfloat := snd p.

(** ** The depth pipeline of [project_to_3d] in binary64

    The lines of [project_to_3d] that turn a float64 depth map into Z, in
    the arithmetic NumPy computes them with: every operation is the
    correctly rounded binary64 operation, and [1e-8], [0.05] and [5.0] are
    the binary64 numbers nearest to the literals.  The depth map is the
    list of its rows and holds no nan. *)
Module Binary64.
Import PrimFloat.
#[local] Set Warnings "-inexact-float".
#[local] Open Scope float_scope.

Definition array2 : Type := list (list float).

Definition minimum (a b : float) : float := if ltb b a then b else a.
Definition maximum (a b : float) : float := if ltb a b then b else a.

(** [a.min()] and [a.max()]: ValueError on a zero-size array. *)
Definition reduce (op : float -> float -> float) (a : array2) : result float :=
  match concat a with
  | [] => Raise ValueError
  | x :: l => Ok (fold_left op l x)
  end.

Definition emap (f : float -> float) (a : array2) : array2 := map (map f) a.

(** [(depth - depth_min) / (depth_max - depth_min + 1e-8)] *)
Definition disparity (depth : array2) : result array2 :=
  (depth_min <~ reduce minimum depth ;;
   depth_max <~ reduce maximum depth ;;
   Ok (emap (fun d => (d - depth_min) / (depth_max - depth_min + 1e-8)) depth))%py.

(** [z_3d = 1.0 / (disparity + 0.05)] followed by [z_3d = z_3d * 5.0] *)
Definition z_3d (depth : array2) : result array2 :=
  (disparity <~ disparity depth ;;
   let z_3d := emap (fun d => 1.0 / (d + 0.05)) disparity in
   let z_3d := emap (fun z => z * 5.0) z_3d in
   Ok z_3d)%py.

Definition flat_depth : array2 := replicate 4 (replicate 4 5.0).
Definition hundred : float := 100.0.

End Binary64.

(** ** Tensors, the Python heap, files and standard output *)

(** A NumPy array or Torch tensor whose first axis indexes points: the list
    of its rows, each row the row-major flattening of the remaining axes.
    So shapes (N, 3) and (N, 1, 3) both have rows of three numbers, and
    [unsqueeze(1)], [squeeze(1)] and [squeeze(-1)] leave the rows as they
    are.  The width of an array without rows is not represented. *)
Definition array : Type := list (list R).

(** [torch.full((n, c), v)] and [torch.zeros((n, c))] *)
Definition full (n c : nat) (v : R) : array := replicate n (replicate c v).
Definition zeros (n c : nat) : array := full n c 0%R.

(** Elementwise operation with a scalar. *)
Definition emap (f : R -> R) (a : array) : array := map (map f) a.

(** [a[:, j] = x] *)
Definition set_column (j : nat) (x : R) (a : array) : array :=
  map (fun r => <[j := x]> r) a.

(** [a[:, j]]: IndexError when a row has no entry [j]. *)
Fixpoint column (j : nat) (a : array) : result (list R) :=
  match a with
  | [] => Ok []
  | r :: a' =>
      match r !! j with
      | None => Raise IndexError
      | Some x => (xs <~ column j a' ;; Ok (x :: xs))%py
      end
  end.

(** [np.zeros_like(a)] and [np.ones_like(a)] *)
Definition zeros_like (a : array) : array := emap (fun _ => 0%R) a.
Definition ones_like (a : array) : array := emap (fun _ => 1%R) a.

(** [np.stack([x, y, z], axis=-1)] of one-dimensional arrays: ValueError
    unless all have the same length. *)
Definition stack3 (x y z : list R) : result array :=
  if Nat.eqb (length x) (length y) && Nat.eqb (length y) (length z)
  then Ok (map (fun i => [nth i x 0%R; nth i y 0%R; nth i z 0%R])
               (seq 0 (length x)))
  else Raise ValueError.

(** [np.clip(x, lo, hi)] = [minimum(hi, maximum(x, lo))] *)
Definition clip (lo hi x : R) : R := Rmin hi (Rmax x lo).

(** Object identities. *)
Definition loc : Type := positive.

(** The objects that are shared by reference: NumPy arrays, and Torch
    tensors with their [requires_grad] flag and their [.grad]. *)
Inductive obj : Type :=
| NdArray (a : array)
| Tensor (data : array) (requires_grad : bool) (grad : option array).

Definition obj_data (o : obj) : array :=
  match o with
  | NdArray a => a
  | Tensor d _ _ => d
  end.

Definition obj_requires_grad (o : obj) : bool :=
  match o with
  | NdArray _ => false
  | Tensor _ rg _ => rg
  end.

Definition obj_grad (o : obj) : option array :=
  match o with
  | NdArray _ => None
  | Tensor _ _ g => g
  end.

(** The field types of a PLY property: ['f4'] and ['u1']. *)
Inductive dtype : Type := F4 | U1.

(** A PLY element is a structured array: named, typed columns of equal
    length, in the order in which they were declared. *)
Record PlyProperty : Type := Property {
  p_name : string;
  p_dtype : dtype;
  p_values : list R
}.

Record PlyElement : Type := Element {
  el_name : string;
  el_count : nat;
  el_properties : list PlyProperty
}.

Definition PlyData : Type := list PlyElement.

(** What the embedded functions print, one constructor per [print] call. *)
Inductive line : Type :=
| InitLine (N : nat) (device : string) (* "[GaussianOptimizer] Inicjalizacja dla {N} ..." *)
| SavedLine (path : string)            (* "[GaussianOptimizer] Zapisano binarny PLY do {path}" *)
| NoColorWarning.                      (* "Warning: No color data found, using white." *)

Record world : Type := World {
  heap : gmap loc obj;
  files : gmap string PlyData;
  stdout : list line
}.

(** Python code that reads and updates the world and may raise. *)
Definition M (A : Type) : Type := world -> result (A * world).

Definition ret {A} (a : A) : M A := fun w => Ok (a, w).
Definition bind {A B} (m : M A) (k : A -> M B) : M B :=
  fun w => match m w with
           | Ok (a, w') => k a w'
           | Raise e => Raise e
           end.
Definition raise {A} (e : exn) : M A := fun _ => Raise e.
Definition lift {A} (r : result A) : M A :=
  fun w => match r with Ok a => Ok (a, w) | Raise e => Raise e end.

Notation "x <- m ;; k" := (bind m (fun x => k))
  (at level 100, m at next level, right associativity) : py_scope.
Notation "m ;;; k" := (bind m (fun _ => k))
  (at level 100, right associativity) : py_scope.

(** A new object gets an identity that no live object has. *)
Definition alloc (o : obj) : M loc :=
  fun w => let l := fresh (dom (heap w)) in
           Ok (l, {| heap := <[l := o]> (heap w); files := files w; stdout := stdout w |}).

(** Reading through a reference.  Python references never dangle; the model
    raises [AttributeError] for an identity that names no object. *)
Definition load (l : loc) : M obj :=
  fun w => match heap w !! l with
           | Some o => Ok (o, w)
           | None => Raise AttributeError
           end.

Definition store (l : loc) (o : obj) : M unit :=
  fun w => Ok (tt, {| heap := <[l := o]> (heap w); files := files w; stdout := stdout w |}).

Definition print (s : line) : M unit :=
  fun w => Ok (tt, {| heap := heap w; files := files w; stdout := stdout w ++ [s] |}).

(** ** [plyfile]: elements, properties and files

    [plyfile] is an external library.  A file holds the [PlyData] that was
    written to it: [PlyData.write] followed by [PlyData.read] gives back the
    same elements, property names and values (the values written here are
    float32 already, and the fields are ['f4']). *)

(** [PlyData.read(path)] *)
Definition PlyData_read (path : string) : M PlyData :=
  fun w => match files w !! path with
           | Some d => Ok (d, w)
           | None => Raise FileNotFoundError
           end.

(** [PlyData(elements).write(path)] *)
Definition PlyData_write (d : PlyData) (path : string) : M unit :=
  fun w => Ok (tt, {| heap := heap w; files := <[path := d]> (files w); stdout := stdout w |}).

(** [plydata[name]]: KeyError when there is no such element. *)
Fixpoint get_element (name : string) (d : PlyData) : result PlyElement :=
  match d with
  | [] => Raise KeyError
  | e :: d' => if String.eqb (el_name e) name then Ok e else get_element name d'
  end.

(** [name in element] *)
Definition has_property (name : string) (e : PlyElement) : bool :=
  existsb (fun p => String.eqb (p_name p) name) (el_properties e).

(** [element[name]]: NumPy raises ValueError ("no field of name ..."). *)
Definition get_property (name : string) (e : PlyElement) : result (list R) :=
  match find (fun p => String.eqb (p_name p) name) (el_properties e) with
  | Some p => Ok (p_values p)
  | None => Raise ValueError
  end.

(** [elements[name] = values] on [elements = np.empty(N, dtype)]: the
    values are broadcast to length [N]. *)
Definition assign_field (N : nat) (values : list R) : result (list R) :=
  if Nat.eqb (length values) N then Ok values
  else match values with
       | [x] => Ok (replicate N x)
       | _ => Raise ValueError
       end.

(** ** [src/run_optimization.py] *)

Definition SH_C0 : R := 0.28209479177387814%R.

Definition load_ply (path : string) : M (array * array) :=
  (plydata <- PlyData_read path ;;
   vertex <- lift (get_element "vertex" plydata) ;;
   x <- lift (get_property "x" vertex) ;;
   y <- lift (get_property "y" vertex) ;;
   z <- lift (get_property "z" vertex) ;;
   points <- lift (stack3 x y z) ;;
   if has_property "red" vertex && has_property "green" vertex
      && has_property "blue" vertex
   then
     r <- lift (get_property "red" vertex) ;;
     g <- lift (get_property "green" vertex) ;;
     b <- lift (get_property "blue" vertex) ;;
     colors <- lift (stack3 r g b) ;;
     let colors := emap (fun c => (c / 255.0)%R) colors in
     ret (points, colors)
   else if has_property "f_dc_0" vertex && has_property "f_dc_1" vertex
           && has_property "f_dc_2" vertex
   then
     f0 <- lift (get_property "f_dc_0" vertex) ;;
     f1 <- lift (get_property "f_dc_1" vertex) ;;
     f2 <- lift (get_property "f_dc_2" vertex) ;;
     f_dc <- lift (stack3 f0 f1 f2) ;;
     let colors := emap (fun f => (f * SH_C0 + 0.5)%R) f_dc in
     let colors := emap (clip 0.0 1.0) colors in
     ret (points, colors)
   else
     print NoColorWarning ;;;
     let colors := ones_like points in
     ret (points, colors))%py.

(** ** [src/core/optimization.py] *)

Definition SH_C0_SCALE : R := 0.28209479177387814%R.

(** An image tensor of shape (H, W, 3). *)
Record image_tensor : Type := ImageTensor {
  im_shape : nat * nat;
  im_at : nat -> nat -> vec3
}.

(** [torch.optim.Adam]: its parameter groups and, per parameter, the step
    count and the two moment estimates. *)
Record param_group : Type := ParamGroup {
  pg_params : list loc;
  pg_lr : R
}.

Record adam_moments : Type := Moments {
  step_count : nat;
  exp_avg : array;
  exp_avg_sq : array
}.

Record Adam : Type := MkAdam {
  param_groups : list param_group;
  adam_lr : R;
  adam_state : gmap loc adam_moments
}.

(** The external collaborators: the gsplat rasterizer (one camera, so the
    batch axis that [render] adds and [render_colors[0]] removes is left
    out), reverse-mode differentiation of the loss through it, and the
    arithmetic of one Adam update of one parameter.  They are total
    functions here: a call into them is assumed to return. *)
Class Backend : Type := {
  rasterization :
    array -> array -> array -> array -> array -> array -> array -> nat -> nat ->
    nat -> nat -> vec3;
  autograd :
    array -> array -> array -> array -> array -> image_tensor -> array -> array ->
    array * array * array * array * array;
  adam_update :
    R -> array -> array -> option adam_moments -> array * adam_moments
}.

Record GaussianOptimizer : Type := MkGaussianOptimizer {
  device : string;
  points_initial : loc;
  colors_initial : loc;
  N : nat;
  means : loc;
  scales : loc;
  quats : loc;
  opacities : loc;
  sh0 : loc;
  params : list loc;
  optimizer : Adam
}.

(** [torch.tensor(a, dtype=torch.float32)]: always a new tensor with a copy
    of the data. *)
Definition torch_tensor (a : loc) : M loc :=
  (o <- load a ;; alloc (Tensor (obj_data o) false None))%py.

(** [t.clone()] *)
Definition clone (t : loc) : M loc :=
  (o <- load t ;; alloc (Tensor (obj_data o) (obj_requires_grad o) None))%py.

(** [nn.Parameter(t)]: shares the memory of [t] and requires gradients. *)
Definition nn_Parameter (t : loc) : M loc :=
  (o <- load t ;; store t (Tensor (obj_data o) true None) ;;; ret t)%py.

(** In-place update of the data of a tensor. *)
Definition update_data (t : loc) (f : array -> array) : M unit :=
  (o <- load t ;;
   store t (Tensor (f (obj_data o)) (obj_requires_grad o) (obj_grad o)))%py.

Definition _initialize_parameters (points_initial colors_initial : loc) (N : nat)
  : M (loc * loc * loc * loc * loc * list loc) :=
  (c <- clone points_initial ;;
   means <- nn_Parameter c ;;
   s <- alloc (Tensor (full N 3 (-5.0)%R) false None) ;;
   scales <- nn_Parameter s ;;
   quats <- alloc (Tensor (zeros N 4) false None) ;;
   update_data quats (set_column 0 1.0%R) ;;;
   quats <- nn_Parameter quats ;;
   o <- alloc (Tensor (zeros N 1) false None) ;;
   opacities <- nn_Parameter o ;;
   ci <- load colors_initial ;;
   let base_color :=
     emap (fun c => (c / SH_C0_SCALE)%R) (emap (fun c => (c - 0.5)%R) (obj_data ci)) in
   b <- alloc (Tensor base_color false None) ;;
   sh0 <- nn_Parameter b ;;
   ret (means, scales, quats, opacities, sh0,
        [means; scales; quats; opacities; sh0]))%py.

Definition _setup_optimizer (means colors_initial scales quats sh0 opacities : loc)
    (lr : R) : Adam :=
  {| param_groups :=
       [ {| pg_params := [means]; pg_lr := (0.00016 * 10)%R |};
         {| pg_params := [colors_initial]; pg_lr := 0.0025%R |};
         {| pg_params := [scales]; pg_lr := 0.005%R |};
         {| pg_params := [quats]; pg_lr := 0.001%R |};
         {| pg_params := [sh0]; pg_lr := 0.0025%R |};
         {| pg_params := [opacities]; pg_lr := 0.05%R |} ];
     adam_lr := lr;
     adam_state := ∅ |}.

Definition __init__ (points colors : loc) (device : string) : M GaussianOptimizer :=
  (points_initial <- torch_tensor points ;;
   colors_initial <- torch_tensor colors ;;
   pi <- load points_initial ;;
   let N := length (obj_data pi) in
   print (InitLine N device) ;;;
   ps <- _initialize_parameters points_initial colors_initial N ;;
   let '(means, scales, quats, opacities, sh0, params) := ps in
   let optimizer :=
     _setup_optimizer means colors_initial scales quats sh0 opacities 0.001%R in
   ret {| device := device;
          points_initial := points_initial; colors_initial := colors_initial;
          N := N;
          means := means; scales := scales; quats := quats;
          opacities := opacities; sh0 := sh0;
          params := params; optimizer := optimizer |})%py.

(** The activations of [render]. *)
Definition sigmoid (x : R) : R := (1 / (1 + exp (- x)))%R.

(** [r.norm()] of one row. *)
Definition norm (r : list R) : R := sqrt (fold_right (fun x acc => (x * x + acc)%R) 0%R r).

(** [a / a.norm(dim=-1, keepdim=True)] *)
Definition normalize_rows (a : array) : array :=
  map (fun r => map (fun x => (x / norm r)%R) r) a.

Definition render `{Backend} (self : GaussianOptimizer) (view_matrix K : array)
    (width height : nat) : M image_tensor :=
  (s <- load (scales self) ;;
   let scales_final := emap exp (obj_data s) in
   q <- load (quats self) ;;
   let quats_final := normalize_rows (obj_data q) in
   o <- load (opacities self) ;;
   let opacities_final := emap sigmoid (obj_data o) in
   c <- load (sh0 self) ;;
   let colors_precomp := emap (fun x => (x * SH_C0_SCALE + 0.5)%R) (obj_data c) in
   m <- load (means self) ;;
   ret {| im_shape := (height, width);
          im_at := rasterization (obj_data m) quats_final scales_final
                     opacities_final colors_precomp view_matrix K width height |})%py.

(** Elementwise operations on image tensors.  In [optimize_step] the two
    operands of the subtraction have the same shape, because the rendering
    is made with the height and width of the ground truth. *)
Definition image_zip (f : R -> R -> R) (a b : image_tensor) : image_tensor :=
  {| im_shape := im_shape a;
     im_at := fun v u =>
       let '(a0, a1, a2) := im_at a v u in
       let '(b0, b1, b2) := im_at b v u in
       (f a0 b0, f a1 b1, f a2 b2) |}.

Definition image_map (f : R -> R) (a : image_tensor) : image_tensor :=
  {| im_shape := im_shape a;
     im_at := fun v u => let '(a0, a1, a2) := im_at a v u in (f a0, f a1, f a2) |}.

(** All H*W*3 entries of an image tensor. *)
Definition image_values (a : image_tensor) : list R :=
  flat_map (fun p : vec3 => let '(c0, c1, c2) := p in [c0; c1; c2])
           (grid (im_at a) (fst (im_shape a)) (snd (im_shape a))).

Definition total (l : list R) : R := fold_right Rplus 0%R l.

(** [t.mean().item()]: the mean of no entries is NaN, written [None]. *)
Definition mean (l : list R) : option R :=
  match l with
  | [] => None
  | _ => Some (total l / INR (length l))%R
  end.

(** Running a command for each element of a list, in order. *)
Fixpoint for_each {A} (f : A -> M unit) (l : list A) : M unit :=
  match l with
  | [] => ret tt
  | a :: l' => (f a ;;; for_each f l')%py
  end.

(** [optimizer.zero_grad()], which sets the gradients to None. *)
Definition clear_grad (p : loc) : M unit :=
  (o <- load p ;;
   match o with
   | Tensor d rg _ => store p (Tensor d rg None)
   | NdArray _ => ret tt
   end)%py.

Definition zero_grad (opt : Adam) : M unit :=
  for_each (fun g => for_each clear_grad (pg_params g)) (param_groups opt).

(** Elementwise sum of two tensors of the same shape. *)
Definition add (a b : array) : array :=
  zip_with (zip_with Rplus) a b.

(** A tensor that requires gradients gets the gradient added to its
    [.grad]. *)
Definition accumulate_grad (p : loc) (g : array) : M unit :=
  (o <- load p ;;
   match o with
   | Tensor d true None => store p (Tensor d true (Some g))
   | Tensor d true (Some g0) => store p (Tensor d true (Some (add g0 g)))
   | _ => ret tt
   end)%py.

(** [loss.backward()]: the loss depends on the five tensors that [render]
    reads.  Torch raises RuntimeError when none of them requires
    gradients. *)
Definition backward `{Backend} (self : GaussianOptimizer) (gt_image : image_tensor)
    (view_mat K : array) : M unit :=
  (m <- load (means self) ;;
   s <- load (scales self) ;;
   q <- load (quats self) ;;
   o <- load (opacities self) ;;
   c <- load (sh0 self) ;;
   if obj_requires_grad m || obj_requires_grad s || obj_requires_grad q
      || obj_requires_grad o || obj_requires_grad c
   then
     let '(g_means, g_scales, g_quats, g_opacities, g_sh0) :=
       autograd (obj_data m) (obj_data s) (obj_data q) (obj_data o) (obj_data c)
                gt_image view_mat K in
     accumulate_grad (means self) g_means ;;;
     accumulate_grad (scales self) g_scales ;;;
     accumulate_grad (quats self) g_quats ;;;
     accumulate_grad (opacities self) g_opacities ;;;
     accumulate_grad (sh0 self) g_sh0
   else raise RuntimeError)%py.

(** [optimizer.step()]: Adam skips a parameter whose [.grad] is None. *)
Fixpoint step_params `{Backend} (lr : R) (ps : list loc)
    (st : gmap loc adam_moments) : M (gmap loc adam_moments) :=
  match ps with
  | [] => ret st
  | p :: ps' =>
      (o <- load p ;;
       match obj_grad o with
       | None => step_params lr ps' st
       | Some g =>
           let '(d', m') := adam_update lr (obj_data o) g (st !! p) in
           store p (Tensor d' (obj_requires_grad o) (Some g)) ;;;
           step_params lr ps' (<[p := m']> st)
       end)%py
  end.

Fixpoint step_groups `{Backend} (gs : list param_group)
    (st : gmap loc adam_moments) : M (gmap loc adam_moments) :=
  match gs with
  | [] => ret st
  | g :: gs' =>
      (st' <- step_params (pg_lr g) (pg_params g) st ;; step_groups gs' st')%py
  end.

Definition Adam_step `{Backend} (opt : Adam) : M Adam :=
  (st <- step_groups (param_groups opt) (adam_state opt) ;;
   ret {| param_groups := param_groups opt; adam_lr := adam_lr opt;
          adam_state := st |})%py.

Definition set_optimizer (self : GaussianOptimizer) (opt : Adam) : GaussianOptimizer :=
  {| device := device self;
     points_initial := points_initial self; colors_initial := colors_initial self;
     N := N self;
     means := means self; scales := scales self; quats := quats self;
     opacities := opacities self; sh0 := sh0 self;
     params := params self; optimizer := opt |}.

(** [optimize_step] returns [(loss.item(), rendered_image)]; the optimizer
    object, whose Adam state has changed, is returned with them. *)
Definition optimize_step `{Backend} (self : GaussianOptimizer)
    (gt_image : image_tensor) (view_mat K : array)
  : M (option R * image_tensor * GaussianOptimizer) :=
  (let '(H, W) := im_shape gt_image in
   zero_grad (optimizer self) ;;;
   rendered_image <- render self view_mat K W H ;;
   let loss := mean (image_values
                       (image_map Rabs (image_zip Rminus rendered_image gt_image))) in
   backward self gt_image view_mat K ;;;
   opt <- Adam_step (optimizer self) ;;
   ret (loss, rendered_image, set_optimizer self opt))%py.

(** One assignment [elements[name] = a[:, j]] of [save_ply]. *)
Definition ply_field (N : nat) (name : string) (a : array) (j : nat)
  : result PlyProperty :=
  (col <~ column j a ;;
   values <~ assign_field N col ;;
   Ok {| p_name := name; p_dtype := F4; p_values := values |})%py.

(** The assignments of a list of fields, in order. *)
Fixpoint ply_fields (N : nat) (fields : list (string * array * nat))
  : result (list PlyProperty) :=
  match fields with
  | [] => Ok []
  | (name, a, j) :: fields' =>
      (p <~ ply_field N name a j ;;
       ps <~ ply_fields N fields' ;;
       Ok (p :: ps))%py
  end.

Definition save_ply (self : GaussianOptimizer) (path : string) : M unit :=
  (m <- load (means self) ;;
   let xyz := obj_data m in
   c <- load (sh0 self) ;;
   let f_dc := obj_data c in
   o <- load (opacities self) ;;
   let opacities := obj_data o in
   s <- load (scales self) ;;
   let scales := obj_data s in
   q <- load (quats self) ;;
   let rots := obj_data q in
   let N := length xyz in
   let normals := zeros_like xyz in
   properties <- lift (ply_fields N
     [ ("x", xyz, 0); ("y", xyz, 1); ("z", xyz, 2);
       ("nx", normals, 0); ("ny", normals, 1); ("nz", normals, 2);
       ("f_dc_0", f_dc, 0); ("f_dc_1", f_dc, 1); ("f_dc_2", f_dc, 2);
       ("opacity", opacities, 0);
       ("scale_0", scales, 0); ("scale_1", scales, 1); ("scale_2", scales, 2);
       ("rot_0", rots, 0); ("rot_1", rots, 1); ("rot_2", rots, 2);
       ("rot_3", rots, 3) ]%nat) ;;
   let el := {| el_name := "vertex"; el_count := N; el_properties := properties |} in
   PlyData_write [el] path ;;;
   print (SavedLine path))%py.

(** Modelled from the spec: the method that [src/texture_mesh.py] calls as
    [optimizer.switch_to_color_optimization(lr=0.02)] and the spec names
    [switch_to_color_only_mode(learning_rate)] is missing from the class
    [GaussianOptimizer] of [src/core/optimization.py].  The spec: it
    "reconfigures the optimizer so that only color_sh0 receives gradient
    updates"; position, scale, rotation and opacity "become frozen (no
    parameter-group entry, or zero learning rate)".  The model takes the
    first alternative: a new Adam optimizer whose only parameter group holds
    [sh0]. *)
Definition switch_to_color_only_mode (learning_rate : R) (self : GaussianOptimizer)
  : GaussianOptimizer :=
  set_optimizer self
    {| param_groups := [ {| pg_params := [sh0 self]; pg_lr := learning_rate |} ];
       adam_lr := learning_rate;
       adam_state := ∅ |}.

(** [k] calls of [optimize_step], one for each (ground truth, view matrix,
    intrinsics) of the list, as in the training loops of the callers. *)
Fixpoint optimize_steps `{Backend} (self : GaussianOptimizer)
    (inputs : list (image_tensor * array * array))
  : M (list (option R) * GaussianOptimizer) :=
  match inputs with
  | [] => ret ([], self)
  | (gt_image, view_mat, K) :: inputs' =>
      (r <- optimize_step self gt_image view_mat K ;;
       let '(loss, _, self') := r in
       rs <- optimize_steps self' inputs' ;;
       let '(losses, self'') := rs in
       ret (loss :: losses, self''))%py
  end.

(** ** Reading the store *)

(** The data of the tensor behind a reference. *)
Definition data_at (w : world) (l : loc) : option array :=
  obj_data <$> heap w !! l.

(** A tensor is trainable when it requires gradients. *)
Definition trainable (w : world) (l : loc) : bool :=
  match heap w !! l with
  | Some o => obj_requires_grad o
  | None => false
  end.

(** The five tensors of the store, and the tensors that the optimizer
    holds in its parameter groups. *)
Definition attributes (self : GaussianOptimizer) : list loc :=
  [means self; scales self; quats self; opacities self; sh0 self].

Definition group_params (opt : Adam) : list loc :=
  concat (map pg_params (param_groups opt)).

(** One of the five tensors of the store requires gradients. *)
Definition any_trainable (self : GaussianOptimizer) (w : world) : Prop :=
  exists l, l ∈ attributes self /\ trainable w l = true.

(** The references of [ls] name objects of the heap. *)
Definition live_in (ls : list loc) (w : world) : Prop :=
  forall l, l ∈ ls -> is_Some (heap w !! l).

(** [a] has [n] rows of [c] numbers. *)
Definition has_shape (n c : nat) (a : array) : Prop :=
  length a = n /\ Forall (fun r => length r = c) a.

(** A splat store of count [n]: position (n,3), log-scale (n,3), raw
    rotation (n,4), opacity logit (n,1) and SH0 colour (n,1,3). *)
Definition splat_store (n : nat) (self : GaussianOptimizer) (w : world) : Prop :=
  exists xyz s q o c,
    data_at w (means self) = Some xyz /\ has_shape n 3 xyz /\
    data_at w (scales self) = Some s /\ has_shape n 3 s /\
    data_at w (quats self) = Some q /\ has_shape n 4 q /\
    data_at w (opacities self) = Some o /\ has_shape n 1 o /\
    data_at w (sh0 self) = Some c /\ has_shape n 3 c.

(** ** Vocabulary of the theorems *)

(** [m], run in [w], returns, and its result and final world satisfy [Q]. *)
Definition runs {A} (m : M A) (w : world) (Q : A -> world -> Prop) : Prop :=
  exists a w', m w = Ok (a, w') /\ Q a w'.

Definition set_heap (w : world) (h : gmap loc obj) : world :=
  {| heap := h; files := files w; stdout := stdout w |}.

Definition with_stdout (w : world) (out : list line) : world :=
  {| heap := heap w; files := files w; stdout := out |}.

(** From [w] to [w']: no object disappears, only the tensors in [L] may
    have new data, and flags, files and output are unchanged. *)
Definition extends (L : list loc) (w w' : world) : Prop :=
  (forall l, is_Some (heap w !! l) -> is_Some (heap w' !! l)) /\
  (forall l, l ∉ L -> data_at w' l = data_at w l) /\
  (forall l, trainable w' l = trainable w l) /\
  files w' = files w /\ stdout w' = stdout w.

(** The loss that [optimize_step] computes from a rendering. *)
Definition step_loss (rendered gt_image : image_tensor) : option R :=
  mean (image_values (image_map Rabs (image_zip Rminus rendered gt_image))).

(** The L1 loss in the words of the specification: the mean, over all
    pixels and channels, of the absolute difference of the two images. *)
Definition pixel_l1 (p q : vec3) : R :=
  let '(p0, p1, p2) := p in
  let '(q0, q1, q2) := q in
  (Rabs (p0 - q0) + Rabs (p1 - q1) + Rabs (p2 - q2))%R.

Definition l1_loss (rendered gt_image : image_tensor) : R :=
  let '(H, W) := im_shape gt_image in
  (total (grid (fun v u => pixel_l1 (im_at rendered v u) (im_at gt_image v u)) H W)
   / INR (H * W * 3))%R.

(** Column [j] of an array, and the array whose columns are given. *)
Definition col (j : nat) (a : array) : list R := map (fun r => nth j r 0%R) a.

Definition stack_columns (n : nat) (cols : list (list R)) : array :=
  map (fun i => map (fun c => nth i c 0%R) cols) (seq 0 n).

(** The named fields of the records of an element, one row per record. *)
Fixpoint get_properties (names : list string) (e : PlyElement)
  : result (list (list R)) :=
  match names with
  | [] => Ok []
  | name :: names' =>
      (c <~ get_property name e ;;
       cs <~ get_properties names' e ;;
       Ok (c :: cs))%py
  end.

Definition read_fields (names : list string) (e : PlyElement) : result array :=
  (cols <~ get_properties names e ;; Ok (stack_columns (el_count e) cols))%py.

(** Every column of an element has one value per record. *)
Definition element_consistent (e : PlyElement) : Prop :=
  Forall (fun p => length (p_values p) = el_count e) (el_properties e).

(** The element that [save_ply] writes for the given raw attributes. *)
Definition saved_element (xyz f_dc opacities scales rots : array) : PlyElement :=
  let normals := zeros_like xyz in
  {| el_name := "vertex";
     el_count := length xyz;
     el_properties :=
       [ Property "x" F4 (col 0 xyz); Property "y" F4 (col 1 xyz);
         Property "z" F4 (col 2 xyz);
         Property "nx" F4 (col 0 normals); Property "ny" F4 (col 1 normals);
         Property "nz" F4 (col 2 normals);
         Property "f_dc_0" F4 (col 0 f_dc); Property "f_dc_1" F4 (col 1 f_dc);
         Property "f_dc_2" F4 (col 2 f_dc);
         Property "opacity" F4 (col 0 opacities);
         Property "scale_0" F4 (col 0 scales); Property "scale_1" F4 (col 1 scales);
         Property "scale_2" F4 (col 2 scales);
         Property "rot_0" F4 (col 0 rots); Property "rot_1" F4 (col 1 rots);
         Property "rot_2" F4 (col 2 rots); Property "rot_3" F4 (col 3 rots) ] |}.

(** The sum of the squares of a row. *)
Definition sumsq (r : list R) : R := fold_right (fun x acc => (x * x + acc)%R) 0%R r.

(** ** Small worlds on which the theorems are exercised *)

(** A caller that holds one point at the origin and one grey colour. *)
Definition caller_world : world :=
  {| heap := <[1%positive := NdArray [[0; 0; 0]%R]]>
               (<[2%positive := NdArray [[0.5; 0.5; 0.5]%R]]> ∅);
     files := ∅;
     stdout := [] |}.

(** A store of one splat as the constructor leaves it, except that its
    raw rotation is [rot]. *)
Definition example_self : GaussianOptimizer :=
  {| device := "cpu";
     points_initial := 3%positive; colors_initial := 4%positive;
     N := 1;
     means := 5%positive; scales := 6%positive; quats := 7%positive;
     opacities := 8%positive; sh0 := 9%positive;
     params := [5; 6; 7; 8; 9]%positive;
     optimizer := _setup_optimizer 5%positive 4%positive 6%positive 7%positive
                    9%positive 8%positive 0.001%R |}.

Definition example_world (rot : list R) : world :=
  {| heap := <[3%positive := Tensor [[0; 0; 0]%R] false None]>
               (<[4%positive := Tensor [[0.5; 0.5; 0.5]%R] false None]>
               (<[5%positive := Tensor [[0; 0; 0]%R] true None]>
               (<[6%positive := Tensor [[-5.0; -5.0; -5.0]%R] true None]>
               (<[7%positive := Tensor [rot] true None]>
               (<[8%positive := Tensor [[0%R]] true None]>
               (<[9%positive := Tensor [[0; 0; 0]%R] true None]> ∅))))));
     files := ∅;
     stdout := [] |}.

(** A backend for the examples: every pixel is rendered black, every
    gradient is one, and the update is a plain gradient step. *)
Definition descent (lr : R) (p g : array) : array :=
  zip_with (zip_with (fun x y => (x - lr * y)%R)) p g.

Definition example_backend : Backend :=
  {| rasterization := fun _ _ _ _ _ _ _ _ _ _ _ => (0%R, 0%R, 0%R);
     autograd := fun m s q o c _ _ _ =>
       (ones_like m, ones_like s, ones_like q, ones_like o, ones_like c);
     adam_update := fun lr p g st =>
       (descent lr p g,
        {| step_count := S (from_option step_count 0%nat st);
           exp_avg := g; exp_avg_sq := g |}) |}.

(** A ground truth of one white pixel, and the identity matrices of the
    default camera. *)
Definition white_pixel : image_tensor :=
  {| im_shape := (1%nat, 1%nat); im_at := fun _ _ => (1%R, 1%R, 1%R) |}.

Definition identity4 : array :=
  [[1; 0; 0; 0]; [0; 1; 0; 0]; [0; 0; 1; 0]; [0; 0; 0; 1]]%R.

Definition identity3 : array := [[1; 0; 0]; [0; 1; 0]; [0; 0; 1]]%R.

(** A vertex block with positions only, and a file system that holds it. *)
Definition bare_vertex : PlyElement :=
  {| el_name := "vertex"; el_count := 1;
     el_properties := [ Property "x" F4 [1%R]; Property "y" F4 [2%R];
                        Property "z" F4 [3%R] ] |}.

Definition bare_world : world :=
  {| heap := ∅; files := <["cloud.ply" := [bare_vertex]]> ∅; stdout := [] |}.

(** ** [src/core/geometry.py]: the writer of a plain point cloud *)

(** [np.float32(x)]: the float32 number that a float64 is narrowed to when
    it is assigned to an 'f4' field.  It is a parameter of the model, as the
    rasterizer is; what is assumed of it is that the integers up to 2^24
    are float32 numbers. *)
Class Float32 : Type := {
  float32 : R -> R;
  float32_integer :
    forall k : Z, (Z.abs k <= 16777216)%Z -> float32 (IZR k) = IZR k
}.

Module Geometry.

Definition C0 : R := 0.28209479177387814%R.

(** [save_ply(xyz, rgb, output_path)].  The two arrays are only read, so
    they are passed by value.  They and the arrays computed here are
    float64; each assignment [elements[name] = a[:, j]] narrows the column
    to the float32 of the field. *)
Definition save_ply `{Float32} (xyz rgb : array) (output_path : string) : M unit :=
  (let num_points := length xyz in
   let normals := zeros_like xyz in
   let f_dc := emap (fun c => (c / C0)%R) (emap (fun c => (c - 0.5)%R) rgb) in
   let opacities := emap (fun o => (o * 100.0)%R) (full num_points 1 1%R) in
   let scales := emap (fun s => (s * -4.0)%R) (full num_points 3 1%R) in
   let rots := set_column 0 1.0%R (zeros num_points 4) in
   let f4 := emap float32 in
   elements <- lift (ply_fields num_points
     [ ("x", f4 xyz, 0); ("y", f4 xyz, 1); ("z", f4 xyz, 2);
       ("nx", f4 normals, 0); ("ny", f4 normals, 1); ("nz", f4 normals, 2);
       ("f_dc_0", f4 f_dc, 0); ("f_dc_1", f4 f_dc, 1); ("f_dc_2", f4 f_dc, 2);
       ("opacity", f4 opacities, 0);
       ("scale_0", f4 scales, 0); ("scale_1", f4 scales, 1);
       ("scale_2", f4 scales, 2);
       ("rot_0", f4 rots, 0); ("rot_1", f4 rots, 1); ("rot_2", f4 rots, 2);
       ("rot_3", f4 rots, 3) ]%nat) ;;
   let el := {| el_name := "vertex"; el_count := num_points;
                el_properties := elements |} in
   PlyData_write [el] output_path)%py.

End Geometry.

(** The (N, 3) array whose rows are the given points: [project_to_3d]
    returns its two arrays as lists of points, [save_ply] reads rows. *)
Definition rows_of (l : list vec3) : array :=
  map (fun p : vec3 => [vx p; vy p; vz p]) l.

(** ** [src/run_optimization.py]: the default camera *)

(** [np.deg2rad] *)
Definition deg2rad (deg : R) : R := (deg * PI / 180)%R.

(** [torch.eye(n)] *)
Definition eye (n : nat) : array :=
  map (fun i => map (fun j => if Nat.eqb i j then 1%R else 0%R) (seq 0 n)) (seq 0 n).

Definition default_fov_degrees : R := 60.0%R.

(** [get_default_camera(w, h, fov_degrees)] returns [(view_mat, K)]. *)
Definition get_default_camera (w h : nat) (fov_degrees : R) : array * array :=
  let fov_rad := deg2rad fov_degrees in
  let focal := (0.5 * INR w / tan (0.5 * fov_rad))%R in
  let K := [ [focal; 0%R; (INR w / 2)%R];
             [0%R; focal; (INR h / 2)%R];
             [0%R; 0%R; 1%R] ] in
  let view_mat := eye 4 in
  (view_mat, K).

(** The rows of a 3x3 matrix, as [torch.tensor(K_np)] holds them. *)
Definition matrix_rows (K : matrix3) : array :=
  [ [k00 K; k01 K; k02 K]; [k10 K; k11 K; k12 K]; [k20 K; k21 K; k22 K] ].

(** Every entry of an array is a float32 number already. *)
Definition float32_array `{Float32} (a : array) : Prop :=
  Forall (Forall (fun x => float32 x = x)) a.

(** The narrowing that changes nothing: every number counts as a float32
    number.  It serves where a theorem is exercised on float32 data. *)
Definition exact_float32 : Float32 :=
  {| float32 := fun x => x; float32_integer := fun _ _ => eq_refl |}.

(** Every entry of an array lies in the interval from 0 to 1. *)
Definition unit_range (a : array) : Prop :=
  Forall (Forall (fun c => (0 <= c <= 1)%R)) a.

(** The points at which the libraries of a PLY file keep their invariant:
    every element of every file has one value per record in each column. *)
Definition files_consistent (w : world) : Prop :=
  forall path d el, files w !! path = Some d -> el ∈ d -> element_consistent el.

(** The store as the constructor leaves it and as training keeps it: the
    five attributes and the initial colours are six different tensors, the
    attributes require gradients, the initial colours do not, and the
    optimizer holds the parameter groups of [_setup_optimizer]. *)
Definition constructed_store (self : GaussianOptimizer) (w : world) : Prop :=
  NoDup (colors_initial self :: attributes self) /\
  (forall l, l ∈ attributes self ->
     exists d g, heap w !! l = Some (Tensor d true g)) /\
  (exists d g, heap w !! colors_initial self = Some (Tensor d false g)) /\
  param_groups (optimizer self)
  = param_groups (_setup_optimizer (means self) (colors_initial self) (scales self)
                    (quats self) (sh0 self) (opacities self) 0.001%R).

(** What the theorems on training assume of the external collaborators:
    a gradient has the shape of its tensor, and an Adam update keeps the
    shape of the parameter. *)
Definition shape_preserving `{Backend} : Prop :=
  (forall m s q o c gt_image view_mat K n,
     has_shape n 3 m -> has_shape n 3 s -> has_shape n 4 q ->
     has_shape n 1 o -> has_shape n 3 c ->
     let '(g1, g2, g3, g4, g5) := autograd m s q o c gt_image view_mat K in
     has_shape n 3 g1 /\ has_shape n 3 g2 /\ has_shape n 4 g3 /\
     has_shape n 1 g4 /\ has_shape n 3 g5) /\
  (forall lr p g st n c,
     has_shape n c p -> has_shape n c g ->
     has_shape n c (fst (adam_update lr p g st))).

(** The frame of training: outside the five attributes and the initial
    colours nothing changes, and the initial colours keep their data. *)
Definition training_frame (self : GaussianOptimizer) (w w' : world) : Prop :=
  (forall l, l ∉ colors_initial self :: attributes self -> heap w' !! l = heap w !! l) /\
  data_at w' (colors_initial self) = data_at w (colors_initial self) /\
  files w' = files w /\ stdout w' = stdout w.

(** * Proofs *)

(** ** Row-major grids *)

Section Grid.
Context {A : Type} (f : nat -> nat -> A).

Lemma grid_length_from (W n : nat) :
  forall s, length (flat_map (fun v => map (fun u => f v u) (seq 0 W)) (seq s n)) = n * W.
Proof.
  induction n as [|n IH]; intros s; simpl; [reflexivity|].
  rewrite length_app, length_map, length_seq, IH. lia.
Qed.

Lemma grid_lookup_from (W n : nat) :
  forall s v u, v < n -> u < W ->
    flat_map (fun v => map (fun u => f v u) (seq 0 W)) (seq s n) !! (v * W + u)
    = Some (f (s + v) u).
Proof.
  induction n as [|n IH]; intros s v u Hv Hu; [lia|].
  simpl. destruct v as [|v].
  - rewrite lookup_app_l by (rewrite length_map, length_seq; lia).
    rewrite list_lookup_fmap, lookup_seq_lt by lia. simpl.
    f_equal. f_equal. lia.
  - rewrite lookup_app_r by (rewrite length_map, length_seq; lia).
    rewrite length_map, length_seq.
    replace (S v * W + u - W) with (v * W + u) by lia.
    rewrite IH by lia. f_equal. f_equal. lia.
Qed.

Lemma grid_length (H W : nat) : length (grid f H W) = H * W.
Proof. apply grid_length_from. Qed.

Lemma grid_lookup (H W v u : nat) :
  v < H -> u < W -> grid f H W !! (v * W + u) = Some (f v u).
Proof. intros Hv Hu. unfold grid. now rewrite grid_lookup_from. Qed.

Lemma grid_In (H W : nat) (x : A) :
  In x (grid f H W) <-> exists v u, v < H /\ u < W /\ x = f v u.
Proof.
  unfold grid. rewrite in_flat_map. split.
  - intros (v & Hv & Hx). apply in_map_iff in Hx as (u & <- & Hu).
    apply in_seq in Hv, Hu. exists v, u. repeat split; lia.
  - intros (v & u & Hv & Hu & ->). exists v. split; [apply in_seq; lia|].
    apply in_map_iff. exists u. split; [reflexivity | apply in_seq; lia].
Qed.

Lemma grid_Forall (P : A -> Prop) (H W : nat) :
  Forall P (grid f H W) <-> forall v u, v < H -> u < W -> P (f v u).
Proof.
  rewrite List.Forall_forall. split.
  - intros HP v u Hv Hu. apply HP, grid_In. eauto.
  - intros HP x (v & u & Hv & Hu & ->)%grid_In. auto.
Qed.

Lemma grid_nonempty (H W : nat) : 0 < H -> 0 < W -> grid f H W <> [].
Proof.
  intros HH HW E. pose proof (grid_length H W) as L. rewrite E in L.
  simpl in L. nia.
Qed.
End Grid.

Open Scope R_scope.

Lemma fold_Rmin_le (l : list R) : forall a,
  fold_left Rmin l a <= a /\ Forall (fun x => fold_left Rmin l a <= x) l.
Proof.
  induction l as [|y l IH]; intros a; simpl.
  - split; [lra | constructor].
  - destruct (IH (Rmin a y)) as [H1 H2].
    pose proof (Rmin_l a y). pose proof (Rmin_r a y).
    split; [lra|]. constructor; [lra | exact H2].
Qed.

Lemma fold_Rmax_ge (l : list R) : forall a,
  a <= fold_left Rmax l a /\ Forall (fun x => x <= fold_left Rmax l a) l.
Proof.
  induction l as [|y l IH]; intros a; simpl.
  - split; [lra | constructor].
  - destruct (IH (Rmax a y)) as [H1 H2].
    pose proof (Rmax_l a y). pose proof (Rmax_r a y).
    split; [lra|]. constructor; [lra | exact H2].
Qed.

Lemma reduce_Rmin_lower l m : reduce Rmin l = Ok m -> Forall (fun x => m <= x) l.
Proof.
  destruct l as [|x l]; simpl; [discriminate|]. intros [= <-].
  destruct (fold_Rmin_le l x). now constructor.
Qed.

Lemma reduce_Rmax_upper l m : reduce Rmax l = Ok m -> Forall (fun x => x <= m) l.
Proof.
  destruct l as [|x l]; simpl; [discriminate|]. intros [= <-].
  destruct (fold_Rmax_ge l x). now constructor.
Qed.

Lemma reduce_total op l : l <> [] -> exists m, reduce op l = Ok m.
Proof. destruct l; [congruence | simpl; eauto]. Qed.

Lemma fold_const (op : R -> R -> R) c (Hop : op c c = c) l :
  Forall (fun x => x = c) l -> fold_left op l c = c.
Proof.
  induction 1 as [|x l -> _ IH]; simpl; [reflexivity|]. now rewrite Hop.
Qed.

Lemma reduce_const (op : R -> R -> R) c (Hop : op c c = c) l :
  l <> [] -> Forall (fun x => x = c) l -> reduce op l = Ok c.
Proof.
  intros Hne Hall. destruct l as [|x l]; [congruence|].
  inversion Hall; subst. simpl. now rewrite fold_const.
Qed.

(** ** Depth projection *)

Lemma shape_eqb_eq s t : shape_eqb s t = true <-> s = t.
Proof.
  destruct s, t. unfold shape_eqb. simpl.
  rewrite andb_true_iff, !Nat.eqb_eq. split; [intros []; congruence | intros [= -> ->]; auto].
Qed.

Lemma shape_eqb_refl s : shape_eqb s s = true.
Proof. now apply shape_eqb_eq. Qed.

Lemma project_to_3d_eval image depth fov W H dmin dmax :
  size image = (W, H) -> shape depth = (H, W) ->
  amin depth = Ok dmin -> amax depth = Ok dmax ->
  project_to_3d image depth fov
  = Ok (grid (np_pixel_point W H fov depth dmin dmax) H W, image_rgb image).
Proof.
  intros Hs Hd Hmin Hmax. unfold project_to_3d. rewrite Hs, Hmin, Hmax. simpl.
  unfold azip, stack3_rows. simpl. rewrite Hd.
  repeat (rewrite shape_eqb_refl; simpl). reflexivity.
Qed.

Lemma project_to_3d_inv image depth fov xyz rgb :
  project_to_3d image depth fov = Ok (xyz, rgb) ->
  exists W H dmin dmax,
    size image = (W, H) /\ shape depth = (H, W) /\
    amin depth = Ok dmin /\ amax depth = Ok dmax /\
    xyz = grid (np_pixel_point W H fov depth dmin dmax) H W /\
    rgb = image_rgb image.
Proof.
  intros E. destruct (size image) as [W H] eqn:Hs.
  destruct (amin depth) as [dmin|] eqn:Hmin;
    [|unfold project_to_3d in E; rewrite Hs, Hmin in E; discriminate].
  destruct (amax depth) as [dmax|] eqn:Hmax;
    [|unfold project_to_3d in E; rewrite Hs, Hmin, Hmax in E; discriminate].
  destruct (shape_eqb (H, W) (shape depth)) eqn:Hd.
  - apply shape_eqb_eq in Hd. symmetry in Hd.
    rewrite (project_to_3d_eval _ _ _ _ _ _ _ Hs Hd Hmin Hmax) in E.
    injection E as <- <-. exists W, H, dmin, dmax. auto 10.
  - unfold project_to_3d in E. rewrite Hs, Hmin, Hmax in E. simpl in E.
    unfold azip in E. simpl in E. rewrite Hd in E. discriminate.
Qed.

(** Float divisions whose divisor is not zero stay in the reals. *)
Lemma np_div_fin x y : y <> 0 -> np_div (Fin x) (Fin y) = Fin (x / y).
Proof. intros Hy. unfold np_div. destruct (Req_dec_T y 0); [contradiction | reflexivity]. Qed.

(** Without a guard, the quotient of a flat depth map would be nan. *)
Remark np_div_zero_zero : np_div (Fin 0) (Fin 0) = NaN.
Proof. unfold np_div. destruct (Req_dec_T 0 0); [reflexivity | contradiction]. Qed.

(** Under the guards of the code (the [1e-8] of the first divisor and the
    [0.05] of the second) no division of the depth pipeline is by zero, for
    any entry between the minimum and the maximum of the depth map. *)
Lemma np_depth_z_fin depth dmin dmax v u :
  dmin <= at2 depth v u <= dmax ->
  np_depth_z depth dmin dmax v u = Fin (depth_z depth dmin dmax v u).
Proof.
  intros [Hlo Hhi]. unfold np_depth_z, depth_z.
  set (den := dmax - dmin + 1e-8). assert (0 < den) as Hden by (unfold den; lra).
  rewrite np_div_fin by lra. cbn [np_add].
  set (disp := (at2 depth v u - dmin) / den).
  assert (0 <= disp) as H0.
  { unfold disp. apply Rmult_le_reg_r with den; [lra|]. field_simplify; lra. }
  rewrite np_div_fin by lra. reflexivity.
Qed.

Lemma np_pixel_point_fin W H fov depth dmin dmax v u :
  dmin <= at2 depth v u <= dmax ->
  k00 (get_intrinsics W H fov) <> 0 ->
  np_pixel_point W H fov depth dmin dmax v u
  = fin3 (pixel_point W H fov depth dmin dmax v u).
Proof.
  intros Hb Hf. unfold np_pixel_point, pixel_point. cbv zeta.
  rewrite (np_depth_z_fin _ _ _ _ _ Hb). cbn [np_mul fin3].
  rewrite !np_div_fin; [reflexivity | exact Hf | exact Hf].
Qed.

Lemma np_pixel_point_z W H fov depth dmin dmax v u :
  dmin <= at2 depth v u <= dmax ->
  fz (np_pixel_point W H fov depth dmin dmax v u)
  = Fin (depth_z depth dmin dmax v u).
Proof. intros Hb. unfold np_pixel_point, fz. cbn [snd]. now apply np_depth_z_fin. Qed.

Lemma amin_amax_total depth :
  (0 < fst (shape depth))%nat -> (0 < snd (shape depth))%nat ->
  exists dmin dmax, amin depth = Ok dmin /\ amax depth = Ok dmax.
Proof.
  intros Hr Hc. unfold amin, amax.
  destruct (reduce_total Rmin (ravel depth)) as [m Hm]; [now apply grid_nonempty|].
  destruct (reduce_total Rmax (ravel depth)) as [M HM]; [now apply grid_nonempty|].
  eauto.
Qed.

Lemma amin_amax_bounds depth dmin dmax v u :
  amin depth = Ok dmin -> amax depth = Ok dmax ->
  (v < fst (shape depth))%nat -> (u < snd (shape depth))%nat ->
  dmin <= at2 depth v u <= dmax.
Proof.
  intros Hmin%reduce_Rmin_lower Hmax%reduce_Rmax_upper Hv Hu.
  unfold ravel in *. rewrite grid_Forall in Hmin, Hmax. split; auto.
Qed.

Lemma channel_range b : 0 <= channel b / 255.0 <= 1.
Proof.
  unfold channel. pose proof (Byte.to_N_bounded b) as Hb.
  assert (N.to_nat (Byte.to_N b) <= 255)%nat as Hn by lia.
  apply le_INR in Hn. pose proof (pos_INR (N.to_nat (Byte.to_N b))).
  replace (INR 255) with 255 in Hn by (simpl; lra).
  split; [apply Rmult_le_reg_r with 255.0 | apply Rmult_le_reg_r with 255.0];
    try lra; field_simplify; lra.
Qed.

Lemma half_fov_range fov :
  0 < fov < 180 -> 0 < 0.5 * radians fov < PI / 2.
Proof.
  intros [H0 H1]. unfold radians. pose proof PI_RGT_0 as Hpi. split.
  - apply Rmult_lt_0_compat; [lra|]. apply Rdiv_lt_0_compat; [nra | lra].
  - assert (fov * PI < 180 * PI) by nra. lra.
Qed.

Lemma tan_half_fov_pos fov : 0 < fov < 180 -> 0 < tan (0.5 * radians fov).
Proof. intros H. apply tan_gt_0; apply half_fov_range; exact H. Qed.

Lemma focal_pos width fov :
  (0 < width)%nat -> 0 < fov < 180 -> 0 < 0.5 * INR width / tan (0.5 * radians fov).
Proof.
  intros Hw Hf. apply lt_0_INR in Hw. pose proof (tan_half_fov_pos fov Hf).
  apply Rdiv_lt_0_compat; lra.
Qed.

(** C9: for every width, height and field of view strictly between 0 and
    180 degrees, [get_intrinsics] returns the matrix with
    fx = fy = 0.5 * width / tan(0.5 * fov in radians), cx = width / 2 and
    cy = height / 2; the tangent is not zero there, so the quotient is
    defined.  The function reads its three arguments and nothing else: it
    lives outside the monad [M] of the code that touches the world. *)
Theorem get_intrinsics_spec (width height : nat) (fov : R) :
  0 < fov < 180 ->
  let K := get_intrinsics width height fov in
  tan (0.5 * radians fov) <> 0 /\
  k00 K = 0.5 * INR width / tan (0.5 * (fov * PI / 180)) /\
  k11 K = k00 K /\
  k02 K = INR width / 2 /\
  k12 K = INR height / 2 /\
  K = {| k00 := k00 K; k01 := 0; k02 := k02 K;
         k10 := 0; k11 := k11 K; k12 := k12 K;
         k20 := 0; k21 := 0; k22 := 1 |}.
Proof.
  intros Hf K. pose proof (tan_half_fov_pos fov Hf).
  repeat split; try reflexivity. lra.
Qed.

Lemma get_intrinsics_spec_witness :
  0 < 55 < 180 /\
  k00 (get_intrinsics 4 4 55) = 0.5 * INR 4 / tan (0.5 * (55 * PI / 180)) /\
  k02 (get_intrinsics 4 4 55) = INR 4 / 2.
Proof.
  assert (0 < 55 < 180) as Hf by lra.
  destruct (get_intrinsics_spec 4 4 55 Hf) as (_ & Hfx & _ & Hcx & _).
  split; [exact Hf | split; [exact Hfx | exact Hcx]].
Defined.

Lemma depth_z_range depth dmin dmax v u :
  dmin <= at2 depth v u <= dmax ->
  5 / 1.05 < depth_z depth dmin dmax v u <= 100.
Proof.
  intros [Hlo Hhi]. unfold depth_z.
  set (den := dmax - dmin + 1e-8). assert (0 < den) as Hden by (unfold den; lra).
  set (disp := (at2 depth v u - dmin) / den).
  assert (0 <= disp) as H0.
  { unfold disp. apply Rmult_le_reg_r with den; [lra|]. field_simplify; lra. }
  assert (disp < 1) as H1.
  { unfold disp. apply Rmult_lt_reg_r with den; [lra|]. field_simplify; unfold den; lra. }
  assert (0 < disp + 0.05) as Hd by lra. split.
  - apply Rmult_lt_reg_r with (disp + 0.05); [lra|]. field_simplify; lra.
  - apply Rmult_le_reg_r with (disp + 0.05); [lra|]. field_simplify; lra.
Qed.




Lemma image_rgb_lookup image W H v u :
  size image = (W, H) -> (v < H)%nat -> (u < W)%nat ->
  image_rgb image !! (v * W + u)%nat
  = Some (let '(r, g, b) := getpixel image u v in
          (channel r / 255.0, channel g / 255.0, channel b / 255.0)).
Proof.
  intros Hs Hv Hu. unfold image_rgb. rewrite Hs. now rewrite grid_lookup.
Qed.

(** C6: for a W x H image with at least one pixel and a depth map of the
    same size, [project_to_3d] returns exactly W*H positions and W*H
    colours in row-major pixel order.  Entry v*W + u of both belongs to the
    pixel in column u, row v: its position is
    ((u - cx) * Z / fx, (v - cy) * Z / fy, Z) and its colour the three raw
    channels divided by 255, each in [0, 1].  Z is a finite number; the two
    divisions by the focal length are float divisions, and give the
    quotients of the reals whenever the focal length is not zero, as it is
    for a field of view in (0, 180) degrees. *)
Theorem project_to_3d_points image depth fov W H :
  size image = (W, H) -> shape depth = (H, W) -> (0 < W)%nat -> (0 < H)%nat ->
  exists xyz rgb dmin dmax,
    project_to_3d image depth fov = Ok (xyz, rgb) /\
    amin depth = Ok dmin /\ amax depth = Ok dmax /\
    length xyz = (W * H)%nat /\ length rgb = (W * H)%nat /\
    forall u v, (u < W)%nat -> (v < H)%nat ->
      let K := get_intrinsics W H fov in
      let fx := k00 K in let fy := k11 K in
      let cx := k02 K in let cy := k12 K in
      let Z := 1.0 / ((at2 depth v u - dmin) / (dmax - dmin + 1e-8) + 0.05) * 5.0 in
      let '(r, g, b) := getpixel image u v in
      xyz !! (v * W + u)%nat
        = Some (np_div (Fin ((INR u - cx) * Z)) (Fin fx),
                np_div (Fin ((INR v - cy) * Z)) (Fin fy), Fin Z) /\
      (fx <> 0 ->
       xyz !! (v * W + u)%nat
         = Some (Fin ((INR u - cx) * Z / fx), Fin ((INR v - cy) * Z / fy), Fin Z)) /\
      (0 < fov < 180 -> fx <> 0) /\
      rgb !! (v * W + u)%nat
        = Some (channel r / 255, channel g / 255, channel b / 255) /\
      0 <= channel r / 255 <= 1 /\ 0 <= channel g / 255 <= 1 /\
      0 <= channel b / 255 <= 1.
Proof.
  intros Hs Hd HW HH.
  destruct (amin_amax_total depth) as (dmin & dmax & Hmin & Hmax);
    [rewrite Hd; simpl; lia | rewrite Hd; simpl; lia |].
  exists (grid (np_pixel_point W H fov depth dmin dmax) H W), (image_rgb image),
         dmin, dmax.
  split; [now apply project_to_3d_eval|].
  split; [exact Hmin|]. split; [exact Hmax|].
  split; [rewrite grid_length; lia|].
  split; [unfold image_rgb; rewrite Hs, grid_length; lia|].
  intros u v Hu Hv. cbv zeta.
  pose proof (image_rgb_lookup image W H v u Hs Hv Hu) as Hrgb.
  destruct (getpixel image u v) as [[r g] b].
  assert (dmin <= at2 depth v u <= dmax) as Hb
    by (apply amin_amax_bounds; auto; rewrite Hd; simpl; lia).
  rewrite grid_lookup by assumption.
  split.
  { unfold np_pixel_point. cbv zeta. rewrite (np_depth_z_fin _ _ _ _ _ Hb).
    reflexivity. }
  split.
  { intros Hf. rewrite (np_pixel_point_fin _ _ _ _ _ _ _ _ Hb Hf). reflexivity. }
  split.
  { intros Hfov. pose proof (focal_pos W fov HW Hfov). simpl. lra. }
  replace 255 with 255.0 by lra.
  split; [exact Hrgb|].
  repeat split; apply channel_range.
Qed.

Lemma project_to_3d_points_witness :
  exists xyz rgb,
    project_to_3d (blue_image 2 1) ramp_depth 55 = Ok (xyz, rgb) /\
    length xyz = 2%nat /\ length rgb = 2%nat /\
    rgb !! 1%nat = Some (channel Byte.x00 / 255, channel Byte.x00 / 255,
                         channel Byte.xff / 255).
Proof.
  destruct (project_to_3d_points (blue_image 2 1) ramp_depth 55 2 1
              eq_refl eq_refl ltac:(lia) ltac:(lia))
    as (xyz & rgb & dmin & dmax & Hp & _ & _ & Lx & Lr & Hpx).
  exists xyz, rgb. split; [exact Hp|]. split; [exact Lx|]. split; [exact Lr|].
  destruct (Hpx 1%nat 0%nat ltac:(lia) ltac:(lia)) as (_ & _ & _ & Hrgb & _).
  exact Hrgb.
Defined.

(** C7: on a flat depth map (every entry equal to c) [project_to_3d]
    raises nothing and returns W*H points.  Minimum and maximum are c, the
    disparity is the float quotient 0 / (0 + 1e-8) = 0 at every pixel, and
    every Z is the finite number 100; with a field of view in (0, 180)
    degrees X and Y are finite too.  The divisions are NumPy's: with a
    divisor 0 the disparity would be 0/0 = nan ([np_div_zero_zero]) and the
    theorem would fail.  The witness below is the 4 x 4 map filled with 5.0
    at 55 degrees, whose 16 points have Z = (1 / (0 + 0.05)) * 5. *)
Theorem project_to_3d_flat_depth image depth fov W H c :
  size image = (W, H) -> shape depth = (H, W) -> (0 < W)%nat -> (0 < H)%nat ->
  (forall v u, (v < H)%nat -> (u < W)%nat -> at2 depth v u = c) ->
  amin depth = Ok c /\ amax depth = Ok c /\
  (forall v u, (v < H)%nat -> (u < W)%nat ->
     fat2 (disparity_of depth c c) v u = Fin 0) /\
  exists xyz rgb,
    project_to_3d image depth fov = Ok (xyz, rgb) /\
    length xyz = (W * H)%nat /\
    Forall (fun p => fz p = Fin 100) xyz /\
    (0 < fov < 180 ->
     Forall (fun p => exists X Y, p = (Fin X, Fin Y, Fin 100)) xyz).
Proof.
  intros Hs Hd HW HH Hc.
  assert (Forall (fun x => x = c) (ravel depth)) as Hall.
  { unfold ravel. rewrite Hd. simpl. apply grid_Forall. auto. }
  assert (ravel depth <> []) as Hne.
  { unfold ravel. rewrite Hd. simpl. now apply grid_nonempty. }
  assert (amin depth = Ok c) as Hmin.
  { apply reduce_const; auto. unfold Rmin. destruct (Rle_dec c c); reflexivity. }
  assert (amax depth = Ok c) as Hmax.
  { apply reduce_const; auto. unfold Rmax. destruct (Rle_dec c c); reflexivity. }
  assert (forall v u, (v < H)%nat -> (u < W)%nat ->
            depth_z depth c c v u = 100) as Hz.
  { intros v u Hv Hu. unfold depth_z. rewrite (Hc v u Hv Hu).
    replace ((c - c) / (c - c + 1e-8)) with 0 by (field; lra). lra. }
  split; [exact Hmin|]. split; [exact Hmax|].
  split.
  { intros v u Hv Hu. unfold disparity_of. cbn [fmap2 of_reals amap fat2 at2].
    rewrite (Hc v u Hv Hu), np_div_fin by lra. f_equal. field. lra. }
  exists (grid (np_pixel_point W H fov depth c c) H W), (image_rgb image).
  split; [now apply project_to_3d_eval|]. split; [rewrite grid_length; lia|].
  split.
  - apply grid_Forall. intros v u Hv Hu.
    rewrite np_pixel_point_z by (rewrite (Hc v u Hv Hu); lra).
    now rewrite Hz.
  - intros Hfov. apply grid_Forall. intros v u Hv Hu.
    rewrite np_pixel_point_fin;
      [| rewrite (Hc v u Hv Hu); lra
       | pose proof (focal_pos W fov HW Hfov); simpl; lra].
    unfold pixel_point. cbv zeta. rewrite (Hz v u Hv Hu). cbn [fin3]. eauto.
Qed.

Lemma project_to_3d_flat_depth_witness :
  (forall v u, (v < 4)%nat -> (u < 4)%nat -> at2 (constant_depth 4 4 5.0) v u = 5.0) /\
  exists xyz rgb,
    project_to_3d (blue_image 4 4) (constant_depth 4 4 5.0) default_fov
      = Ok (xyz, rgb) /\
    length xyz = 16%nat /\
    Forall (fun p => fz p = Fin ((1 / (0 + 0.05)) * 5)) xyz.
Proof.
  assert (forall v u, (v < 4)%nat -> (u < 4)%nat -> at2 (constant_depth 4 4 5.0) v u = 5.0)
    as Hc by (intros; reflexivity).
  split; [exact Hc|].
  destruct (project_to_3d_flat_depth (blue_image 4 4) (constant_depth 4 4 5.0)
              default_fov 4 4 5.0
              eq_refl eq_refl ltac:(lia) ltac:(lia) Hc)
    as (_ & _ & _ & xyz & rgb & Hp & Hl & Hz & _).
  exists xyz, rgb. split; [exact Hp|]. split; [exact Hl|].
  replace (1 / (0 + 0.05) * 5) with 100 by lra. exact Hz.
Defined.

(** The same scenario in binary64: the 16 values of Z are the float 100.0
    exactly. *)
Remark z_3d_flat_binary64 :
  Binary64.z_3d Binary64.flat_depth
  = Ok (replicate 4 (replicate 4 Binary64.hundred)).
Proof. vm_compute. reflexivity. Qed.

Close Scope R_scope.

(** ** Running code in a world *)

Section Runs.
Context {A B : Type}.

Lemma runs_ret (a : A) w (Q : A -> world -> Prop) : Q a w -> runs (ret a) w Q.
Proof. intros HQ. exists a, w. split; [reflexivity | exact HQ]. Qed.

Lemma runs_bind (m : M A) (k : A -> M B) w (Q : B -> world -> Prop) :
  runs m w (fun a w' => runs (k a) w' Q) -> runs (bind m k) w Q.
Proof.
  intros (a & w' & Hm & b & w'' & Hk & HQ). exists b, w''.
  unfold bind. rewrite Hm. split; [exact Hk | exact HQ].
Qed.

Lemma runs_mono (m : M A) w (Q Q' : A -> world -> Prop) :
  runs m w Q -> (forall a w', Q a w' -> Q' a w') -> runs m w Q'.
Proof. intros (a & w' & Hm & HQ) HQQ. exists a, w'. auto. Qed.

Lemma runs_lift (r : result A) a w (Q : A -> world -> Prop) :
  r = Ok a -> Q a w -> runs (lift r) w Q.
Proof. intros -> HQ. exists a, w. split; [reflexivity | exact HQ]. Qed.
End Runs.

Lemma runs_conj {A} (m : M A) w (Q1 Q2 : A -> world -> Prop) :
  runs m w Q1 -> runs m w Q2 -> runs m w (fun a w' => Q1 a w' /\ Q2 a w').
Proof.
  intros (a & w' & E & H1) (a2 & w2 & E2 & H2). rewrite E in E2.
  injection E2 as <- <-. exists a, w'. auto.
Qed.

Lemma runs_load l w o (Q : obj -> world -> Prop) :
  heap w !! l = Some o -> Q o w -> runs (load l) w Q.
Proof. intros Hl HQ. exists o, w. unfold load. rewrite Hl. auto. Qed.

Lemma runs_store l o w (Q : unit -> world -> Prop) :
  Q tt (set_heap w (<[l := o]> (heap w))) -> runs (store l o) w Q.
Proof. intros HQ. eexists _, _. split; [reflexivity | exact HQ]. Qed.

Lemma runs_print s w (Q : unit -> world -> Prop) :
  Q tt {| heap := heap w; files := files w; stdout := stdout w ++ [s] |} ->
  runs (print s) w Q.
Proof. intros HQ. eexists _, _. split; [reflexivity | exact HQ]. Qed.

Lemma runs_alloc o w (Q : loc -> world -> Prop) :
  (forall l, heap w !! l = None -> Q l (set_heap w (<[l := o]> (heap w)))) ->
  runs (alloc o) w Q.
Proof.
  intros HQ. eexists _, _. split; [reflexivity|]. apply HQ.
  apply not_elem_of_dom, is_fresh.
Qed.

Ltac fresh_facts H :=
  repeat match type of H with
         | <[_ := _]> _ !! _ = None =>
             let Hne := fresh "Hne" in
             apply lookup_insert_None in H as [H Hne]
         end.

Ltac old_locs l Hl :=
  repeat match goal with
         | H : ?h !! ?x = Some _, Hl' : ?h !! l = None |- _ =>
             lazymatch goal with
             | _ : x <> l |- _ => fail
             | _ => assert (x <> l) by congruence
             end
         end.

Ltac run_step :=
  lazymatch goal with
  | |- runs (bind _ _) _ _ => apply runs_bind
  | |- runs (ret _) _ _ => apply runs_ret
  | |- runs (store _ _) _ _ => apply runs_store
  | |- runs (print _) _ _ => apply runs_print
  | |- runs (alloc _) _ _ =>
      let l := fresh "l" in let Hl := fresh "Hl" in
      apply runs_alloc; intros l Hl; cbn [heap set_heap files stdout] in Hl;
      fresh_facts Hl; old_locs l Hl
  | |- runs (load _) _ _ =>
      eapply runs_load;
      [ cbn [heap set_heap files stdout]; simplify_map_eq; reflexivity | ]
  end;
  unfold set_heap;
  cbn [heap files stdout obj_data obj_requires_grad obj_grad];
  rewrite ?insert_insert_eq.

Lemma init_spec points colors dev w P C :
  heap w !! points = Some (NdArray P) ->
  heap w !! colors = Some (NdArray C) ->
  runs (__init__ points colors dev) w (fun self w' =>
    N self = length P /\
    heap w' !! points_initial self = Some (Tensor P false None) /\
    heap w' !! colors_initial self = Some (Tensor C false None) /\
    heap w' !! means self = Some (Tensor P true None) /\
    heap w' !! scales self = Some (Tensor (full (length P) 3 (-5.0)%R) true None) /\
    heap w' !! quats self
      = Some (Tensor (set_column 0 1.0%R (zeros (length P) 4)) true None) /\
    heap w' !! opacities self = Some (Tensor (zeros (length P) 1) true None) /\
    heap w' !! sh0 self
      = Some (Tensor (emap (fun c => (c / SH_C0_SCALE)%R)
                           (emap (fun c => (c - 0.5)%R) C)) true None) /\
    NoDup [points_initial self; colors_initial self; means self; scales self;
           quats self; opacities self; sh0 self] /\
    (forall l, l ∈ [points_initial self; colors_initial self; means self;
                    scales self; quats self; opacities self; sh0 self] ->
               heap w !! l = None) /\
    (forall l, is_Some (heap w !! l) -> heap w' !! l = heap w !! l) /\
    params self = [means self; scales self; quats self; opacities self; sh0 self] /\
    optimizer self
      = _setup_optimizer (means self) (colors_initial self) (scales self)
          (quats self) (sh0 self) (opacities self) 0.001%R /\
    files w' = files w /\
    stdout w' = stdout w ++ [InitLine (length P) dev]).
Proof.
  intros HP HC. unfold __init__, _initialize_parameters, torch_tensor, clone,
    nn_Parameter, update_data.
  repeat run_step.
  cbn [N points_initial colors_initial means scales quats opacities sh0 params
       optimizer device].
  repeat match goal with |- _ /\ _ => split end;
    try reflexivity; try (simplify_map_eq; reflexivity).
  - repeat (apply NoDup_cons; split;
            [ let Hin := fresh in
              intros Hin;
              repeat (apply elem_of_cons in Hin as [? | Hin]; [congruence|]);
              inversion Hin |]).
    apply NoDup_nil_2.
  - intros x Hx. repeat (apply elem_of_cons in Hx as [-> | Hx]; [assumption|]).
    inversion Hx.
  - intros x [o Hx].
    assert (x <> l /\ x <> l0 /\ x <> l1 /\ x <> l2 /\ x <> l3 /\ x <> l4 /\ x <> l5)
      as (? & ? & ? & ? & ? & ? & ?) by (repeat split; congruence).
    now rewrite !lookup_insert_ne by congruence.
Qed.

(** ** Construction of the store *)

Lemma data_at_lookup w l o : heap w !! l = Some o -> data_at w l = Some (obj_data o).
Proof. intros Hl. unfold data_at. now rewrite Hl. Qed.

Lemma set_column_zeros n :
  set_column 0 1.0%R (zeros n 4) = replicate n [1; 0; 0; 0]%R.
Proof.
  unfold set_column, zeros, full.
  induction n as [|n IH]; [reflexivity|].
  change (replicate (S n) (replicate 4 0%R))
    with (replicate 4 0%R :: replicate n (replicate 4 0%R)).
  rewrite map_cons, IH. simpl. f_equal. f_equal. lra.
Qed.

(** C3: [GaussianOptimizer(points, colors)] stores a copy of [points] as
    position (writing to the caller's array afterwards leaves the position
    as it was), -5.0 in every entry of the log-scale, [1, 0, 0, 0] as the
    raw rotation and 0.0 as the opacity logit of every splat, and
    (colors - 0.5) / 0.28209479177387814 as the SH0 colour. *)
Theorem init_store points colors dev w (P C : array) :
  heap w !! points = Some (NdArray P) ->
  heap w !! colors = Some (NdArray C) ->
  exists self w',
    __init__ points colors dev w = Ok (self, w') /\
    N self = length P /\
    data_at w' (means self) = Some P /\
    means self <> points /\
    (forall a w'', store points (NdArray a) w' = Ok (tt, w'') ->
                   data_at w'' (means self) = Some P) /\
    data_at w' (scales self) = Some (replicate (length P) [-5; -5; -5]%R) /\
    data_at w' (quats self) = Some (replicate (length P) [1; 0; 0; 0]%R) /\
    data_at w' (opacities self) = Some (replicate (length P) [0%R]) /\
    data_at w' (sh0 self)
      = Some (map (map (fun c => ((c - 0.5) / 0.28209479177387814)%R)) C).
Proof.
  intros HP HC.
  destruct (init_spec points colors dev w P C HP HC)
    as (self & w' & Hrun & HN & _ & _ & Hm & Hs & Hq & Ho & Hc & _ & Hfresh & _).
  assert (means self <> points) as Hne.
  { intros E. assert (heap w !! means self = None) as Hnone
      by (apply Hfresh; repeat first [apply list_elem_of_here | apply list_elem_of_further]).
    rewrite E, HP in Hnone. discriminate. }
  exists self, w'. split; [exact Hrun|]. split; [exact HN|].
  split; [now rewrite (data_at_lookup _ _ _ Hm)|]. split; [exact Hne|].
  split.
  { intros a w'' [= <-]. unfold data_at. simpl.
    rewrite lookup_insert_ne by congruence. now rewrite Hm. }
  split.
  { rewrite (data_at_lookup _ _ _ Hs). simpl. unfold full. simpl.
    repeat f_equal; lra. }
  split; [rewrite (data_at_lookup _ _ _ Hq); simpl; now rewrite set_column_zeros|].
  split; [now rewrite (data_at_lookup _ _ _ Ho)|].
  rewrite (data_at_lookup _ _ _ Hc). simpl. f_equal. unfold emap.
  rewrite map_map. apply map_ext. intros row. rewrite map_map. reflexivity.
Qed.

Lemma init_store_witness :
  exists self w',
    __init__ 1%positive 2%positive "cuda" caller_world = Ok (self, w') /\
    N self = 1%nat /\
    data_at w' (means self) = Some [[0; 0; 0]%R] /\
    data_at w' (scales self) = Some [[-5; -5; -5]%R].
Proof.
  destruct (init_store 1%positive 2%positive "cuda" caller_world
              [[0; 0; 0]%R] [[0.5; 0.5; 0.5]%R] eq_refl eq_refl)
    as (self & w' & Hrun & HN & Hm & _ & _ & Hs & _).
  exists self, w'. split; [exact Hrun|]. split; [exact HN|].
  split; [exact Hm | exact Hs].
Defined.

(** C4: the optimizer that the constructor sets up has six parameter
    groups, not five.  Besides the groups of position, scale, rotation,
    SH0 colour and opacity with the rates 0.0016, 0.005, 0.001, 0.0025 and
    0.05, the second group holds [colors_initial] at rate 0.0025: a tensor
    that is not among [self.params] and does not require gradients. *)
Theorem optimizer_has_six_groups :
  exists self w',
    __init__ 1%positive 2%positive "cuda" caller_world = Ok (self, w') /\
    length (param_groups (optimizer self)) = 6%nat /\
    map pg_params (param_groups (optimizer self))
      = [[means self]; [colors_initial self]; [scales self]; [quats self];
         [sh0 self]; [opacities self]] /\
    map pg_lr (param_groups (optimizer self))
      = [0.0016; 0.0025; 0.005; 0.001; 0.0025; 0.05]%R /\
    params self = [means self; scales self; quats self; opacities self; sh0 self] /\
    (colors_initial self ∉ params self) /\
    trainable w' (colors_initial self) = false /\
    Forall (fun p => trainable w' p = true) (params self).
Proof.
  destruct (init_spec 1%positive 2%positive "cuda" caller_world
              [[0; 0; 0]%R] [[0.5; 0.5; 0.5]%R] eq_refl eq_refl)
    as (self & w' & Hrun & _ & _ & Hci & Hm & Hs & Hq & Ho & Hc & Hnd & _ & _
        & Hparams & Hopt & _).
  exists self, w'. split; [exact Hrun|]. rewrite Hopt, Hparams. simpl.
  split; [reflexivity|]. split; [reflexivity|].
  split; [repeat f_equal; lra|]. split; [reflexivity|].
  split.
  { apply NoDup_cons in Hnd as [_ Hnd]. apply NoDup_cons in Hnd as [Hnotin _].
    intros Hin. apply Hnotin.
    repeat (apply elem_of_cons in Hin as [-> | Hin];
            [repeat first [apply list_elem_of_here | apply list_elem_of_further]|]).
    inversion Hin. }
  split; [unfold trainable; now rewrite Hci|].
  repeat (constructor;
          [unfold trainable;
           first [rewrite Hm | rewrite Hs | rewrite Hq | rewrite Ho | rewrite Hc];
           reflexivity|]).
  constructor.
Qed.

(** ** One optimization step *)

Lemma extends_refl L w : extends L w w.
Proof. repeat split; auto. Qed.

Lemma extends_trans L w1 w2 w3 :
  extends L w1 w2 -> extends L w2 w3 -> extends L w1 w3.
Proof.
  intros (A1 & B1 & C1 & D1 & E1) (A2 & B2 & C2 & D2 & E2).
  split; [auto|]. split; [|split; [|split; congruence]].
  - intros l Hl. rewrite B2, B1; auto.
  - intros l. rewrite C2, C1; auto.
Qed.

Lemma extends_mono L L' w w' : L ⊆ L' -> extends L w w' -> extends L' w w'.
Proof.
  intros HL (A1 & B1 & C1 & D1 & E1).
  split; [exact A1|]. split; [|split; [exact C1 | split; [exact D1 | exact E1]]].
  intros l Hl. apply B1. intros Hin. apply Hl, HL, Hin.
Qed.

Lemma extends_live L ls w w' : extends L w w' -> live_in ls w -> live_in ls w'.
Proof. intros (A1 & _) Hlive l Hl. apply A1, Hlive, Hl. Qed.

Lemma extends_store L w p o o' :
  heap w !! p = Some o ->
  (obj_data o' = obj_data o \/ p ∈ L) ->
  obj_requires_grad o' = obj_requires_grad o ->
  extends L w (set_heap w (<[p := o']> (heap w))).
Proof.
  intros Hp Hd Hrg. unfold extends, data_at, trainable, set_heap. simpl.
  split; [|split; [|split; [|split; reflexivity]]].
  - intros l Hl. destruct (decide (p = l)) as [->|Hne].
    + rewrite lookup_insert_eq. eauto.
    + now rewrite lookup_insert_ne.
  - intros l Hl. destruct (decide (p = l)) as [->|Hne].
    + rewrite lookup_insert_eq, Hp. simpl. destruct Hd as [->|Hin]; [reflexivity|].
      contradiction.
    + now rewrite lookup_insert_ne.
  - intros l. destruct (decide (p = l)) as [->|Hne].
    + now rewrite lookup_insert_eq, Hp.
    + now rewrite lookup_insert_ne.
Qed.

Lemma for_each_extends {A} (f : A -> M unit) (l : list A) L w :
  (forall a w1, a ∈ l -> extends L w w1 ->
                runs (f a) w1 (fun _ w2 => extends L w w2)) ->
  runs (for_each f l) w (fun _ w' => extends L w w').
Proof.
  intros Hf.
  assert (forall w1, extends L w w1 ->
                     runs (for_each f l) w1 (fun _ w' => extends L w w')) as Hgen.
  { induction l as [|a l IH]; intros w1 Hw1; simpl.
    - apply runs_ret. exact Hw1.
    - apply runs_bind. eapply runs_mono.
      + apply Hf; [apply list_elem_of_here | exact Hw1].
      + intros ? w2 Hw2. apply IH; [|exact Hw2].
        intros a' w3 Ha' Hw3. apply Hf; [now apply list_elem_of_further | exact Hw3]. }
  apply Hgen, extends_refl.
Qed.

Lemma clear_grad_extends L p w :
  is_Some (heap w !! p) -> runs (clear_grad p) w (fun _ w' => extends L w w').
Proof.
  intros [o Ho]. unfold clear_grad. apply runs_bind.
  eapply runs_load; [exact Ho|]. destruct o as [a | d rg g].
  - apply runs_ret, extends_refl.
  - apply runs_store. eapply extends_store; [exact Ho | left |]; reflexivity.
Qed.

Lemma zero_grad_extends L opt w :
  live_in (group_params opt) w ->
  runs (zero_grad opt) w (fun _ w' => extends L w w').
Proof.
  intros Hlive. unfold zero_grad. apply for_each_extends.
  intros g w1 Hg Hw1. eapply runs_mono.
  - apply (for_each_extends clear_grad (pg_params g) L w1).
    intros p w2 Hp Hw2. eapply runs_mono.
    + apply (clear_grad_extends L).
      assert (live_in (group_params opt) w2) as Hl2.
      { apply (extends_live L _ w1); [exact Hw2|].
        apply (extends_live L _ w); [exact Hw1 | exact Hlive]. }
      apply Hl2. unfold group_params. apply list_elem_of_In, in_concat.
      exists (pg_params g). split; [apply in_map, list_elem_of_In, Hg|].
      apply list_elem_of_In, Hp.
    + intros ? w3 Hw3. eapply extends_trans; eassumption.
  - intros ? w2 Hw2. eapply extends_trans; eassumption.
Qed.

Lemma accumulate_grad_extends L p g w :
  is_Some (heap w !! p) -> runs (accumulate_grad p g) w (fun _ w' => extends L w w').
Proof.
  intros [o Ho]. unfold accumulate_grad. apply runs_bind.
  eapply runs_load; [exact Ho|]. destruct o as [a | d [|] [g0|]];
    try (apply runs_ret, extends_refl);
    apply runs_store; (eapply extends_store; [exact Ho | left |]; reflexivity).
Qed.

Lemma extends_trainable L self w w' :
  extends L w w' -> any_trainable self w -> any_trainable self w'.
Proof.
  intros (_ & _ & Ht & _) (l & Hl & Hrg). exists l. split; [exact Hl|].
  now rewrite Ht.
Qed.

Lemma trainable_lookup w l o :
  heap w !! l = Some o -> trainable w l = obj_requires_grad o.
Proof. intros Hl. unfold trainable. now rewrite Hl. Qed.

Lemma live_attribute self w l :
  live_in (attributes self) w -> l ∈ attributes self -> exists o, heap w !! l = Some o.
Proof. intros Hlive Hl. exact (Hlive l Hl). Qed.

Ltac attribute_in :=
  unfold attributes; repeat first [apply list_elem_of_here | apply list_elem_of_further].

Section Step.
Context `{Backend}.

Lemma render_runs self view_matrix K width height w :
  live_in (attributes self) w ->
  runs (render self view_matrix K width height) w
       (fun im w' => w' = w /\ im_shape im = (height, width)).
Proof.
  intros Hlive.
  destruct (live_attribute self w (scales self) Hlive) as [s Hs]; [attribute_in|].
  destruct (live_attribute self w (quats self) Hlive) as [q Hq]; [attribute_in|].
  destruct (live_attribute self w (opacities self) Hlive) as [o Ho]; [attribute_in|].
  destruct (live_attribute self w (sh0 self) Hlive) as [c Hc]; [attribute_in|].
  destruct (live_attribute self w (means self) Hlive) as [m Hm]; [attribute_in|].
  unfold render.
  apply runs_bind. eapply runs_load; [exact Hs|].
  apply runs_bind. eapply runs_load; [exact Hq|].
  apply runs_bind. eapply runs_load; [exact Ho|].
  apply runs_bind. eapply runs_load; [exact Hc|].
  apply runs_bind. eapply runs_load; [exact Hm|].
  apply runs_ret. split; reflexivity.
Qed.

Lemma backward_extends L self gt_image view_mat K w :
  live_in (attributes self) w ->
  any_trainable self w ->
  runs (backward self gt_image view_mat K) w (fun _ w' => extends L w w').
Proof.
  intros Hlive Htrain.
  destruct (live_attribute self w (scales self) Hlive) as [s Hs]; [attribute_in|].
  destruct (live_attribute self w (quats self) Hlive) as [q Hq]; [attribute_in|].
  destruct (live_attribute self w (opacities self) Hlive) as [o Ho]; [attribute_in|].
  destruct (live_attribute self w (sh0 self) Hlive) as [c Hc]; [attribute_in|].
  destruct (live_attribute self w (means self) Hlive) as [m Hm]; [attribute_in|].
  unfold backward.
  apply runs_bind. eapply runs_load; [exact Hm|].
  apply runs_bind. eapply runs_load; [exact Hs|].
  apply runs_bind. eapply runs_load; [exact Hq|].
  apply runs_bind. eapply runs_load; [exact Ho|].
  apply runs_bind. eapply runs_load; [exact Hc|].
  assert (obj_requires_grad m || obj_requires_grad s || obj_requires_grad q
          || obj_requires_grad o || obj_requires_grad c = true) as ->.
  { destruct Htrain as (l & Hl & Hrg). unfold attributes in Hl.
    repeat (apply elem_of_cons in Hl as [-> | Hl];
            [first [rewrite (trainable_lookup _ _ _ Hm) in Hrg
                   | rewrite (trainable_lookup _ _ _ Hs) in Hrg
                   | rewrite (trainable_lookup _ _ _ Hq) in Hrg
                   | rewrite (trainable_lookup _ _ _ Ho) in Hrg
                   | rewrite (trainable_lookup _ _ _ Hc) in Hrg];
             rewrite Hrg; rewrite ?orb_true_r; reflexivity|]).
    inversion Hl. }
  destruct (autograd _ _ _ _ _ _ _ _) as [[[[g1 g2] g3] g4] g5].
  assert (forall p g w1, p ∈ attributes self -> extends L w w1 ->
            runs (accumulate_grad p g) w1 (fun _ w2 => extends L w w2)) as Hacc.
  { intros p g w1 Hp Hw1. eapply runs_mono.
    - apply (accumulate_grad_extends L).
      apply (extends_live L _ w w1 Hw1 Hlive), Hp.
    - intros ? w2 Hw2. simpl in *. eapply extends_trans; eassumption. }
  apply runs_bind. eapply runs_mono;
    [apply Hacc; [attribute_in | apply extends_refl]|]. intros ? w1 Hw1.
  apply runs_bind. eapply runs_mono; [apply Hacc; [attribute_in | exact Hw1]|].
  intros ? w2 Hw2.
  apply runs_bind. eapply runs_mono; [apply Hacc; [attribute_in | exact Hw2]|].
  intros ? w3 Hw3.
  apply runs_bind. eapply runs_mono; [apply Hacc; [attribute_in | exact Hw3]|].
  intros ? w4 Hw4.
  apply Hacc; [attribute_in | exact Hw4].
Qed.

Lemma step_params_extends L lr ps : forall st w,
  ps ⊆ L -> live_in ps w ->
  runs (step_params lr ps st) w (fun _ w' => extends L w w').
Proof.
  induction ps as [|p ps IH]; intros st w HL Hlive; simpl.
  - apply runs_ret, extends_refl.
  - destruct (Hlive p) as [o Ho]; [apply list_elem_of_here|].
    assert (ps ⊆ L) as HL' by (intros x Hx; apply HL, list_elem_of_further, Hx).
    assert (forall w1, extends L w w1 -> live_in ps w1) as Hlive'.
    { intros w1 Hw1. apply (extends_live L _ w w1 Hw1).
      intros x Hx. apply Hlive, list_elem_of_further, Hx. }
    apply runs_bind. eapply runs_load; [exact Ho|].
    destruct (obj_grad o) as [g|].
    + destruct (adam_update lr (obj_data o) g (st !! p)) as [d' m'].
      apply runs_bind. apply runs_store.
      assert (extends L w (set_heap w (<[p := Tensor d' (obj_requires_grad o) (Some g)]>
                                         (heap w)))) as Hw1.
      { eapply extends_store; [exact Ho | right; apply HL, list_elem_of_here
                              | reflexivity]. }
      eapply runs_mono; [apply IH; [exact HL' | apply Hlive', Hw1]|].
      intros ? w2 Hw2. simpl in *. eapply extends_trans; eassumption.
    + apply IH; [exact HL' | apply Hlive', extends_refl].
Qed.

Lemma step_groups_extends L gs : forall st w,
  concat (map pg_params gs) ⊆ L -> live_in (concat (map pg_params gs)) w ->
  runs (step_groups gs st) w (fun _ w' => extends L w w').
Proof.
  induction gs as [|g gs IH]; intros st w HL Hlive; simpl.
  - apply runs_ret, extends_refl.
  - simpl in HL, Hlive.
    apply runs_bind. eapply runs_mono.
    + apply (step_params_extends L).
      * intros x Hx. apply HL, elem_of_app. now left.
      * intros x Hx. apply Hlive, elem_of_app. now left.
    + intros st' w1 Hw1. eapply runs_mono.
      * apply IH.
        -- intros x Hx. apply HL, elem_of_app. now right.
        -- apply (extends_live L _ w w1 Hw1).
           intros x Hx. apply Hlive, elem_of_app. now right.
      * intros ? w2 Hw2. simpl in *. eapply extends_trans; eassumption.
Qed.

Lemma Adam_step_extends opt w :
  live_in (group_params opt) w ->
  runs (Adam_step opt) w (fun opt' w' =>
    param_groups opt' = param_groups opt /\ extends (group_params opt) w w').
Proof.
  intros Hlive. unfold Adam_step. apply runs_bind. eapply runs_mono.
  - apply (step_groups_extends (group_params opt)); [|exact Hlive].
    intros x Hx. exact Hx.
  - intros st w1 Hw1. apply runs_ret. split; [reflexivity | exact Hw1].
Qed.

Lemma optimize_step_runs self gt_image view_mat K w :
  live_in (attributes self) w ->
  live_in (group_params (optimizer self)) w ->
  any_trainable self w ->
  runs (optimize_step self gt_image view_mat K) w (fun r w' =>
    let '(loss, rendered, self') := r in
    im_shape rendered = im_shape gt_image /\
    loss = step_loss rendered gt_image /\
    (exists opt, self' = set_optimizer self opt /\
                 param_groups opt = param_groups (optimizer self)) /\
    extends (group_params (optimizer self)) w w').
Proof.
  intros Hattr Hgrp Htrain. unfold optimize_step.
  destruct (im_shape gt_image) as [Hh Ww] eqn:Hshape.
  set (L := group_params (optimizer self)).
  apply runs_bind. eapply runs_mono; [apply (zero_grad_extends L), Hgrp|].
  intros ? w1 Hw1.
  apply runs_bind. eapply runs_mono.
  { apply render_runs. apply (extends_live L _ w w1 Hw1 Hattr). }
  intros rendered w1' [-> Hrs].
  apply runs_bind. eapply runs_mono.
  { apply (backward_extends L).
    - apply (extends_live L _ w w1 Hw1 Hattr).
    - apply (extends_trainable L self w w1 Hw1 Htrain). }
  intros ? w2 Hw2.
  pose proof (extends_trans L w w1 w2 Hw1 Hw2) as Hw2'.
  apply runs_bind. eapply runs_mono.
  { apply Adam_step_extends. apply (extends_live L _ w w2 Hw2' Hgrp). }
  intros opt w3 [Hopt Hw3]. apply runs_ret.
  split; [exact Hrs|]. split; [reflexivity|].
  split; [exists opt; split; [reflexivity | exact Hopt]|].
  simpl in *. eapply extends_trans; eassumption.
Qed.

(** [render] reads the data of the five attributes and nothing else. *)
Lemma render_data self view_matrix K width height w w1 im :
  (forall l, l ∈ attributes self -> data_at w1 l = data_at w l) ->
  render self view_matrix K width height w1 = Ok (im, w1) ->
  render self view_matrix K width height w = Ok (im, w).
Proof.
  intros Hdata. unfold render, bind, load, ret.
  pose proof (Hdata (scales self) ltac:(attribute_in)) as Ds.
  pose proof (Hdata (quats self) ltac:(attribute_in)) as Dq.
  pose proof (Hdata (opacities self) ltac:(attribute_in)) as Do.
  pose proof (Hdata (sh0 self) ltac:(attribute_in)) as Dc.
  pose proof (Hdata (means self) ltac:(attribute_in)) as Dm.
  unfold data_at in *.
  destruct (heap w1 !! scales self) as [s1|]; [|discriminate].
  destruct (heap w !! scales self) as [s|]; [|discriminate].
  destruct (heap w1 !! quats self) as [q1|]; [|discriminate].
  destruct (heap w !! quats self) as [q|]; [|discriminate].
  destruct (heap w1 !! opacities self) as [o1|]; [|discriminate].
  destruct (heap w !! opacities self) as [o|]; [|discriminate].
  destruct (heap w1 !! sh0 self) as [c1|]; [|discriminate].
  destruct (heap w !! sh0 self) as [c|]; [|discriminate].
  destruct (heap w1 !! means self) as [m1|]; [|discriminate].
  destruct (heap w !! means self) as [m|]; [|discriminate].
  simpl in Ds, Dq, Do, Dc, Dm.
  injection Ds as Ds. injection Dq as Dq. injection Do as Do.
  injection Dc as Dc. injection Dm as Dm.
  rewrite Ds, Dq, Do, Dc, Dm. intros [= <-]. reflexivity.
Qed.

(** The image that [optimize_step] returns is the one that [render] gives
    on the store as it is when the step starts: [zero_grad] clears
    gradients and leaves the data. *)
Lemma optimize_step_renders self gt_image view_mat K w :
  live_in (attributes self) w ->
  live_in (group_params (optimizer self)) w ->
  any_trainable self w ->
  runs (optimize_step self gt_image view_mat K) w (fun r _ =>
    let '(_, rendered, _) := r in
    render self view_mat K (snd (im_shape gt_image)) (fst (im_shape gt_image)) w
    = Ok (rendered, w)).
Proof.
  intros Hattr Hgrp Htrain. unfold optimize_step.
  destruct (im_shape gt_image) as [Hh Ww] eqn:Hshape. cbn [fst snd].
  set (L := group_params (optimizer self)).
  apply runs_bind. eapply runs_mono.
  { apply runs_conj; [apply (zero_grad_extends []), Hgrp
                     | apply (zero_grad_extends L), Hgrp]. }
  intros ? w1 [Hdata Hw1].
  destruct (render_runs self view_mat K Ww Hh w1 (extends_live L _ w w1 Hw1 Hattr))
    as (rendered & w1' & Hrender & -> & _).
  apply runs_bind. exists rendered, w1. split; [exact Hrender|].
  apply runs_bind. eapply runs_mono.
  { apply (backward_extends L).
    - apply (extends_live L _ w w1 Hw1 Hattr).
    - apply (extends_trainable L self w w1 Hw1 Htrain). }
  intros ? w2 Hw2.
  pose proof (extends_trans L w w1 w2 Hw1 Hw2) as Hw2'.
  apply runs_bind. eapply runs_mono.
  { apply Adam_step_extends. apply (extends_live L _ w w2 Hw2' Hgrp). }
  intros opt w3 _. apply runs_ret.
  apply (render_data self view_mat K Ww Hh w w1 rendered); [|exact Hrender].
  intros l _. destruct Hdata as (_ & Hd & _). apply Hd. apply not_elem_of_nil.
Qed.
End Step.

(** ** The L1 loss *)

Lemma grid_map {A B} (g : A -> B) (f : nat -> nat -> A) H W :
  map g (grid f H W) = grid (fun v u => g (f v u)) H W.
Proof.
  unfold grid. rewrite !flat_map_concat_map, concat_map, map_map.
  f_equal. apply map_ext. intros v. now rewrite map_map.
Qed.

Lemma grid_ext {A} (f g : nat -> nat -> A) H W :
  (forall v u, f v u = g v u) -> grid f H W = grid g H W.
Proof.
  intros Hfg. unfold grid. apply flat_map_ext. intros v. apply map_ext. auto.
Qed.

Open Scope R_scope.

Lemma total_channels (l : list vec3) :
  total (flat_map (fun p : vec3 => let '(c0, c1, c2) := p in [c0; c1; c2]) l)
  = total (map (fun p : vec3 => let '(c0, c1, c2) := p in c0 + c1 + c2) l).
Proof.
  induction l as [|[[a b] c] l IH]; simpl; [reflexivity|].
  unfold total in *. simpl. rewrite IH. lra.
Qed.

Lemma length_channels (l : list vec3) :
  length (flat_map (fun p : vec3 => let '(c0, c1, c2) := p in [c0; c1; c2]) l)
  = (length l * 3)%nat.
Proof.
  apply flat_map_constant_length. intros [[a b] c] _. reflexivity.
Qed.

Lemma total_const (l : list R) c :
  Forall (fun x => x = c) l -> total l = INR (length l) * c.
Proof.
  induction 1 as [|x l -> _ IH]; [simpl; unfold total; simpl; lra|].
  change (total (c :: l)) with (c + total l). rewrite IH.
  rewrite length_cons, S_INR. lra.
Qed.

Lemma mean_nonempty (l : list R) :
  l <> [] -> mean l = Some (total l / INR (length l)).
Proof. destruct l; [congruence | reflexivity]. Qed.

Lemma step_loss_l1 rendered gt_image H W :
  im_shape rendered = (H, W) -> im_shape gt_image = (H, W) ->
  (0 < H)%nat -> (0 < W)%nat ->
  step_loss rendered gt_image = Some (l1_loss rendered gt_image).
Proof.
  intros Hr Hg HH HW. unfold step_loss, l1_loss, image_values. rewrite Hg.
  cbn [image_map image_zip im_shape im_at]. rewrite Hr. cbn [fst snd].
  rewrite mean_nonempty.
  - rewrite total_channels, length_channels, grid_length, grid_map.
    f_equal. f_equal. apply f_equal. apply grid_ext. intros v u.
    destruct (im_at rendered v u) as [[r0 r1] r2].
    destruct (im_at gt_image v u) as [[g0 g1] g2]. reflexivity.
  - intros E. apply (f_equal (@length R)) in E.
    rewrite length_channels, grid_length in E. simpl in E. nia.
Qed.

Lemma l1_loss_const rendered gt_image H W c :
  im_shape gt_image = (H, W) -> (0 < H)%nat -> (0 < W)%nat ->
  (forall v u, (v < H)%nat -> (u < W)%nat ->
     pixel_l1 (im_at rendered v u) (im_at gt_image v u) = c) ->
  l1_loss rendered gt_image = c / 3.
Proof.
  intros Hg HH HW Hc. unfold l1_loss. rewrite Hg.
  rewrite (total_const _ c) by (apply grid_Forall; auto).
  rewrite grid_length, !mult_INR.
  apply lt_0_INR in HH, HW. simpl (INR 3). field. lra.
Qed.

Lemma accumulate_grad_frame p g w :
  is_Some (heap w !! p) ->
  runs (accumulate_grad p g) w (fun _ w' =>
    extends [] w w' /\ forall l, l <> p -> heap w' !! l = heap w !! l).
Proof.
  intros [o Ho]. unfold accumulate_grad. apply runs_bind.
  eapply runs_load; [exact Ho|].
  destruct o as [a | d [|] [g0|]];
    try (apply runs_ret; split; [apply extends_refl | reflexivity]);
    apply runs_store;
    (split; [eapply extends_store; [exact Ho | left |]; reflexivity
            | intros l Hl; simpl; now rewrite lookup_insert_ne]).
Qed.

Section ColorStep.
Context `{Backend}.

Lemma color_step_sh0 self w learning_rate gt_image view_mat K m s q o c g0 :
  sh0 self ∉ [means self; scales self; quats self; opacities self] ->
  data_at w (means self) = Some m ->
  data_at w (scales self) = Some s ->
  data_at w (quats self) = Some q ->
  data_at w (opacities self) = Some o ->
  heap w !! sh0 self = Some (Tensor c true g0) ->
  runs (optimize_step (switch_to_color_only_mode learning_rate self)
          gt_image view_mat K) w
    (fun _ w' =>
       data_at w' (sh0 self)
       = Some (fst (adam_update learning_rate c
                      (snd (autograd m s q o c gt_image view_mat K)) None))).
Proof.
  intros Hsh0 Hm Hs Hq Ho Hc.
  assert (means self <> sh0 self /\ scales self <> sh0 self /\
          quats self <> sh0 self /\ opacities self <> sh0 self)
    as (Nm & Ns & Nq & No).
  { repeat split; intros E; apply Hsh0; rewrite <- E;
      repeat first [apply list_elem_of_here | apply list_elem_of_further]. }
  unfold data_at in Hm, Hs, Hq, Ho.
  destruct (heap w !! means self) as [om|] eqn:Em; [|discriminate].
  destruct (heap w !! scales self) as [os|] eqn:Es; [|discriminate].
  destruct (heap w !! quats self) as [oq|] eqn:Eq; [|discriminate].
  destruct (heap w !! opacities self) as [oo|] eqn:Eo; [|discriminate].
  simpl in Hm, Hs, Hq, Ho.
  injection Hm as Hm. injection Hs as Hs. injection Hq as Hq. injection Ho as Ho.
  unfold optimize_step. destruct (im_shape gt_image) as [Hh Ww].
  (* zero_grad *)
  apply runs_bind. unfold zero_grad. cbn [for_each switch_to_color_only_mode
    set_optimizer optimizer param_groups pg_params].
  apply runs_bind. apply runs_bind. unfold clear_grad. apply runs_bind.
  eapply runs_load; [exact Hc|]. apply runs_store. apply runs_ret. apply runs_ret.
  set (w1 := set_heap w (<[sh0 self := Tensor c true None]> (heap w))).
  assert (forall l, l <> sh0 self -> heap w1 !! l = heap w !! l) as Hw1
    by (intros l Hl; unfold w1; simpl; now rewrite lookup_insert_ne).
  assert (heap w1 !! sh0 self = Some (Tensor c true None)) as Hc1
    by (unfold w1; simpl; now rewrite lookup_insert_eq).
  assert (live_in (attributes (switch_to_color_only_mode learning_rate self)) w1)
    as Hlive1.
  { intros l Hl. unfold attributes in Hl. simpl in Hl.
    destruct (decide (l = sh0 self)) as [->|Hne]; [rewrite Hc1; eauto|].
    rewrite (Hw1 l Hne).
    repeat (apply elem_of_cons in Hl as [-> | Hl]; [eauto|]).
    apply elem_of_nil in Hl. contradiction. }
  (* render *)
  apply runs_bind. eapply runs_mono; [apply render_runs, Hlive1|].
  intros rendered w1' [-> _].
  (* backward *)
  apply runs_bind. unfold backward.
  cbn [means scales quats opacities sh0 switch_to_color_only_mode set_optimizer].
  apply runs_bind. eapply runs_load; [rewrite (Hw1 _ Nm); exact Em|].
  apply runs_bind. eapply runs_load; [rewrite (Hw1 _ Ns); exact Es|].
  apply runs_bind. eapply runs_load; [rewrite (Hw1 _ Nq); exact Eq|].
  apply runs_bind. eapply runs_load; [rewrite (Hw1 _ No); exact Eo|].
  apply runs_bind. eapply runs_load; [exact Hc1|].
  rewrite Hm, Hs, Hq, Ho. cbn [obj_data obj_requires_grad].
  rewrite !orb_true_r.
  destruct (autograd m s q o c gt_image view_mat K) as [[[[g1 g2] g3] g4] g5].
  cbn [snd].
  assert (forall p g w2,
            (p = means self \/ p = scales self \/ p = quats self \/ p = opacities self) ->
            heap w2 !! sh0 self = Some (Tensor c true None) ->
            (forall l, is_Some (heap w1 !! l) -> is_Some (heap w2 !! l)) ->
            runs (accumulate_grad p g) w2 (fun _ w3 =>
              heap w3 !! sh0 self = Some (Tensor c true None) /\
              (forall l, is_Some (heap w1 !! l) -> is_Some (heap w3 !! l)))) as Hacc.
  { intros p g w2 Hp Hc2 Hdom. eapply runs_mono.
    - apply accumulate_grad_frame. apply Hdom.
      assert (p <> sh0 self) as Hne by (destruct Hp as [->| [->| [->| ->]]]; assumption).
      rewrite (Hw1 p Hne). destruct Hp as [->| [->| [->| ->]]]; eauto.
    - intros ? w3 [(Hd & _) Hfr]. split.
      + rewrite Hfr; [exact Hc2|]. destruct Hp as [->| [->| [->| ->]]]; auto.
      + intros l Hl. apply Hd, Hdom, Hl. }
  apply runs_bind. eapply runs_mono; [apply Hacc; [auto | exact Hc1 | auto]|].
  intros ? w2 [Hc2 Hd2].
  apply runs_bind. eapply runs_mono; [apply Hacc; [auto | exact Hc2 | exact Hd2]|].
  intros ? w3 [Hc3 Hd3].
  apply runs_bind. eapply runs_mono; [apply Hacc; [auto | exact Hc3 | exact Hd3]|].
  intros ? w4 [Hc4 Hd4].
  apply runs_bind. eapply runs_mono; [apply Hacc; [auto 6 | exact Hc4 | exact Hd4]|].
  intros ? w5 [Hc5 Hd5].
  unfold accumulate_grad. apply runs_bind. eapply runs_load; [exact Hc5|].
  apply runs_store.
  (* Adam step *)
  apply runs_bind. unfold Adam_step.
  cbn [step_groups step_params optimizer param_groups pg_params pg_lr adam_state
       switch_to_color_only_mode set_optimizer heap set_heap].
  apply runs_bind. apply runs_bind. apply runs_bind.
  eapply runs_load; [simpl; apply lookup_insert_eq|].
  cbn [obj_grad obj_data obj_requires_grad]. rewrite lookup_empty.
  destruct (adam_update learning_rate c g5 None) as [d' m'] eqn:Ead.
  apply runs_bind. apply runs_store. apply runs_ret. apply runs_ret.
  apply runs_ret. apply runs_ret.
  unfold data_at. simpl. now rewrite lookup_insert_eq.
Qed.
End ColorStep.

Section Training.
Context `{Backend}.

Lemma optimize_steps_runs inputs : forall self w,
  live_in (attributes self) w ->
  live_in (group_params (optimizer self)) w ->
  any_trainable self w ->
  runs (optimize_steps self inputs) w (fun r w' =>
    length (fst r) = length inputs /\
    attributes (snd r) = attributes self /\
    param_groups (optimizer (snd r)) = param_groups (optimizer self) /\
    extends (group_params (optimizer self)) w w').
Proof.
  induction inputs as [|[[gt_image view_mat] K] inputs IH];
    intros self w Hattr Hgrp Htrain.
  - simpl. apply runs_ret. simpl.
    split; [reflexivity|]. split; [reflexivity|]. split; [reflexivity|].
    apply extends_refl.
  - simpl. apply runs_bind. eapply runs_mono;
      [apply (optimize_step_runs self gt_image view_mat K w Hattr Hgrp Htrain)|].
    intros [[loss rendered] self'] w1 (_ & _ & (opt & -> & Hopt) & Hw1).
    set (L := group_params (optimizer self)) in *.
    assert (group_params (optimizer (set_optimizer self opt)) = L) as HL.
    { unfold group_params, L. simpl. now rewrite Hopt. }
    apply runs_bind. eapply runs_mono.
    + apply IH.
      * apply (extends_live L _ w w1 Hw1). exact Hattr.
      * rewrite HL. apply (extends_live L _ w w1 Hw1). exact Hgrp.
      * apply (extends_trainable L self w w1 Hw1 Htrain).
    + intros [losses self''] w2 (Hlen & Ha & Hg & Hw2). apply runs_ret.
      simpl in *. split; [now rewrite Hlen|]. split; [exact Ha|].
      split; [now rewrite Hg|]. rewrite HL in Hw2.
      eapply extends_trans; eassumption.
Qed.

(** C5: one optimization step returns the image that [render] gives on
    the store as the step finds it, and with it the mean absolute
    per-pixel, per-channel difference between that image and the ground
    truth; nothing else is added to the loss.  It is 0 when the rendering
    equals the ground truth and 1 when the ground truth is white and the
    rendering black.  (An image has at least one pixel: the mean of no
    entries is NaN.) *)
Theorem optimize_step_loss self gt_image view_mat K w Hh Ww :
  live_in (attributes self) w ->
  live_in (group_params (optimizer self)) w ->
  any_trainable self w ->
  im_shape gt_image = (Hh, Ww) -> (0 < Hh)%nat -> (0 < Ww)%nat ->
  exists loss rendered self' w',
    optimize_step self gt_image view_mat K w = Ok (loss, rendered, self', w') /\
    render self view_mat K Ww Hh w = Ok (rendered, w) /\
    im_shape rendered = (Hh, Ww) /\
    loss = Some (l1_loss rendered gt_image) /\
    ((forall v u, (v < Hh)%nat -> (u < Ww)%nat ->
        im_at rendered v u = im_at gt_image v u) -> loss = Some 0) /\
    ((forall v u, (v < Hh)%nat -> (u < Ww)%nat ->
        im_at gt_image v u = (1, 1, 1) /\ im_at rendered v u = (0, 0, 0)) ->
     loss = Some 1).
Proof.
  intros Hattr Hgrp Htrain Hshape HH HW.
  destruct (runs_conj _ _ _ _
              (optimize_step_runs self gt_image view_mat K w Hattr Hgrp Htrain)
              (optimize_step_renders self gt_image view_mat K w Hattr Hgrp Htrain))
    as ([[loss rendered] self'] & w' & Hrun & (Hrs & Hloss & _) & Hrender).
  exists loss, rendered, self', w'. split; [exact Hrun|].
  rewrite Hshape in Hrender. cbn [fst snd] in Hrender. split; [exact Hrender|].
  rewrite Hshape in Hrs. split; [exact Hrs|].
  rewrite (step_loss_l1 rendered gt_image Hh Ww Hrs Hshape HH HW) in Hloss.
  split; [exact Hloss|]. split.
  - intros Heq. rewrite Hloss. f_equal.
    rewrite (l1_loss_const rendered gt_image Hh Ww 0 Hshape HH HW); [lra|].
    intros v u Hv Hu. rewrite (Heq v u Hv Hu).
    destruct (im_at gt_image v u) as [[g0 g1] g2]. unfold pixel_l1.
    rewrite !Rminus_diag, Rabs_R0. lra.
  - intros Hwb. rewrite Hloss. f_equal.
    rewrite (l1_loss_const rendered gt_image Hh Ww 3 Hshape HH HW); [lra|].
    intros v u Hv Hu. destruct (Hwb v u Hv Hu) as [-> ->]. unfold pixel_l1.
    assert (Rabs (0 - 1) = 1) as -> by (rewrite Rabs_left; lra). lra.
Qed.

(** C2: after the switch to colour-only mode, any number of optimization
    steps leaves the data of position, log-scale, raw rotation and
    opacity logit as it was before; the data of no tensor but [sh0]
    changes, and one step gives [sh0] the Adam update of its gradient. *)
Theorem color_only_mode_freezes self w learning_rate inputs :
  live_in (attributes self) w ->
  any_trainable self w ->
  sh0 self ∉ [means self; scales self; quats self; opacities self] ->
  exists losses self' w',
    optimize_steps (switch_to_color_only_mode learning_rate self) inputs w
      = Ok (losses, self', w') /\
    length losses = length inputs /\
    data_at w' (means self) = data_at w (means self) /\
    data_at w' (scales self) = data_at w (scales self) /\
    data_at w' (quats self) = data_at w (quats self) /\
    data_at w' (opacities self) = data_at w (opacities self) /\
    (forall l, l <> sh0 self -> data_at w' l = data_at w l) /\
    param_groups (optimizer self')
      = [ {| pg_params := [sh0 self]; pg_lr := learning_rate |} ] /\
    (forall gt_image view_mat K m s q o c g0,
       inputs = [(gt_image, view_mat, K)] ->
       data_at w (means self) = Some m ->
       data_at w (scales self) = Some s ->
       data_at w (quats self) = Some q ->
       data_at w (opacities self) = Some o ->
       heap w !! sh0 self = Some (Tensor c true g0) ->
       data_at w' (sh0 self)
       = Some (fst (adam_update learning_rate c
                      (snd (autograd m s q o c gt_image view_mat K)) None))).
Proof.
  intros Hattr Htrain Hsh0.
  set (self1 := switch_to_color_only_mode learning_rate self).
  assert (live_in (group_params (optimizer self1)) w) as Hgrp.
  { intros l Hl. apply Hattr. unfold self1, group_params in Hl. simpl in Hl.
    apply list_elem_of_singleton in Hl as ->. attribute_in. }
  destruct (optimize_steps_runs inputs self1 w Hattr Hgrp Htrain)
    as ([losses self'] & w' & Hrun & Hlen & _ & Hpg & _ & Hdata & _).
  exists losses, self', w'. split; [exact Hrun|]. split; [exact Hlen|].
  assert (forall l, l <> sh0 self -> data_at w' l = data_at w l) as Hframe.
  { intros l Hl. apply Hdata. unfold self1, group_params. simpl.
    intros Hin. apply list_elem_of_singleton in Hin. contradiction. }
  assert (forall l, l ∈ [means self; scales self; quats self; opacities self] ->
                    l <> sh0 self) as Hne by (intros l Hl ->; contradiction).
  split; [apply Hframe, Hne; attribute_in|].
  split; [apply Hframe, Hne; attribute_in|].
  split; [apply Hframe, Hne; attribute_in|].
  split; [apply Hframe, Hne; attribute_in|].
  split; [exact Hframe|]. split; [exact Hpg|].
  intros gt_image view_mat K m s q o c g0 -> Hm Hs Hq Ho Hc.
  destruct (color_step_sh0 self w learning_rate gt_image view_mat K m s q o c g0
              Hsh0 Hm Hs Hq Ho Hc) as (r & w1 & Hstep & Hpost).
  fold self1 in Hstep. simpl in Hrun. unfold bind in Hrun. rewrite Hstep in Hrun.
  destruct r as [[loss rendered] self2]. simpl in Hrun.
  injection Hrun as _ _ <-. exact Hpost.
Qed.
End Training.


Close Scope R_scope.

(** The example store is live, and its SH0 tensor is not one of the others. *)
Lemma example_store_live rot : live_in (attributes example_self) (example_world rot).
Proof.
  intros l Hl. unfold attributes in Hl. simpl in Hl.
  repeat (apply elem_of_cons in Hl as [-> | Hl]; [simpl; eexists; reflexivity|]).
  inversion Hl.
Qed.

Lemma example_groups_live rot :
  live_in (group_params (optimizer example_self)) (example_world rot).
Proof.
  intros l Hl. unfold group_params in Hl. simpl in Hl.
  repeat (apply elem_of_cons in Hl as [-> | Hl]; [simpl; eexists; reflexivity|]).
  inversion Hl.
Qed.

Lemma example_trainable rot : any_trainable example_self (example_world rot).
Proof.
  exists (sh0 example_self). split; [attribute_in | reflexivity].
Qed.

Lemma example_sh0_apart :
  sh0 example_self ∉ [means example_self; scales example_self; quats example_self;
                      opacities example_self].
Proof.
  simpl. intros Hin.
  repeat (apply elem_of_cons in Hin as [Hin | Hin]; [discriminate|]).
  inversion Hin.
Qed.

Lemma optimize_step_loss_witness :
  live_in (attributes example_self) (example_world [1; 0; 0; 0]%R) /\
  live_in (group_params (optimizer example_self)) (example_world [1; 0; 0; 0]%R) /\
  any_trainable example_self (example_world [1; 0; 0; 0]%R) /\
  exists loss rendered self' w',
    @optimize_step example_backend example_self white_pixel identity4 identity3
      (example_world [1; 0; 0; 0]%R) = Ok (loss, rendered, self', w') /\
    @render example_backend example_self identity4 identity3 1 1
      (example_world [1; 0; 0; 0]%R) = Ok (rendered, example_world [1; 0; 0; 0]%R) /\
    im_shape rendered = (1, 1)%nat /\
    loss = Some (l1_loss rendered white_pixel).
Proof.
  split; [apply example_store_live|]. split; [apply example_groups_live|].
  split; [apply example_trainable|].
  destruct (@optimize_step_loss example_backend example_self white_pixel identity4
              identity3 (example_world [1; 0; 0; 0]%R) 1 1
              (example_store_live _) (example_groups_live _) (example_trainable _)
              eq_refl
              ltac:(lia) ltac:(lia))
    as (loss & rendered & self' & w' & Hrun & Hrender & Hshape & Hloss & _).
  exists loss, rendered, self', w'. split; [exact Hrun|]. split; [exact Hrender|].
  split; [exact Hshape|]. exact Hloss.
Defined.

Lemma color_only_mode_freezes_witness :
  live_in (attributes example_self) (example_world [1; 0; 0; 0]%R) /\
  any_trainable example_self (example_world [1; 0; 0; 0]%R) /\
  (sh0 example_self ∉ [means example_self; scales example_self; quats example_self;
                       opacities example_self]) /\
  exists losses self' w',
    @optimize_steps example_backend (switch_to_color_only_mode 0.02%R example_self)
      [(white_pixel, identity4, identity3); (white_pixel, identity4, identity3)]
      (example_world [1; 0; 0; 0]%R) = Ok (losses, self', w') /\
    length losses = 2%nat /\
    data_at w' (means example_self) = Some [[0; 0; 0]%R] /\
    data_at w' (quats example_self) = Some [[1; 0; 0; 0]%R].
Proof.
  split; [apply example_store_live|]. split; [apply example_trainable|].
  split; [apply example_sh0_apart|].
  destruct (@color_only_mode_freezes example_backend example_self
              (example_world [1; 0; 0; 0]%R) 0.02%R
              [(white_pixel, identity4, identity3); (white_pixel, identity4, identity3)]
              (example_store_live _) (example_trainable _) example_sh0_apart)
    as (losses & self' & w' & Hrun & Hlen & Hm & _ & Hq & _).
  exists losses, self', w'. split; [exact Hrun|]. split; [exact Hlen|].
  split; [rewrite Hm; reflexivity | rewrite Hq; reflexivity].
Defined.

(** ** Columns and rows *)

Lemma nth_lookup_default {A} (l : list A) i d x : l !! i = Some x -> nth i l d = x.
Proof. intros Hx. apply nth_lookup_Some with (d := d) in Hx. exact Hx. Qed.

Lemma map_nth_seq (r : list R) c :
  length r = c -> map (fun j => nth j r 0%R) (seq 0 c) = r.
Proof.
  intros <-. apply list_eq. intros j. rewrite list_lookup_fmap.
  destruct (decide (j < length r)) as [Hj|Hj].
  - rewrite lookup_seq_lt by exact Hj. simpl.
    destruct (lookup_lt_is_Some_2 r j Hj) as [x Hx]. rewrite Hx. f_equal.
    now apply nth_lookup_default.
  - rewrite lookup_seq_ge by lia. simpl. symmetry. apply lookup_ge_None. lia.
Qed.

Lemma length_col j a : length (col j a) = length a.
Proof. apply length_map. Qed.

Lemma nth_col j (a : list (list R)) i r : a !! i = Some r -> nth i (col j a) 0%R = nth j r 0%R.
Proof.
  intros Hr. apply nth_lookup_default. unfold col. now rewrite list_lookup_fmap, Hr.
Qed.

Lemma stack_columns_cols n c (a : list (list R)) :
  has_shape n c a ->
  stack_columns n (map (fun j => col j a) (seq 0 c)) = a.
Proof.
  unfold array in *. intros [Hn Hc]. apply list_eq. intros i. unfold stack_columns.
  rewrite list_lookup_fmap. destruct (decide (i < n)) as [Hi|Hi].
  - rewrite lookup_seq_lt by exact Hi. simpl.
    destruct (lookup_lt_is_Some_2 a i) as [r Hr]; [lia|]. rewrite Hr. f_equal.
    rewrite map_map. transitivity (map (fun j => nth j r 0%R) (seq 0 c)).
    + apply map_ext. intros j. now apply nth_col.
    + apply map_nth_seq. rewrite List.Forall_forall in Hc. apply Hc.
      apply list_elem_of_In, list_elem_of_lookup. eauto.
  - rewrite lookup_seq_ge by lia. simpl. symmetry. apply lookup_ge_None. lia.
Qed.

Lemma column_shape n c a j :
  has_shape n c a -> (j < c)%nat -> column j a = Ok (col j a).
Proof.
  intros [_ Hc] Hj. induction Hc as [|r a Hr Hc IH]; simpl; [reflexivity|].
  destruct (lookup_lt_is_Some_2 r j) as [x Hx]; [lia|]. rewrite Hx, IH. simpl.
  now rewrite (nth_lookup_default r j 0%R x Hx).
Qed.

Lemma assign_field_same n values :
  length values = n -> assign_field n values = Ok values.
Proof. intros <-. unfold assign_field. now rewrite Nat.eqb_refl. Qed.

Lemma ply_field_shape n c name a j :
  has_shape n c a -> (j < c)%nat ->
  ply_field n name a j = Ok {| p_name := name; p_dtype := F4; p_values := col j a |}.
Proof.
  intros Ha Hj. unfold ply_field. rewrite (column_shape n c a j Ha Hj). simpl.
  rewrite assign_field_same; [reflexivity|]. rewrite length_col. apply Ha.
Qed.

Lemma zeros_like_shape n c a : has_shape n c a -> has_shape n c (zeros_like a).
Proof.
  intros [Hn Hc]. split.
  - unfold zeros_like, emap. now rewrite length_map.
  - unfold zeros_like, emap. apply Forall_map.
    eapply Forall_impl; [exact Hc|]. intros r Hr. simpl. now rewrite length_map.
Qed.

Lemma stack3_cols n a :
  has_shape n 3 a -> stack3 (col 0 a) (col 1 a) (col 2 a) = Ok a.
Proof.
  intros Ha. unfold stack3. rewrite !length_col, !Nat.eqb_refl. simpl. f_equal.
  destruct Ha as [Hn Hc].
  pose proof (stack_columns_cols (length a) 3 a (conj eq_refl Hc)) as E.
  unfold stack_columns in E. simpl in E. exact E.
Qed.

(** ** Writing and reading a store *)

Lemma data_at_Some w l d :
  data_at w l = Some d -> exists o, heap w !! l = Some o /\ obj_data o = d.
Proof.
  unfold data_at. destruct (heap w !! l) as [o|]; simpl; [|discriminate].
  intros [= <-]. eauto.
Qed.

Lemma save_ply_runs n self path w xyz s q o c :
  data_at w (means self) = Some xyz -> has_shape n 3 xyz ->
  data_at w (scales self) = Some s -> has_shape n 3 s ->
  data_at w (quats self) = Some q -> has_shape n 4 q ->
  data_at w (opacities self) = Some o -> has_shape n 1 o ->
  data_at w (sh0 self) = Some c -> has_shape n 3 c ->
  save_ply self path w
  = Ok (tt, {| heap := heap w;
               files := <[path := [saved_element xyz c o s q]]> (files w);
               stdout := stdout w ++ [SavedLine path] |}).
Proof.
  intros (om & Em & <-)%data_at_Some Hxyz (os & Es & <-)%data_at_Some Hs
         (oq & Eq & <-)%data_at_Some Hq (oo & Eo & <-)%data_at_Some Ho
         (oc & Ec & <-)%data_at_Some Hc.
  pose proof (zeros_like_shape _ _ _ Hxyz) as Hnorm.
  assert (length (obj_data om) = n) as Hn by apply Hxyz.
  unfold save_ply, bind, load. rewrite Em, Ec, Eo, Es, Eq. rewrite Hn.
  cbn [ply_fields].
  rewrite !(ply_field_shape n 3 _ (obj_data om)) by (auto; lia).
  rewrite !(ply_field_shape n 3 _ (zeros_like (obj_data om))) by (auto; lia).
  rewrite !(ply_field_shape n 3 _ (obj_data oc)) by (auto; lia).
  rewrite !(ply_field_shape n 1 _ (obj_data oo)) by (auto; lia).
  rewrite !(ply_field_shape n 3 _ (obj_data os)) by (auto; lia).
  rewrite !(ply_field_shape n 4 _ (obj_data oq)) by (auto; lia).
  unfold saved_element. rewrite Hn. reflexivity.
Qed.

Lemma load_ply_saved n path w xyz s q o c :
  files w !! path = Some ([saved_element xyz c o s q] : PlyData) ->
  has_shape n 3 xyz -> has_shape n 3 c ->
  load_ply path w
  = Ok (xyz, emap (clip 0.0 1.0) (emap (fun f => (f * SH_C0 + 0.5)%R) c), w).
Proof.
  intros Hf Hxyz Hc. unfold load_ply, bind, PlyData_read. rewrite Hf.
  cbn. rewrite (stack3_cols n xyz Hxyz), (stack3_cols n c Hc). reflexivity.
Qed.

(** ** Activations *)

Open Scope R_scope.

Lemma sigmoid_range x : 0 < sigmoid x < 1.
Proof.
  unfold sigmoid. pose proof (exp_pos (- x)) as He.
  assert (0 < 1 + exp (- x)) as Hd by lra. split.
  - apply Rdiv_lt_0_compat; lra.
  - apply Rmult_lt_reg_r with (1 + exp (- x)); [exact Hd|]. field_simplify; lra.
Qed.

Lemma sumsq_nonneg r : 0 <= sumsq r.
Proof. induction r as [|x r IH]; simpl; [lra | nra]. Qed.

Lemma sumsq_scale r k : sumsq (map (fun x => x / k) r) = sumsq r / (k * k).
Proof.
  destruct (Req_dec_T k 0) as [->|Hk].
  - induction r as [|x r IH]; simpl.
    + unfold Rdiv. now rewrite Rmult_0_l.
    + rewrite IH. unfold Rdiv. rewrite !Rmult_0_l, Rinv_0. lra.
  - induction r as [|x r IH]; simpl.
    + field. exact Hk.
    + rewrite IH. field. exact Hk.
Qed.

Lemma norm_normalized r :
  norm r <> 0 -> norm (map (fun x => x / norm r) r) = 1.
Proof.
  intros Hn. unfold norm in *. fold (sumsq r) in *.
  change (fold_right (fun x acc => x * x + acc) 0 (map (fun x => x / sqrt (sumsq r)) r))
    with (sumsq (map (fun x => x / sqrt (sumsq r)) r)).
  rewrite sumsq_scale, sqrt_sqrt by apply sumsq_nonneg.
  assert (sumsq r <> 0) as Hs by (intros E; apply Hn; rewrite E; apply sqrt_0).
  replace (sumsq r / sumsq r) with 1 by (field; exact Hs). apply sqrt_1.
Qed.

Lemma exp_rows_positive (a : array) : Forall (Forall (fun x => 0 < x)) (emap exp a).
Proof.
  unfold emap. apply Forall_map, List.Forall_forall. intros r _.
  apply Forall_map, List.Forall_forall. intros x _. apply exp_pos.
Qed.

Lemma sigmoid_rows_unit (a : array) :
  Forall (Forall (fun x => 0 <= x <= 1)) (emap sigmoid a).
Proof.
  unfold emap. apply Forall_map, List.Forall_forall. intros r _.
  apply Forall_map, List.Forall_forall. intros x _. simpl.
  pose proof (sigmoid_range x). lra.
Qed.

Lemma normalize_rows_unit (a : array) :
  Forall2 (fun raw unit => norm raw <> 0 -> norm unit = 1) a (normalize_rows a).
Proof.
  unfold normalize_rows. induction a as [|r a IH]; simpl; constructor; [|exact IH].
  apply norm_normalized.
Qed.

Lemma clip_range x : 0 <= clip 0.0 1.0 x <= 1.
Proof.
  unfold clip, Rmin, Rmax. destruct (Rle_dec x 0.0), (Rle_dec 1.0 _); lra.
Qed.

Close Scope R_scope.

Lemma read_saved_fields n xyz s q o c :
  has_shape n 3 xyz -> has_shape n 3 s -> has_shape n 4 q ->
  has_shape n 1 o -> has_shape n 3 c ->
  let el := saved_element xyz c o s q in
  read_fields ["x"; "y"; "z"] el = Ok xyz /\
  read_fields ["f_dc_0"; "f_dc_1"; "f_dc_2"] el = Ok c /\
  read_fields ["opacity"] el = Ok o /\
  read_fields ["scale_0"; "scale_1"; "scale_2"] el = Ok s /\
  read_fields ["rot_0"; "rot_1"; "rot_2"; "rot_3"] el = Ok q.
Proof.
  intros Hxyz Hs Hq Ho Hc el.
  assert (el_count el = n) as Hn by apply Hxyz.
  unfold read_fields. rewrite Hn. cbn.
  pose proof (stack_columns_cols n 3 xyz Hxyz) as E1.
  pose proof (stack_columns_cols n 3 c Hc) as E2.
  pose proof (stack_columns_cols n 1 o Ho) as E3.
  pose proof (stack_columns_cols n 3 s Hs) as E4.
  pose proof (stack_columns_cols n 4 q Hq) as E5.
  cbn in E1, E2, E3, E4, E5. rewrite E1, E2, E3, E4, E5. auto.
Qed.

(** C1, amended: for every splat store of count n, [save_ply] writes one
    vertex element of n records with the 17 fields, and reading the file
    back gives the same n points in the stored order ([load_ply]) and the
    raw scale, opacity and rotation as they were stored; after the
    activations every scale is positive, every opacity lies in [0, 1], and
    every rotation whose raw quaternion is not zero has norm 1. *)
Theorem ply_round_trip n self path w :
  splat_store n self w ->
  exists w1 el w2 xyz s q o,
    save_ply self path w = Ok (tt, w1) /\
    files w1 !! path = Some [el] /\
    el_name el = "vertex" /\ el_count el = n /\
    map p_name (el_properties el)
      = ["x"; "y"; "z"; "nx"; "ny"; "nz"; "f_dc_0"; "f_dc_1"; "f_dc_2"; "opacity";
         "scale_0"; "scale_1"; "scale_2"; "rot_0"; "rot_1"; "rot_2"; "rot_3"] /\
    data_at w (means self) = Some xyz /\
    data_at w (scales self) = Some s /\
    data_at w (quats self) = Some q /\
    data_at w (opacities self) = Some o /\
    (exists colors, load_ply path w1 = Ok (xyz, colors, w2)) /\
    length xyz = n /\
    read_fields ["x"; "y"; "z"] el = Ok xyz /\
    read_fields ["scale_0"; "scale_1"; "scale_2"] el = Ok s /\
    read_fields ["opacity"] el = Ok o /\
    read_fields ["rot_0"; "rot_1"; "rot_2"; "rot_3"] el = Ok q /\
    Forall (Forall (fun x => (0 < x)%R)) (emap exp s) /\
    Forall (Forall (fun x => (0 <= x <= 1)%R)) (emap sigmoid o) /\
    Forall2 (fun raw unit => norm raw <> 0%R -> norm unit = 1%R) q (normalize_rows q).
Proof.
  intros (xyz & s & q & o & c & Em & Hxyz & Es & Hs & Eq & Hq & Eo & Ho & Ec & Hc).
  pose proof (save_ply_runs n self path w xyz s q o c Em Hxyz Es Hs Eq Hq Eo Ho Ec Hc)
    as Hsave.
  set (w1 := {| heap := heap w;
                files := <[path := [saved_element xyz c o s q]]> (files w);
                stdout := stdout w ++ [SavedLine path] |}) in *.
  assert (files w1 !! path = Some ([saved_element xyz c o s q] : PlyData)) as Hfile
    by (unfold w1; simpl; apply lookup_insert_eq).
  destruct (read_saved_fields n xyz s q o c Hxyz Hs Hq Ho Hc)
    as (Rx & _ & Ro & Rs & Rq).
  exists w1, (saved_element xyz c o s q), w1, xyz, s, q, o.
  split; [exact Hsave|]. split; [exact Hfile|]. split; [reflexivity|].
  split; [apply Hxyz|]. split; [reflexivity|].
  split; [exact Em|]. split; [exact Es|]. split; [exact Eq|]. split; [exact Eo|].
  split; [eexists; apply (load_ply_saved n path w1 xyz s q o c Hfile Hxyz Hc)|].
  split; [apply Hxyz|]. split; [exact Rx|]. split; [exact Rs|].
  split; [exact Ro|]. split; [exact Rq|].
  split; [apply exp_rows_positive|]. split; [apply sigmoid_rows_unit|].
  apply normalize_rows_unit.
Qed.

Lemma example_splat_store rot :
  length rot = 4%nat -> splat_store 1 example_self (example_world rot).
Proof.
  intros Hrot.
  exists [[0; 0; 0]%R], [[-5.0; -5.0; -5.0]%R], [rot], [[0%R]], [[0; 0; 0]%R].
  repeat split; try reflexivity; repeat constructor. exact Hrot.
Qed.

Lemma ply_round_trip_witness :
  splat_store 1 example_self (example_world [1; 0; 0; 0]%R) /\
  exists w1 el,
    save_ply example_self "out.ply" (example_world [1; 0; 0; 0]%R) = Ok (tt, w1) /\
    files w1 !! "out.ply" = Some [el] /\
    el_count el = 1%nat /\
    read_fields ["rot_0"; "rot_1"; "rot_2"; "rot_3"] el = Ok [[1; 0; 0; 0]%R].
Proof.
  split; [apply example_splat_store; reflexivity|].
  destruct (ply_round_trip 1 example_self "out.ply" (example_world [1; 0; 0; 0]%R)
              (example_splat_store [1; 0; 0; 0]%R eq_refl))
    as (w1 & el & w2 & xyz & s & q & o & Hsave & Hfile & _ & Hcount & _ & _ & _
        & Hq & _ & _ & _ & _ & _ & _ & Hrot & _).
  exists w1, el. split; [exact Hsave|]. split; [exact Hfile|].
  split; [exact Hcount|]. rewrite Hrot. f_equal.
  unfold data_at in Hq. simpl in Hq. injection Hq as <-. reflexivity.
Defined.

(** C1 as stated fails on a store whose raw rotation is the zero
    quaternion: it is written and read back as it is, and its
    normalisation (0/0 in each component: NaN in Torch, 0 here) does not
    have norm 1. *)
Lemma ply_round_trip_zero_rotation :
  splat_store 1 example_self (example_world [0; 0; 0; 0]%R) /\
  exists w1 el,
    save_ply example_self "out.ply" (example_world [0; 0; 0; 0]%R) = Ok (tt, w1) /\
    files w1 !! "out.ply" = Some [el] /\
    (exists colors, load_ply "out.ply" w1 = Ok ([[0; 0; 0]%R], colors, w1)) /\
    read_fields ["rot_0"; "rot_1"; "rot_2"; "rot_3"] el = Ok [[0; 0; 0; 0]%R] /\
    ~ Forall (fun unit => norm unit = 1%R) (normalize_rows [[0; 0; 0; 0]%R]).
Proof.
  pose proof (example_splat_store [0; 0; 0; 0]%R eq_refl) as Hstore.
  split; [exact Hstore|].
  set (w := example_world [0; 0; 0; 0]%R).
  set (xyz := [[0; 0; 0]%R]). set (s := [[-5.0; -5.0; -5.0]%R]).
  set (q := [[0; 0; 0; 0]%R]). set (o := [[0%R]]). set (c := [[0; 0; 0]%R]).
  assert (has_shape 1 3 xyz /\ has_shape 1 3 s /\ has_shape 1 4 q /\
          has_shape 1 1 o /\ has_shape 1 3 c) as (Hxyz & Hs & Hq & Ho & Hc)
    by (repeat split; repeat constructor).
  pose proof (save_ply_runs 1 example_self "out.ply" w xyz s q o c
                eq_refl Hxyz eq_refl Hs eq_refl Hq eq_refl Ho eq_refl Hc) as Hsave.
  eexists _, (saved_element xyz c o s q). split; [exact Hsave|].
  split; [reflexivity|]. split.
  { eexists. apply (load_ply_saved 1 _ _ xyz s q o c); [reflexivity | exact Hxyz | exact Hc]. }
  split; [apply (read_saved_fields 1 xyz s q o c Hxyz Hs Hq Ho Hc)|].
  intros Hall. inversion Hall as [|r rs Hnorm _]; subst.
  unfold norm in Hnorm. simpl in Hnorm.
  assert (forall k : R, (0 / k * (0 / k) + (0 / k * (0 / k)
            + (0 / k * (0 / k) + (0 / k * (0 / k) + 0))) = 0)%R) as Hz
    by (intros k; unfold Rdiv; rewrite !Rmult_0_l; lra).
  rewrite Hz, sqrt_0 in Hnorm. lra.
Qed.

(** ** Reading a vertex block *)

Lemma find_existsb {A} (f : A -> bool) (l : list A) :
  match find f l with
  | Some x => existsb f l = true /\ In x l
  | None => existsb f l = false
  end.
Proof.
  induction l as [|a l IH]; simpl; [reflexivity|].
  destruct (f a) eqn:E; simpl; [auto|].
  destruct (find f l); [destruct IH; auto | exact IH].
Qed.

Lemma get_property_present name e :
  element_consistent e -> has_property name e = true ->
  exists c, get_property name e = Ok c /\ length c = el_count e.
Proof.
  intros Hcons Hhas. unfold get_property, has_property in *.
  pose proof (find_existsb (fun p => String.eqb (p_name p) name) (el_properties e)) as Hf.
  destruct (find _ (el_properties e)) as [p|].
  - destruct Hf as [_ Hin]. exists (p_values p). split; [reflexivity|].
    unfold element_consistent in Hcons. rewrite List.Forall_forall in Hcons. auto.
  - congruence.
Qed.

Lemma get_property_absent name e :
  has_property name e = false -> get_property name e = Raise ValueError.
Proof.
  intros Hhas. unfold get_property, has_property in *.
  pose proof (find_existsb (fun p => String.eqb (p_name p) name) (el_properties e)) as Hf.
  destruct (find _ (el_properties e)) as [p|]; [|reflexivity].
  destruct Hf. congruence.
Qed.

Lemma stack3_columns n x y z :
  length x = n -> length y = n -> length z = n ->
  stack3 x y z = Ok (stack_columns n [x; y; z]).
Proof.
  intros Hx Hy Hz. unfold stack3. rewrite Hx, Hy, Hz, Nat.eqb_refl. reflexivity.
Qed.

Lemma length_stack_columns n cols : length (stack_columns n cols) = n.
Proof. unfold stack_columns. now rewrite length_map, length_seq. Qed.

(** C8: [load_ply] on a vertex block.  When one of x, y, z is missing (so
    also when all three are) it raises ValueError and returns no points.
    Otherwise the points are the rows (x, y, z) and the colours are, in
    this order of priority: red, green, blue divided by 255 when all three
    are present; else clip(f_dc * C0 + 0.5, 0, 1) when f_dc_0, f_dc_1 and
    f_dc_2 are present; else 1.0 in every channel, with the warning
    printed. *)
Theorem load_ply_colors path w d vertex :
  files w !! path = Some d ->
  get_element "vertex" d = Ok vertex ->
  element_consistent vertex ->
  let has := fun name => has_property name vertex in
  (has "x" && has "y" && has "z" = false -> load_ply path w = Raise ValueError) /\
  (has "x" && has "y" && has "z" = true ->
   exists points,
     read_fields ["x"; "y"; "z"] vertex = Ok points /\
     length points = el_count vertex /\
     (has "red" && has "green" && has "blue" = true ->
      exists rgb,
        read_fields ["red"; "green"; "blue"] vertex = Ok rgb /\
        load_ply path w = Ok (points, emap (fun c => (c / 255.0)%R) rgb, w)) /\
     (has "red" && has "green" && has "blue" = false ->
      has "f_dc_0" && has "f_dc_1" && has "f_dc_2" = true ->
      exists f_dc,
        read_fields ["f_dc_0"; "f_dc_1"; "f_dc_2"] vertex = Ok f_dc /\
        load_ply path w
        = Ok (points,
              emap (clip 0.0 1.0)
                   (emap (fun f => (f * 0.28209479177387814 + 0.5)%R) f_dc),
              w)) /\
     (has "red" && has "green" && has "blue" = false ->
      has "f_dc_0" && has "f_dc_1" && has "f_dc_2" = false ->
      load_ply path w
      = Ok (points, emap (fun _ => 1%R) points,
            with_stdout w (stdout w ++ [NoColorWarning])))).
Proof.
  intros Hfile Hvertex Hcons has. split.
  - intros Hmiss. unfold load_ply, bind, PlyData_read. rewrite Hfile.
    unfold lift at 1. rewrite Hvertex.
    destruct (has "x") eqn:Hx.
    + destruct (get_property_present "x" vertex Hcons Hx) as (x & -> & _).
      destruct (has "y") eqn:Hy.
      * destruct (get_property_present "y" vertex Hcons Hy) as (y & -> & _).
        simpl in Hmiss. now rewrite (get_property_absent "z" vertex Hmiss).
      * now rewrite (get_property_absent "y" vertex Hy).
    + now rewrite (get_property_absent "x" vertex Hx).
  - intros Hpos. apply andb_true_iff in Hpos as [Hpos Hz].
    apply andb_true_iff in Hpos as [Hx Hy].
    destruct (get_property_present "x" vertex Hcons Hx) as (x & Ex & Lx).
    destruct (get_property_present "y" vertex Hcons Hy) as (y & Ey & Ly).
    destruct (get_property_present "z" vertex Hcons Hz) as (z & Ez & Lz).
    exists (stack_columns (el_count vertex) [x; y; z]).
    split; [unfold read_fields; simpl; now rewrite Ex, Ey, Ez|].
    split; [apply length_stack_columns|].
    split; [|split].
    + intros Hrgb. apply andb_true_iff in Hrgb as [Hrgb Hb].
      apply andb_true_iff in Hrgb as [Hr Hg].
      destruct (get_property_present "red" vertex Hcons Hr) as (r & Er & Lr).
      destruct (get_property_present "green" vertex Hcons Hg) as (g & Eg & Lg).
      destruct (get_property_present "blue" vertex Hcons Hb) as (b & Eb & Lb).
      exists (stack_columns (el_count vertex) [r; g; b]).
      split; [unfold read_fields; simpl; now rewrite Er, Eg, Eb|].
      unfold load_ply, bind, PlyData_read. rewrite Hfile. unfold lift at 1.
      rewrite Hvertex, Ex, Ey, Ez. cbn [lift].
      rewrite (stack3_columns _ x y z Lx Ly Lz).
      fold (has "red") (has "green") (has "blue"). rewrite Hr, Hg, Hb. cbn [andb].
      rewrite Er, Eg, Eb. cbn [lift]. rewrite (stack3_columns _ r g b Lr Lg Lb).
      reflexivity.
    + intros Hrgb Hfdc. apply andb_true_iff in Hfdc as [Hfdc H2].
      apply andb_true_iff in Hfdc as [H0 H1].
      destruct (get_property_present "f_dc_0" vertex Hcons H0) as (f0 & E0 & L0).
      destruct (get_property_present "f_dc_1" vertex Hcons H1) as (f1 & E1 & L1).
      destruct (get_property_present "f_dc_2" vertex Hcons H2) as (f2 & E2 & L2).
      exists (stack_columns (el_count vertex) [f0; f1; f2]).
      split; [unfold read_fields; simpl; now rewrite E0, E1, E2|].
      unfold load_ply, bind, PlyData_read. rewrite Hfile. unfold lift at 1.
      rewrite Hvertex, Ex, Ey, Ez. cbn [lift].
      rewrite (stack3_columns _ x y z Lx Ly Lz).
      fold (has "red") (has "green") (has "blue"). rewrite Hrgb.
      fold (has "f_dc_0") (has "f_dc_1") (has "f_dc_2"). rewrite H0, H1, H2. cbn [andb].
      rewrite E0, E1, E2. cbn [lift]. rewrite (stack3_columns _ f0 f1 f2 L0 L1 L2).
      reflexivity.
    + intros Hrgb Hfdc.
      unfold load_ply, bind, PlyData_read. rewrite Hfile. unfold lift at 1.
      rewrite Hvertex, Ex, Ey, Ez. cbn [lift].
      rewrite (stack3_columns _ x y z Lx Ly Lz).
      fold (has "red") (has "green") (has "blue"). rewrite Hrgb.
      fold (has "f_dc_0") (has "f_dc_1") (has "f_dc_2"). rewrite Hfdc.
      reflexivity.
Qed.
Lemma bare_vertex_consistent : element_consistent bare_vertex.
Proof. repeat constructor. Qed.

Lemma load_ply_colors_witness :
  files bare_world !! "cloud.ply" = Some [bare_vertex] /\
  get_element "vertex" [bare_vertex] = Ok bare_vertex /\
  element_consistent bare_vertex /\
  load_ply "cloud.ply" bare_world
  = Ok ([[1; 2; 3]%R], [[1; 1; 1]%R], with_stdout bare_world [NoColorWarning]).
Proof.
  split; [reflexivity|]. split; [reflexivity|]. split; [apply bare_vertex_consistent|].
  destruct (load_ply_colors "cloud.ply" bare_world [bare_vertex] bare_vertex
              eq_refl eq_refl bare_vertex_consistent) as [_ Hpos].
  destruct (Hpos eq_refl) as (points & Hpoints & _ & _ & _ & Hwhite).
  rewrite (Hwhite eq_refl eq_refl).
  injection Hpoints as <-. reflexivity.
Defined.

(** * Further properties of the projection *)

Open Scope R_scope.

Lemma ravel_empty a : ravel a = [] <-> (fst (shape a) * snd (shape a) = 0)%nat.
Proof.
  unfold ravel. split.
  - intros E. apply (f_equal (@length R)) in E. now rewrite grid_length in E.
  - intros E. apply length_zero_iff_nil. now rewrite grid_length.
Qed.

(** The outcome of [project_to_3d] in one equation. *)
Lemma project_to_3d_cases image depth fov :
  project_to_3d image depth fov
  = let W := fst (size image) in
    let H := snd (size image) in
    match amin depth, amax depth with
    | Ok dmin, Ok dmax =>
        if shape_eqb (H, W) (shape depth)
        then Ok (grid (np_pixel_point W H fov depth dmin dmax) H W, image_rgb image)
        else Raise ValueError
    | _, _ => Raise ValueError
    end.
Proof.
  destruct (size image) as [W H] eqn:Hsize. cbn [fst snd].
  destruct (amin depth) as [dmin|e] eqn:Hmin.
  2: { unfold project_to_3d. rewrite Hsize, Hmin. cbn [rbind].
       unfold amin, reduce in Hmin. destruct (ravel depth); now inversion Hmin. }
  destruct (amax depth) as [dmax|e] eqn:Hmax.
  2: { unfold project_to_3d. rewrite Hsize, Hmin, Hmax. cbn [rbind].
       unfold amax, reduce in Hmax. destruct (ravel depth); now inversion Hmax. }
  destruct (shape_eqb (H, W) (shape depth)) eqn:Hs.
  - apply shape_eqb_eq in Hs. now apply project_to_3d_eval.
  - unfold project_to_3d. rewrite Hsize, Hmin, Hmax. cbn [rbind]. unfold azip.
    cbn [shape amap fshape fmap2 of_reals meshgrid_xx meshgrid_yy z_of disparity_of].
    now rewrite Hs.
Qed.

(** X1: when the depth map has the size of the image, or the image has
    neither a single row nor a single column (so that NumPy cannot stretch
    its pixel grid to the depth map), [project_to_3d] has two outcomes.  It
    returns exactly when the depth map has the shape (height, width) of the
    image and the image has at least one pixel, and then it returns
    width * height positions and as many colours.  In every other case it
    raises ValueError: from [depth.min()] on an empty map, from the product
    with the pixel grid or from [np.stack]. *)
Theorem project_to_3d_outcome image depth fov :
  let W := fst (size image) in
  let H := snd (size image) in
  shape depth = (H, W) \/ (W <> 1%nat /\ H <> 1%nat) ->
  match project_to_3d image depth fov with
  | Ok (xyz, rgb) =>
      shape depth = (H, W) /\ (0 < W)%nat /\ (0 < H)%nat /\
      length xyz = (W * H)%nat /\ length rgb = (W * H)%nat
  | Raise e =>
      e = ValueError /\ (shape depth <> (H, W) \/ W = 0%nat \/ H = 0%nat)
  end.
Proof.
  intros W H _. rewrite project_to_3d_cases. fold W H. cbv zeta.
  unfold amin, amax, reduce.
  destruct (ravel depth) as [|x l] eqn:Hr.
  - split; [reflexivity|]. apply ravel_empty in Hr.
    destruct (decide (shape depth = (H, W))) as [E|E]; [|now left].
    right. rewrite E in Hr. simpl in Hr. lia.
  - destruct (shape_eqb (H, W) (shape depth)) eqn:Hs.
    + apply shape_eqb_eq in Hs.
      assert (fst (shape depth) * snd (shape depth) <> 0)%nat as Hne.
      { intros E. apply ravel_empty in E. congruence. }
      rewrite <- Hs in Hne. simpl in Hne.
      split; [now symmetry|]. split; [lia|]. split; [lia|].
      rewrite grid_length. split; [lia|].
      unfold image_rgb. destruct (size image) as [W' H'] eqn:Hsz.
      rewrite grid_length. subst W H. simpl. lia.
    + split; [reflexivity|]. left. intros E. rewrite E, shape_eqb_refl in Hs.
      discriminate.
Qed.

Lemma project_to_3d_outcome_witness :
  (shape ramp_depth = (1%nat, 2%nat) \/ (2%nat <> 1%nat /\ 1%nat <> 1%nat)) /\
  exists xyz rgb,
    project_to_3d (blue_image 2 1) ramp_depth 55 = Ok (xyz, rgb) /\
    length xyz = 2%nat /\ length rgb = 2%nat.
Proof.
  split; [left; reflexivity|].
  pose proof (project_to_3d_outcome (blue_image 2 1) ramp_depth 55
                (or_introl eq_refl)) as Hw.
  destruct (project_to_3d (blue_image 2 1) ramp_depth 55) as [[xyz rgb]|e] eqn:E.
  - destruct Hw as (_ & _ & _ & Hx & Hr). exists xyz, rgb. auto.
  - exfalso. destruct Hw as [_ [Hs | [Hs | Hs]]].
    + apply Hs. reflexivity.
    + discriminate Hs.
    + discriminate Hs.
Defined.

Lemma depth_z_antitone depth dmin dmax v u v' u' :
  dmin <= at2 depth v u -> at2 depth v' u' <= dmax ->
  at2 depth v u <= at2 depth v' u' ->
  depth_z depth dmin dmax v' u' <= depth_z depth dmin dmax v u.
Proof.
  intros Hlo Hhi Hab. unfold depth_z.
  set (a := at2 depth v u) in *. set (b := at2 depth v' u') in *.
  assert (0 < dmax - dmin + 1e-8) as Hd by lra.
  assert (0 <= (a - dmin) / (dmax - dmin + 1e-8)) as Ha.
  { unfold Rdiv. apply Rmult_le_pos; [lra|]. left. now apply Rinv_0_lt_compat. }
  assert ((a - dmin) / (dmax - dmin + 1e-8) <= (b - dmin) / (dmax - dmin + 1e-8))
    as Hle.
  { unfold Rdiv. apply Rmult_le_compat_r; [|lra]. left. now apply Rinv_0_lt_compat. }
  set (x := (a - dmin) / (dmax - dmin + 1e-8)) in *.
  set (y := (b - dmin) / (dmax - dmin + 1e-8)) in *.
  assert (/ (y + 0.05) <= / (x + 0.05)) by (apply Rinv_le_contravar; lra).
  unfold Rdiv. lra.
Qed.

(** X2: [project_to_3d] reads the depth map as a disparity and inverts
    the order.  For a depth map of the image's size and any two pixels of
    the image, both Z are finite numbers, and the pixel with the larger (or
    equal) entry of the depth map gets a Z that is not larger.  The order
    is stated weakly: in the arithmetic of the code two different entries
    can round to the same Z. *)
Theorem project_to_3d_depth_order image depth fov xyz rgb :
  let W := fst (size image) in
  let H := snd (size image) in
  shape depth = (H, W) ->
  project_to_3d image depth fov = Ok (xyz, rgb) ->
  forall v u v' u', (v < H)%nat -> (u < W)%nat -> (v' < H)%nat -> (u' < W)%nat ->
    exists p p' Z Z',
      xyz !! (v * W + u)%nat = Some p /\ xyz !! (v' * W + u')%nat = Some p' /\
      fz p = Fin Z /\ fz p' = Fin Z' /\
      (at2 depth v u <= at2 depth v' u' -> Z' <= Z).
Proof.
  intros W H _ Hrun v u v' u' Hv Hu Hv' Hu'.
  apply project_to_3d_inv in Hrun
    as (W0 & H0 & dmin & dmax & Hsize & Hshape & Hmin & Hmax & -> & _).
  subst W H. rewrite Hsize in *. cbn [fst snd] in *.
  assert (dmin <= at2 depth v u <= dmax) as Hb
    by (apply (amin_amax_bounds depth dmin dmax v u Hmin Hmax); rewrite Hshape;
        assumption).
  assert (dmin <= at2 depth v' u' <= dmax) as Hb'
    by (apply (amin_amax_bounds depth dmin dmax v' u' Hmin Hmax); rewrite Hshape;
        assumption).
  exists (np_pixel_point W0 H0 fov depth dmin dmax v u),
         (np_pixel_point W0 H0 fov depth dmin dmax v' u'),
         (depth_z depth dmin dmax v u), (depth_z depth dmin dmax v' u').
  split; [now apply grid_lookup|]. split; [now apply grid_lookup|].
  split; [now apply np_pixel_point_z|]. split; [now apply np_pixel_point_z|].
  apply depth_z_antitone; lra.
Qed.

Lemma project_to_3d_depth_order_witness :
  exists xyz rgb p p' Z Z',
    project_to_3d (blue_image 2 1) ramp_depth 55 = Ok (xyz, rgb) /\
    xyz !! 0%nat = Some p /\ xyz !! 1%nat = Some p' /\
    fz p = Fin Z /\ fz p' = Fin Z' /\ Z' <= Z.
Proof.
  destruct (project_to_3d_depth_order (blue_image 2 1) ramp_depth 55 _ _ eq_refl eq_refl
              0%nat 0%nat 0%nat 1%nat)
    as (p & p' & Z & Z' & Hp & Hp' & Hz & Hz' & Hle);
    [simpl; lia | simpl; lia | simpl; lia | simpl; lia |].
  eexists _, _, p, p', Z, Z'. split; [reflexivity|]. split; [exact Hp|].
  split; [exact Hp'|]. split; [exact Hz|]. split; [exact Hz'|].
  apply Hle. simpl. lra.
Defined.

(** X3: the positions that [project_to_3d] returns project back onto
    their pixels under the matrix of [get_intrinsics].  For a field of view
    in (0, 180) degrees and a depth map of the image's size, the point of
    the pixel in column u, row v has three finite coordinates X, Y, Z with
    Z > 0 and fx * X / Z + cx = u and fy * Y / Z + cy = v. *)
Theorem project_to_3d_reprojects image depth fov xyz rgb :
  let W := fst (size image) in
  let H := snd (size image) in
  let K := get_intrinsics W H fov in
  0 < fov < 180 ->
  shape depth = (H, W) ->
  project_to_3d image depth fov = Ok (xyz, rgb) ->
  forall v u, (v < H)%nat -> (u < W)%nat ->
    exists p,
      xyz !! (v * W + u)%nat = Some (fin3 p) /\
      0 < vz p /\
      k00 K * (vx p / vz p) + k02 K = INR u /\
      k11 K * (vy p / vz p) + k12 K = INR v.
Proof.
  intros W H K Hfov _ Hrun v u Hv Hu.
  apply project_to_3d_inv in Hrun
    as (W0 & H0 & dmin & dmax & Hsize & Hshape & Hmin & Hmax & -> & _).
  subst K W H. rewrite Hsize in *. cbn [fst snd] in *.
  exists (pixel_point W0 H0 fov depth dmin dmax v u).
  assert (dmin <= at2 depth v u <= dmax) as Hb
    by (apply (amin_amax_bounds depth dmin dmax v u Hmin Hmax); rewrite Hshape;
        assumption).
  pose proof (depth_z_range depth dmin dmax v u Hb) as [Hz _].
  assert (0 < depth_z depth dmin dmax v u) as Hz0 by lra.
  assert (0 < 0.5 * INR W0 / tan (0.5 * radians fov)) as Hf
    by (apply focal_pos; [lia | exact Hfov]).
  split.
  { rewrite grid_lookup by assumption. f_equal.
    apply np_pixel_point_fin; [exact Hb | simpl; lra]. }
  unfold pixel_point, vx, vy, vz. cbn [fst snd get_intrinsics k00 k02 k11 k12].
  set (Z := depth_z depth dmin dmax v u) in *.
  set (f := 0.5 * INR W0 / tan (0.5 * radians fov)) in *.
  split; [exact Hz0|]. split; field; lra.
Qed.

Lemma project_to_3d_reprojects_witness :
  0 < 55 < 180 /\
  exists xyz rgb p,
    project_to_3d (blue_image 2 1) ramp_depth 55 = Ok (xyz, rgb) /\
    xyz !! 1%nat = Some (fin3 p) /\
    k00 (get_intrinsics 2 1 55) * (vx p / vz p) + k02 (get_intrinsics 2 1 55) = 1.
Proof.
  split; [lra|].
  destruct (project_to_3d_reprojects (blue_image 2 1) ramp_depth 55 _ _
              ltac:(lra) eq_refl eq_refl 0%nat 1%nat) as (p & Hp & _ & Hx & _);
    [simpl; lia | simpl; lia |].
  eexists _, _, p. split; [reflexivity|]. split; [exact Hp|]. exact Hx.
Defined.

(** X8: [get_default_camera] returns the 4 x 4 identity as view matrix
    and, as K, the rows of the matrix that [get_intrinsics] computes for the
    same width, height and field of view.  The defaults differ: 60 degrees
    here, 55 degrees in [get_intrinsics] and [project_to_3d], so for an
    image of positive width the default camera has a strictly shorter focal
    length than the one the points were projected with. *)
Theorem get_default_camera_intrinsics (w h : nat) (fov : R) :
  fst (get_default_camera w h fov) = identity4 /\
  snd (get_default_camera w h fov) = matrix_rows (get_intrinsics w h fov) /\
  ((0 < w)%nat ->
   k00 (get_intrinsics w h default_fov_degrees) < k00 (get_intrinsics w h default_fov)).
Proof.
  split; [reflexivity|]. split; [reflexivity|].
  intros Hw. cbn [get_intrinsics k00]. unfold default_fov_degrees, default_fov.
  assert (0 < tan (0.5 * radians 55)) as H55 by (apply tan_half_fov_pos; lra).
  assert (tan (0.5 * radians 55) < tan (0.5 * radians 60.0)) as Hlt.
  { pose proof PI_RGT_0. unfold radians.
    apply tan_increasing; lra. }
  assert (0 < INR w) as Hw' by (apply lt_0_INR; exact Hw).
  unfold Rdiv. apply Rmult_lt_compat_l; [lra|].
  apply Rinv_lt_contravar; [|exact Hlt]. apply Rmult_lt_0_compat; lra.
Qed.

Lemma get_default_camera_intrinsics_witness :
  (0 < 4)%nat /\
  k00 (get_intrinsics 4 4 default_fov_degrees) < k00 (get_intrinsics 4 4 default_fov).
Proof.
  split; [lia|]. apply (get_default_camera_intrinsics 4 4 60.0). lia.
Defined.

Close Scope R_scope.

(** * Further properties of the PLY codec *)

Lemma emap_shape n c f a : has_shape n c a -> has_shape n c (emap f a).
Proof.
  intros [Hn Hc]. unfold emap. split; [now rewrite length_map|].
  apply Forall_map. eapply Forall_impl; [exact Hc|].
  intros r Hr. simpl. now rewrite length_map.
Qed.

Lemma replicate_shape n (r : list R) : has_shape n (length r) (replicate n r).
Proof.
  split; [apply length_replicate|]. apply Forall_forall.
  intros x Hx. apply elem_of_replicate in Hx as [-> _]. reflexivity.
Qed.

Lemma full_shape n c v : has_shape n c (full n c v).
Proof.
  unfold full. pose proof (replicate_shape n (replicate c v)) as Hs.
  now rewrite length_replicate in Hs.
Qed.

Lemma emap_full f n c v : emap f (full n c v) = full n c (f v).
Proof. unfold emap, full. now rewrite !fmap_replicate. Qed.

Lemma emap_emap f g (a : array) : emap f (emap g a) = emap (fun x => f (g x)) a.
Proof.
  unfold emap. rewrite map_map. apply map_ext. intros r. now rewrite map_map.
Qed.

Section PlainWriter.
Context `{Float32}.

Lemma float32_full n c (k : Z) :
  (Z.abs k <= 16777216)%Z -> emap float32 (full n c (IZR k)) = full n c (IZR k).
Proof. intros Hk. rewrite emap_full. now rewrite float32_integer. Qed.

Lemma float32_zeros_like (a : array) :
  emap float32 (zeros_like a) = zeros_like (emap float32 a).
Proof.
  unfold zeros_like. rewrite !emap_emap. unfold emap.
  apply map_ext. intros r. apply map_ext. intros x.
  apply (float32_integer 0). lia.
Qed.

Lemma float32_unit_rotations n :
  emap float32 (replicate n [1; 0; 0; 0]%R) = replicate n [1; 0; 0; 0]%R.
Proof.
  unfold emap. rewrite fmap_replicate. f_equal. simpl.
  rewrite (float32_integer 1), (float32_integer 0) by lia. reflexivity.
Qed.

Lemma geometry_save_ply_runs n xyz rgb path w :
  has_shape n 3 xyz -> has_shape n 3 rgb ->
  Geometry.save_ply xyz rgb path w
  = Ok (tt, {| heap := heap w;
               files := <[path := [saved_element (emap float32 xyz)
                   (emap float32
                      (emap (fun c => (c / Geometry.C0)%R)
                            (emap (fun c => (c - 0.5)%R) rgb)))
                   (full n 1 100%R) (full n 3 (-4)%R)
                   (replicate n [1; 0; 0; 0]%R)]]> (files w);
               stdout := stdout w |}).
Proof.
  intros Hxyz Hrgb.
  assert (length xyz = n) as Hn by apply Hxyz.
  assert (has_shape n 3 (emap float32 xyz)) as Hx4 by auto using emap_shape.
  pose proof (zeros_like_shape _ _ _ Hx4) as Hnorm.
  assert (emap (fun o => (o * 100.0)%R) (full n 1 1%R) = full n 1 (IZR 100)) as Eo.
  { rewrite emap_full. f_equal. lra. }
  assert (emap (fun s => (s * -4.0)%R) (full n 3 1%R) = full n 3 (IZR (-4))) as Es.
  { rewrite emap_full. f_equal. lra. }
  unfold Geometry.save_ply, bind, lift.
  rewrite Hn, Eo, Es, set_column_zeros, float32_zeros_like, float32_unit_rotations.
  rewrite !float32_full by lia.
  cbn [ply_fields].
  rewrite !(ply_field_shape n 3 _ (emap float32 xyz)) by (auto; lia).
  rewrite !(ply_field_shape n 3 _ (zeros_like (emap float32 xyz))) by (auto; lia).
  rewrite !(ply_field_shape n 3 _ (emap float32 (emap _ (emap _ rgb))))
    by (auto using emap_shape; lia).
  rewrite !(ply_field_shape n 1 _ (full n 1 _)) by (auto using full_shape; lia).
  rewrite !(ply_field_shape n 3 _ (full n 3 _)) by (auto using full_shape; lia).
  rewrite !(ply_field_shape n 4 _ (replicate n _))
    by (first [apply (replicate_shape n [1; 0; 0; 0]%R) | lia]).
  unfold saved_element. rewrite (proj1 Hx4). reflexivity.
Qed.

Lemma geometry_save_ply_loads n xyz rgb path w :
  has_shape n 3 xyz -> has_shape n 3 rgb ->
  exists w1,
    Geometry.save_ply xyz rgb path w = Ok (tt, w1) /\
    load_ply path w1
    = Ok (emap float32 xyz,
          emap (fun c => clip 0.0 1.0
                           (float32 ((c - 0.5) / Geometry.C0) * SH_C0 + 0.5)%R) rgb,
          w1).
Proof.
  intros Hxyz Hrgb.
  pose proof (geometry_save_ply_runs n xyz rgb path w Hxyz Hrgb) as Hrun.
  eexists. split; [exact Hrun|].
  erewrite (load_ply_saved n);
    [| simpl; apply lookup_insert_eq | auto using emap_shape
     | auto using emap_shape].
  rewrite !emap_emap. reflexivity.
Qed.

(** X5: for N positions and N colours, [save_ply] of
    [src/core/geometry.py] writes one element, named vertex, of N records
    with the seventeen properties x, y, z, nx, ny, nz, f_dc_0..2, opacity,
    scale_0..2, rot_0..3 in this order, and touches neither the heap nor the
    standard output.  The file holds the positions narrowed to float32, the
    narrowed (colour - 0.5) / C0 as f_dc, and opacity 100, scale -4 and
    rotation (1, 0, 0, 0) in every record.  [load_ply] of
    [src/run_optimization.py] reads from it the narrowed positions and the
    colours clip(f_dc * C0 + 0.5); positions that are float32 numbers
    already are read back as they were given. *)
Theorem geometry_save_ply_reload n xyz rgb path w :
  has_shape n 3 xyz -> has_shape n 3 rgb ->
  exists w1 el,
    Geometry.save_ply xyz rgb path w = Ok (tt, w1) /\
    heap w1 = heap w /\ stdout w1 = stdout w /\
    files w1 = <[path := [el]]> (files w) /\
    el_name el = "vertex" /\ el_count el = n /\
    map p_name (el_properties el)
      = ["x"; "y"; "z"; "nx"; "ny"; "nz"; "f_dc_0"; "f_dc_1"; "f_dc_2"; "opacity";
         "scale_0"; "scale_1"; "scale_2"; "rot_0"; "rot_1"; "rot_2"; "rot_3"] /\
    read_fields ["x"; "y"; "z"] el = Ok (emap float32 xyz) /\
    read_fields ["f_dc_0"; "f_dc_1"; "f_dc_2"] el
      = Ok (emap (fun c => float32 ((c - 0.5) / Geometry.C0)%R) rgb) /\
    read_fields ["opacity"] el = Ok (replicate n [100%R]) /\
    read_fields ["scale_0"; "scale_1"; "scale_2"] el
      = Ok (replicate n [-4; -4; -4]%R) /\
    read_fields ["rot_0"; "rot_1"; "rot_2"; "rot_3"] el
      = Ok (replicate n [1; 0; 0; 0]%R) /\
    load_ply path w1
    = Ok (emap float32 xyz,
          emap (fun c => clip 0.0 1.0
                           (float32 ((c - 0.5) / Geometry.C0) * SH_C0 + 0.5)%R) rgb,
          w1) /\
    (float32_array xyz -> exists colors, load_ply path w1 = Ok (xyz, colors, w1)).
Proof.
  intros Hxyz Hrgb.
  set (f_dc := emap float32
                 (emap (fun c => (c / Geometry.C0)%R) (emap (fun c => (c - 0.5)%R) rgb))).
  assert (has_shape n 3 f_dc) as Hf by (unfold f_dc; auto using emap_shape).
  assert (has_shape n 3 (emap float32 xyz)) as Hx4 by auto using emap_shape.
  assert (f_dc = emap (fun c => float32 ((c - 0.5) / Geometry.C0)%R) rgb) as Ef
    by (unfold f_dc; now rewrite !emap_emap).
  pose proof (geometry_save_ply_runs n xyz rgb path w Hxyz Hrgb) as Hrun.
  fold f_dc in Hrun.
  set (el := saved_element (emap float32 xyz) f_dc (full n 1 100%R) (full n 3 (-4)%R)
               (replicate n [1; 0; 0; 0]%R)) in *.
  set (w1 := {| heap := heap w; files := <[path := [el]]> (files w);
                stdout := stdout w |}) in *.
  destruct (read_saved_fields n (emap float32 xyz) (full n 3 (-4)%R)
              (replicate n [1; 0; 0; 0]%R)
              (full n 1 100%R) f_dc Hx4 (full_shape n 3 _)
              (replicate_shape n [1; 0; 0; 0]%R) (full_shape n 1 _) Hf)
    as (Rx & Rf & Ro & Rs & Rq).
  assert (load_ply path w1
          = Ok (emap float32 xyz,
                emap (fun c => clip 0.0 1.0
                        (float32 ((c - 0.5) / Geometry.C0) * SH_C0 + 0.5)%R) rgb,
                w1)) as Hload.
  { rewrite (load_ply_saved n path w1 (emap float32 xyz) (full n 3 (-4)%R)
               (replicate n [1; 0; 0; 0]%R) (full n 1 100%R) f_dc);
      [|unfold w1; simpl; apply lookup_insert_eq | exact Hx4 | exact Hf].
    rewrite Ef, !emap_emap. reflexivity. }
  exists w1, el. split; [exact Hrun|]. split; [reflexivity|]. split; [reflexivity|].
  split; [reflexivity|]. split; [reflexivity|].
  split; [apply Hx4|]. split; [reflexivity|].
  split; [exact Rx|]. split; [now rewrite <- Ef|]. split; [exact Ro|].
  split; [exact Rs|]. split; [exact Rq|].
  split; [exact Hload|].
  intros Hfl. eexists. rewrite Hload. f_equal. f_equal. f_equal.
  unfold float32_array in Hfl. unfold emap.
  rewrite <- (map_id xyz) at 2. apply map_ext_in. intros r Hr.
  rewrite List.Forall_forall in Hfl. specialize (Hfl r Hr).
  rewrite <- (map_id r) at 2. apply map_ext_in. intros x Hx.
  rewrite List.Forall_forall in Hfl. now apply Hfl.
Qed.

Lemma ply_field_row n name (r : list R) j :
  (j < length r)%nat ->
  ply_field n name [r] j
  = Ok {| p_name := name; p_dtype := F4; p_values := replicate n (nth j r 0%R) |}.
Proof.
  intros Hj. unfold ply_field. simpl.
  destruct (lookup_lt_is_Some_2 r j Hj) as [x Hx]. rewrite Hx. simpl.
  rewrite (nth_lookup_default r j 0%R x Hx).
  unfold assign_field. simpl. destruct n as [|[|n]]; reflexivity.
Qed.

Lemma ply_field_mismatch n m name (a : array) j :
  has_shape m 3 a -> (j < 3)%nat -> m <> n -> m <> 1%nat ->
  ply_field n name a j = Raise ValueError.
Proof.
  intros Ha Hj Hmn Hm1. unfold ply_field.
  rewrite (column_shape m 3 a j Ha Hj). simpl.
  unfold assign_field. rewrite length_col.
  destruct Ha as [Hm _]. rewrite Hm.
  destruct (Nat.eqb_spec m n) as [E|_]; [contradiction|].
  pose proof (length_col j a) as Hl. rewrite Hm in Hl.
  destruct (col j a) as [|x [|y l]]; simpl in *; [reflexivity | lia | reflexivity].
Qed.

Lemma stack3_replicate n (a b c : R) :
  stack3 (replicate n a) (replicate n b) (replicate n c) = Ok (replicate n [a; b; c]).
Proof.
  unfold stack3. rewrite !length_replicate, Nat.eqb_refl. simpl. f_equal.
  apply list_eq. intros i. rewrite list_lookup_fmap.
  destruct (decide (i < n)) as [Hi|Hi].
  - rewrite lookup_seq_lt by exact Hi. simpl.
    rewrite (lookup_replicate_2 n [a; b; c] i Hi). f_equal.
    rewrite !(nth_lookup_default _ i 0%R _ (lookup_replicate_2 n _ i Hi)).
    reflexivity.
  - rewrite lookup_seq_ge by lia. simpl. symmetry.
    apply lookup_ge_None. rewrite length_replicate. lia.
Qed.

(** X6: [save_ply] of [src/core/geometry.py] does not check that it gets
    as many colours as positions.  With N positions and a number of colour
    rows other than N, a single colour row is broadcast to every record
    (the file then reads back with that one colour, encoded, narrowed,
    decoded and clipped, at each of the N points), and any other number of
    rows ends in ValueError at the assignment of f_dc_0, before anything is
    written. *)
Theorem geometry_save_ply_color_rows n m xyz rgb path w :
  has_shape n 3 xyz -> has_shape m 3 rgb -> m <> n ->
  match rgb with
  | [c] =>
      exists w1,
        Geometry.save_ply xyz rgb path w = Ok (tt, w1) /\
        load_ply path w1
        = Ok (emap float32 xyz,
              replicate n
                (map (fun x => clip 0.0 1.0
                        (float32 ((x - 0.5) / Geometry.C0) * SH_C0 + 0.5)%R) c),
              w1)
  | _ => Geometry.save_ply xyz rgb path w = Raise ValueError
  end.
Proof.
  intros Hxyz Hrgb Hmn.
  assert (has_shape n 3 (emap float32 xyz)) as Hx4 by auto using emap_shape.
  pose proof (zeros_like_shape _ _ _ Hx4) as Hnorm.
  assert (length xyz = n) as Hn by apply Hxyz.
  assert (m <> 1%nat ->
          Geometry.save_ply xyz rgb path w = Raise ValueError) as Hfail.
  { intros Hm1. unfold Geometry.save_ply, bind, lift.
    rewrite Hn, float32_zeros_like. cbn [ply_fields].
    rewrite !(ply_field_shape n 3 _ (emap float32 xyz)) by (auto; lia).
    rewrite !(ply_field_shape n 3 _ (zeros_like (emap float32 xyz))) by (auto; lia).
    rewrite (ply_field_mismatch n m "f_dc_0" _ 0)
      by (auto using emap_shape; lia).
    reflexivity. }
  destruct rgb as [|c [|c' rgb]].
  - apply Hfail. destruct Hrgb as [<- _]. simpl. lia.
  - destruct Hrgb as [_ Hc]. apply Forall_cons in Hc as [Hc _].
    destruct c as [|c0 [|c1 [|c2 [|]]]]; try discriminate. clear Hfail.
    eexists. split.
    + unfold Geometry.save_ply, bind, lift.
      rewrite Hn, float32_zeros_like. cbn [ply_fields].
      rewrite !(ply_field_shape n 3 _ (emap float32 xyz)) by (auto; lia).
      rewrite !(ply_field_shape n 3 _ (zeros_like (emap float32 xyz))) by (auto; lia).
      cbn [emap map].
      rewrite !ply_field_row by (simpl; lia).
      assert (emap (fun o => (o * 100.0)%R) (full n 1 1%R) = full n 1 (IZR 100)) as Eo
        by (rewrite emap_full; f_equal; lra).
      assert (emap (fun s => (s * -4.0)%R) (full n 3 1%R) = full n 3 (IZR (-4))) as Es
        by (rewrite emap_full; f_equal; lra).
      fold (emap float32 (emap (fun o => (o * 100.0)%R) (full n 1 1%R))).
      fold (emap float32 (emap (fun s => (s * -4.0)%R) (full n 3 1%R))).
      fold (emap float32 (set_column 0 1.0%R (zeros n 4))).
      rewrite Eo, Es, set_column_zeros, float32_unit_rotations.
      rewrite !float32_full by lia.
      rewrite !(ply_field_shape n 1 _ (full n 1 _)) by (auto using full_shape; lia).
      rewrite !(ply_field_shape n 3 _ (full n 3 _)) by (auto using full_shape; lia).
      rewrite !(ply_field_shape n 4 _ (replicate n _))
        by (first [apply (replicate_shape n [1; 0; 0; 0]%R) | lia]).
      reflexivity.
    + unfold load_ply, bind, PlyData_read. cbn [files]. rewrite lookup_insert_eq.
      cbn. rewrite (stack3_cols n _ Hx4), stack3_replicate. cbn [lift]. unfold ret.
      match goal with
      | |- Ok (_, ?a, _) = Ok (_, ?b, _) => replace a with b; [reflexivity|]
      end.
      unfold emap. rewrite !fmap_replicate. reflexivity.
  - apply Hfail. destruct Hrgb as [<- _]. simpl. lia.
Qed.

Lemma rows_of_shape (l : list vec3) : has_shape (length l) 3 (rows_of l).
Proof.
  unfold rows_of. split; [apply length_map|].
  apply Forall_map, Forall_forall. intros p _. reflexivity.
Qed.

Lemma grid_ext_in {A} (f g : nat -> nat -> A) rows cols :
  (forall v u, (v < rows)%nat -> (u < cols)%nat -> f v u = g v u) ->
  grid f rows cols = grid g rows cols.
Proof.
  intros Hfg. unfold grid. rewrite !flat_map_concat_map. f_equal.
  apply map_ext_in. intros v Hv%in_seq. apply map_ext_in. intros u Hu%in_seq.
  apply Hfg; lia.
Qed.

(** X7: the path of [main.py].  For a field of view in (0, 180) degrees
    and a depth map of the image's size, the width * height positions that
    [project_to_3d] returns are finite, they and the colours are accepted
    by [save_ply] of [src/core/geometry.py], and [load_ply] reads from the
    file the positions narrowed to float32 and, for each colour c of the
    image, clip(f * C0 + 0.5) with f the narrowed (c - 0.5) / C0. *)
Theorem project_save_load image depth fov xyz rgb path w :
  (0 < fov < 180)%R ->
  shape depth = (snd (size image), fst (size image)) ->
  project_to_3d image depth fov = Ok (xyz, rgb) ->
  exists pts w1,
    xyz = map fin3 pts /\
    length pts = (fst (size image) * snd (size image))%nat /\
    Geometry.save_ply (rows_of pts) (rows_of rgb) path w = Ok (tt, w1) /\
    load_ply path w1
    = Ok (emap float32 (rows_of pts),
          emap (fun c => clip 0.0 1.0
                           (float32 ((c - 0.5) / Geometry.C0) * SH_C0 + 0.5)%R)
               (rows_of rgb),
          w1).
Proof.
  intros Hfov _ Hrun.
  apply project_to_3d_inv in Hrun
    as (W & H0 & dmin & dmax & Hsize & Hshape & Hmin & Hmax & -> & ->).
  set (pts := grid (pixel_point W H0 fov depth dmin dmax) H0 W).
  assert (length pts = (H0 * W)%nat) as Lx by apply grid_length.
  assert (length (image_rgb image) = (H0 * W)%nat) as Lr.
  { unfold image_rgb. rewrite Hsize. apply grid_length. }
  pose proof (rows_of_shape pts) as Sx. rewrite Lx in Sx.
  pose proof (rows_of_shape (image_rgb image)) as Sr. rewrite Lr in Sr.
  destruct (geometry_save_ply_loads _ _ _ path w Sx Sr) as (w1 & Hsave & Hload).
  exists pts, w1. split; [|split; [|split; [exact Hsave | exact Hload]]].
  - unfold pts. rewrite grid_map. apply grid_ext_in. intros v u Hv Hu.
    apply np_pixel_point_fin.
    + apply (amin_amax_bounds depth dmin dmax v u Hmin Hmax); rewrite Hshape;
        assumption.
    + assert (0 < W)%nat as HW by lia.
      pose proof (focal_pos W fov HW Hfov). simpl. lra.
  - rewrite Lx, Hsize. simpl. lia.
Qed.

End PlainWriter.

Lemma geometry_save_ply_reload_witness :
  has_shape 1 3 [[1; 2; 3]%R] /\ has_shape 1 3 [[0; 0; 1]%R] /\
  @float32_array exact_float32 [[1; 2; 3]%R] /\
  exists w1 colors,
    @Geometry.save_ply exact_float32 [[1; 2; 3]%R] [[0; 0; 1]%R] "cloud.ply" bare_world
    = Ok (tt, w1) /\
    load_ply "cloud.ply" w1 = Ok ([[1; 2; 3]%R], colors, w1).
Proof.
  assert (has_shape 1 3 [[1; 2; 3]%R]) as Hx by (split; [reflexivity | repeat constructor]).
  assert (has_shape 1 3 [[0; 0; 1]%R]) as Hc by (split; [reflexivity | repeat constructor]).
  assert (@float32_array exact_float32 [[1; 2; 3]%R]) as Hf by (repeat constructor).
  split; [exact Hx|]. split; [exact Hc|]. split; [exact Hf|].
  destruct (@geometry_save_ply_reload exact_float32 1 [[1; 2; 3]%R] [[0; 0; 1]%R]
              "cloud.ply" bare_world Hx Hc)
    as (w1 & el & Hrun & _ & _ & _ & _ & _ & _ & _ & _ & _ & _ & _ & _ & Hback).
  destruct (Hback Hf) as (colors & Hload).
  exists w1, colors. split; [exact Hrun | exact Hload].
Defined.

Lemma geometry_save_ply_color_rows_witness :
  has_shape 2 3 [[1; 2; 3]; [4; 5; 6]]%R /\ has_shape 1 3 [[0; 0; 1]%R] /\
  exists w1 points colors,
    @Geometry.save_ply exact_float32 [[1; 2; 3]; [4; 5; 6]]%R [[0; 0; 1]%R]
      "cloud.ply" bare_world
      = Ok (tt, w1) /\
    load_ply "cloud.ply" w1 = Ok (points, colors, w1) /\
    length colors = 2%nat.
Proof.
  assert (has_shape 2 3 [[1; 2; 3]; [4; 5; 6]]%R) as Hx
    by (split; [reflexivity | repeat constructor]).
  assert (has_shape 1 3 [[0; 0; 1]%R]) as Hc by (split; [reflexivity | repeat constructor]).
  split; [exact Hx|]. split; [exact Hc|].
  destruct (@geometry_save_ply_color_rows exact_float32 2 1 _ _ "cloud.ply" bare_world
              Hx Hc ltac:(lia)) as (w1 & Hsave & Hload).
  eexists w1, _, _. split; [exact Hsave|]. split; [exact Hload | reflexivity].
Defined.

Lemma project_save_load_witness :
  (0 < 55 < 180)%R /\
  exists xyz rgb pts w1 points colors,
    project_to_3d (blue_image 2 1) ramp_depth 55 = Ok (xyz, rgb) /\
    xyz = map fin3 pts /\ length pts = 2%nat /\
    @Geometry.save_ply exact_float32 (rows_of pts) (rows_of rgb) "cloud.ply" bare_world
    = Ok (tt, w1) /\
    load_ply "cloud.ply" w1 = Ok (points, colors, w1).
Proof.
  split; [lra|].
  destruct (@project_save_load exact_float32 (blue_image 2 1) ramp_depth 55 _ _
              "cloud.ply" bare_world ltac:(lra) eq_refl eq_refl)
    as (pts & w1 & Hxyz & Hlen & Hsave & Hload).
  eexists _, _, pts, w1, _, _. split; [reflexivity|]. split; [exact Hxyz|].
  split; [exact Hlen|]. split; [exact Hsave | exact Hload].
Defined.

(** ** The outcomes of [load_ply] *)

Lemma get_element_ok name d el :
  get_element name d = Ok el -> el ∈ d /\ el_name el = name.
Proof.
  induction d as [|e d IH]; simpl; [discriminate|].
  destruct (String.eqb (el_name e) name) eqn:E.
  - intros [= <-]. split; [apply list_elem_of_here | now apply String.eqb_eq].
  - intros Hd. destruct (IH Hd) as [Hin Hn].
    split; [now apply list_elem_of_further | exact Hn].
Qed.

Lemma get_element_raise name d e :
  get_element name d = Raise e ->
  e = KeyError /\ Forall (fun el => el_name el <> name) d.
Proof.
  induction d as [|x d IH]; simpl.
  - intros [= <-]. split; [reflexivity | constructor].
  - destruct (String.eqb (el_name x) name) eqn:E; [discriminate|].
    intros Hd. destruct (IH Hd) as [-> Hall]. split; [reflexivity|].
    constructor; [now apply String.eqb_neq | exact Hall].
Qed.

Lemma get_element_absent name d :
  Forall (fun el => el_name el <> name) d -> get_element name d = Raise KeyError.
Proof.
  induction 1 as [|x d Hx _ IH]; simpl; [reflexivity|].
  apply String.eqb_neq in Hx. now rewrite Hx.
Qed.

Lemma get_property_raise name el e : get_property name el = Raise e -> e = ValueError.
Proof. unfold get_property. destruct (find _ _); now intros [= <-]. Qed.

Lemma stack3_raise x y z e : stack3 x y z = Raise e -> e = ValueError.
Proof. unfold stack3. destruct (_ && _); now intros [= <-]. Qed.

Lemma stack_columns_shape n cols : has_shape n (length cols) (stack_columns n cols).
Proof.
  split; [apply length_stack_columns|]. unfold stack_columns.
  apply Forall_map, Forall_forall. intros i _. simpl. apply length_map.
Qed.

(** [load_ply] on a vertex block with one value per record in each column. *)
Lemma load_ply_vertex path w d vertex :
  files w !! path = Some d ->
  get_element "vertex" d = Ok vertex ->
  element_consistent vertex ->
  let has := fun name => has_property name vertex in
  if has "x" && has "y" && has "z"
  then exists points colors w',
         load_ply path w = Ok (points, colors, w') /\
         has_shape (el_count vertex) 3 points /\
         has_shape (el_count vertex) 3 colors /\
         heap w' = heap w /\ files w' = files w /\
         (stdout w' = stdout w \/ stdout w' = stdout w ++ [NoColorWarning])
  else load_ply path w = Raise ValueError.
Proof.
  intros Hfile Hvertex Hcons has.
  destruct (has "x" && has "y" && has "z") eqn:Hxyz.
  - apply andb_true_iff in Hxyz as [Hxyz Hz].
    apply andb_true_iff in Hxyz as [Hx Hy].
    destruct (get_property_present "x" vertex Hcons Hx) as (x & Ex & Lx).
    destruct (get_property_present "y" vertex Hcons Hy) as (y & Ey & Ly).
    destruct (get_property_present "z" vertex Hcons Hz) as (z & Ez & Lz).
    pose proof (stack_columns_shape (el_count vertex) [x; y; z]) as Sp.
    unfold load_ply, bind, PlyData_read. rewrite Hfile. unfold lift at 1.
    rewrite Hvertex, Ex, Ey, Ez. cbn [lift].
    rewrite (stack3_columns _ x y z Lx Ly Lz).
    fold (has "red") (has "green") (has "blue").
    destruct (has "red" && has "green" && has "blue") eqn:Hrgb.
    + apply andb_true_iff in Hrgb as [Hrgb Hb].
      apply andb_true_iff in Hrgb as [Hr Hg].
      destruct (get_property_present "red" vertex Hcons Hr) as (r & Er & Lr).
      destruct (get_property_present "green" vertex Hcons Hg) as (g & Eg & Lg).
      destruct (get_property_present "blue" vertex Hcons Hb) as (b & Eb & Lb).
      rewrite Er, Eg, Eb. cbn [lift]. rewrite (stack3_columns _ r g b Lr Lg Lb).
      eexists _, _, _. split; [reflexivity|]. split; [exact Sp|].
      split; [apply emap_shape, (stack_columns_shape _ [r; g; b])|]. auto.
    + fold (has "f_dc_0") (has "f_dc_1") (has "f_dc_2").
      destruct (has "f_dc_0" && has "f_dc_1" && has "f_dc_2") eqn:Hfdc.
      * apply andb_true_iff in Hfdc as [Hfdc H2].
        apply andb_true_iff in Hfdc as [H0 H1].
        destruct (get_property_present "f_dc_0" vertex Hcons H0) as (f0 & E0 & L0).
        destruct (get_property_present "f_dc_1" vertex Hcons H1) as (f1 & E1 & L1).
        destruct (get_property_present "f_dc_2" vertex Hcons H2) as (f2 & E2 & L2).
        rewrite E0, E1, E2. cbn [lift]. rewrite (stack3_columns _ f0 f1 f2 L0 L1 L2).
        eexists _, _, _. split; [reflexivity|]. split; [exact Sp|].
        split; [apply emap_shape, emap_shape, (stack_columns_shape _ [f0; f1; f2])|].
        auto.
      * eexists _, _, _. split; [reflexivity|]. split; [exact Sp|].
        split; [apply emap_shape, Sp|]. simpl. auto.
  - unfold load_ply, bind, PlyData_read. rewrite Hfile. unfold lift at 1.
    rewrite Hvertex.
    destruct (has "x") eqn:Hx.
    + destruct (get_property_present "x" vertex Hcons Hx) as (x & -> & _).
      destruct (has "y") eqn:Hy.
      * destruct (get_property_present "y" vertex Hcons Hy) as (y & -> & _).
        simpl in Hxyz. now rewrite (get_property_absent "z" vertex Hxyz).
      * now rewrite (get_property_absent "y" vertex Hy).
    + now rewrite (get_property_absent "x" vertex Hx).
Qed.

(** Whatever the columns of the vertex block are, the only exception that
    [load_ply] raises after it has found the block is ValueError. *)
Lemma load_ply_vertex_raise path w d vertex e :
  files w !! path = Some d ->
  get_element "vertex" d = Ok vertex ->
  load_ply path w = Raise e -> e = ValueError.
Proof.
  intros Hfile Hvertex. unfold load_ply, bind, PlyData_read. rewrite Hfile.
  unfold lift at 1. rewrite Hvertex. unfold lift, ret, print.
  repeat match goal with
         | |- context [get_property ?n vertex] =>
             let E := fresh "E" in
             destruct (get_property n vertex) eqn:E;
             [|apply get_property_raise in E; intros [= <-]; exact E]
         | |- context [stack3 ?x ?y ?z] =>
             let E := fresh "E" in
             destruct (stack3 x y z) eqn:E;
             [|apply stack3_raise in E; intros [= <-]; exact E]
         | |- context [if ?b then _ else _] => destruct b
         end; discriminate.
Qed.

(** X9: the errors of [load_ply], on a file system whose files are PLY
    files.  A missing file gives FileNotFoundError and a file without a
    vertex element KeyError.  These and ValueError are the only errors, each
    with its cause: FileNotFoundError only for a missing file, KeyError only
    without a vertex element, and ValueError, when the columns of the vertex
    element have one value per record, only when x, y or z is missing. *)
Theorem load_ply_errors path w :
  (files w !! path = None -> load_ply path w = Raise FileNotFoundError) /\
  (forall d : PlyData, files w !! path = Some d ->
             Forall (fun el => el_name el <> "vertex") d ->
             load_ply path w = Raise KeyError) /\
  (forall e, load_ply path w = Raise e ->
     match e with
     | FileNotFoundError => files w !! path = None
     | KeyError =>
         exists d : PlyData, files w !! path = Some d /\
                   Forall (fun el => el_name el <> "vertex") d
     | ValueError =>
         exists (d : PlyData) vertex,
           files w !! path = Some d /\ get_element "vertex" d = Ok vertex /\
           (element_consistent vertex ->
            has_property "x" vertex && has_property "y" vertex
            && has_property "z" vertex = false)
     | _ => False
     end).
Proof.
  split; [|split].
  - intros Hfile. unfold load_ply, bind, PlyData_read. now rewrite Hfile.
  - intros d Hfile Hd. unfold load_ply, bind, PlyData_read. rewrite Hfile.
    unfold lift at 1. now rewrite (get_element_absent _ _ Hd).
  - intros e Hraise. destruct (files w !! path) as [d|] eqn:Hfile.
    + destruct (get_element "vertex" d) as [vertex|e'] eqn:Hvertex.
      * rewrite (load_ply_vertex_raise path w d vertex e Hfile Hvertex Hraise).
        exists d, vertex. split; [reflexivity|]. split; [exact Hvertex|].
        intros Hcons.
        pose proof (load_ply_vertex path w d vertex Hfile Hvertex Hcons) as Hv.
        cbv zeta in Hv.
        destruct (has_property "x" vertex && has_property "y" vertex
                  && has_property "z" vertex); [|reflexivity].
        destruct Hv as (p & c & w' & Hok & _). congruence.
      * apply get_element_raise in Hvertex as [-> Hd].
        assert (load_ply path w = Raise KeyError) as Hk.
        { unfold load_ply, bind, PlyData_read. rewrite Hfile.
          unfold lift at 1. now rewrite (get_element_absent _ _ Hd). }
        rewrite Hk in Hraise. injection Hraise as <-. eauto.
    + assert (load_ply path w = Raise FileNotFoundError) as Hk.
      { unfold load_ply, bind, PlyData_read. now rewrite Hfile. }
      rewrite Hk in Hraise. injection Hraise as <-. reflexivity.
Qed.

(** X10: when the columns of every stored element have one value per
    record and [load_ply] returns, the file has a vertex element of N
    records, positions and colours both have the shape (N, 3), heap and
    files are as before, and the standard output is unchanged or longer by
    the one warning that no colour was found. *)
Theorem load_ply_shape path w points colors w' :
  files_consistent w ->
  load_ply path w = Ok (points, colors, w') ->
  exists d vertex,
    files w !! path = Some d /\ get_element "vertex" d = Ok vertex /\
    has_shape (el_count vertex) 3 points /\
    has_shape (el_count vertex) 3 colors /\
    heap w' = heap w /\ files w' = files w /\
    (stdout w' = stdout w \/ stdout w' = stdout w ++ [NoColorWarning]).
Proof.
  intros Hcons Hok.
  destruct (files w !! path) as [d|] eqn:Hfile.
  2: { unfold load_ply, bind, PlyData_read in Hok. now rewrite Hfile in Hok. }
  destruct (get_element "vertex" d) as [vertex|e] eqn:Hvertex.
  2: { unfold load_ply, bind, PlyData_read in Hok. rewrite Hfile in Hok.
       unfold lift at 1 in Hok. now rewrite Hvertex in Hok. }
  destruct (get_element_ok _ _ _ Hvertex) as [Hin _].
  pose proof (load_ply_vertex path w d vertex Hfile Hvertex
                (Hcons path d vertex Hfile Hin)) as Hv.
  cbv zeta in Hv.
  destruct (has_property "x" vertex && has_property "y" vertex
            && has_property "z" vertex); [|congruence].
  destruct Hv as (p & c & w1 & Hok' & Hp & Hc & Hrest).
  rewrite Hok in Hok'. injection Hok' as -> -> ->.
  exists d, vertex. auto.
Qed.

Lemma bare_world_consistent : files_consistent bare_world.
Proof.
  intros path d el Hfile Hel. unfold bare_world in Hfile. simpl in Hfile.
  apply lookup_insert_Some in Hfile as [[_ <-] | [_ Hfile]].
  - apply list_elem_of_singleton in Hel as ->. apply bare_vertex_consistent.
  - rewrite lookup_empty in Hfile. discriminate.
Qed.

Lemma load_ply_shape_witness :
  files_consistent bare_world /\
  exists points colors w',
    load_ply "cloud.ply" bare_world = Ok (points, colors, w') /\
    has_shape 1 3 points /\ has_shape 1 3 colors /\
    stdout w' = [NoColorWarning].
Proof.
  split; [apply bare_world_consistent|].
  assert (exists points colors w',
            load_ply "cloud.ply" bare_world = Ok (points, colors, w')) as (p & c & w' & Hok).
  { pose proof (load_ply_vertex "cloud.ply" bare_world [bare_vertex] bare_vertex
                  eq_refl eq_refl bare_vertex_consistent) as Hv.
    simpl in Hv. destruct Hv as (p & c & w' & Hok & _). eauto. }
  destruct (load_ply_shape "cloud.ply" bare_world p c w' bare_world_consistent Hok)
    as (d & vertex & Hfile & Hvertex & Hp & Hc & _ & _ & Hout).
  injection Hfile as <-. injection Hvertex as <-.
  exists p, c, w'. split; [exact Hok|]. split; [exact Hp|]. split; [exact Hc|].
  unfold load_ply, bind, PlyData_read in Hok. simpl in Hok.
  injection Hok as _ _ <-. reflexivity.
Defined.

(** ** The constructor followed by the writer and the reader *)

(** X11: constructing a [GaussianOptimizer] from N positions and N
    colours and saving it at once with its [save_ply] prints the two lines
    of the constructor and of the writer, leaves the heap as the
    constructor made it, and writes a file from which [load_ply] reads the
    positions that the constructor stored and, for every stored SH0
    coefficient f, the colour clip(f * C0 + 0.5). *)
Theorem init_save_load points colors dev path w (P C : array) :
  heap w !! points = Some (NdArray P) ->
  heap w !! colors = Some (NdArray C) ->
  has_shape (length P) 3 P -> has_shape (length P) 3 C ->
  exists self w1 w2 xyz c0,
    __init__ points colors dev w = Ok (self, w1) /\
    data_at w1 (means self) = Some xyz /\
    data_at w1 (sh0 self) = Some c0 /\
    save_ply self path w1 = Ok (tt, w2) /\
    heap w2 = heap w1 /\
    stdout w2 = stdout w ++ [InitLine (length P) dev; SavedLine path] /\
    load_ply path w2
    = Ok (xyz, emap (fun f => clip 0.0 1.0 (f * SH_C0 + 0.5)%R) c0, w2).
Proof.
  intros Hp Hc SP SC.
  destruct (init_spec points colors dev w P C Hp Hc)
    as (self & w1 & Hinit & HN & _ & _ & Hm & Hs & Hq & Ho & Hsh & _ & _ & _ & _ & _
        & _ & Hout).
  apply data_at_lookup in Hm, Hs, Hq, Ho, Hsh. cbn [obj_data] in Hm, Hs, Hq, Ho, Hsh.
  rewrite set_column_zeros in Hq.
  set (c0 := emap (fun c => (c / SH_C0_SCALE)%R) (emap (fun c => (c - 0.5)%R) C)) in *.
  assert (has_shape (length P) 3 c0) as Sc0 by (unfold c0; auto using emap_shape).
  pose proof (save_ply_runs (length P) self path w1 P _ _ _ c0
                Hm SP Hs (full_shape _ 3 _) Hq (replicate_shape _ [1; 0; 0; 0]%R)
                Ho (full_shape _ 1 _) Hsh Sc0) as Hsave.
  match type of Hsave with _ = Ok (tt, ?w2') => set (w2 := w2') in * end.
  exists self, w1, w2, P, c0. split; [exact Hinit|].
  split; [exact Hm|]. split; [exact Hsh|]. split; [exact Hsave|].
  split; [reflexivity|].
  split; [unfold w2; simpl; rewrite Hout, <- app_assoc; reflexivity|].
  erewrite (load_ply_saved (length P) path w2 P);
    [| unfold w2; simpl; apply lookup_insert_eq | exact SP | exact Sc0].
  now rewrite emap_emap.
Qed.

Lemma init_save_load_witness :
  exists self w1 w2 xyz colors,
    __init__ 1%positive 2%positive "cuda" caller_world = Ok (self, w1) /\
    save_ply self "out.ply" w1 = Ok (tt, w2) /\
    load_ply "out.ply" w2 = Ok (xyz, colors, w2).
Proof.
  destruct (init_save_load 1%positive 2%positive "cuda" "out.ply" caller_world
              [[0; 0; 0]%R] [[0.5; 0.5; 0.5]%R] eq_refl eq_refl)
    as (self & w1 & w2 & xyz & c0 & Hinit & _ & _ & Hsave & _ & _ & Hload).
  - split; [reflexivity | repeat constructor].
  - split; [reflexivity | repeat constructor].
  - exists self, w1, w2, xyz. eexists. split; [exact Hinit|].
    split; [exact Hsave | exact Hload].
Defined.

(** ** The first rendering *)

Open Scope R_scope.

Lemma normalize_identity n :
  normalize_rows (replicate n [1; 0; 0; 0]) = replicate n [1; 0; 0; 0].
Proof.
  unfold normalize_rows. rewrite fmap_replicate. f_equal.
  assert (norm [1; 0; 0; 0] = 1) as ->.
  { unfold norm. simpl.
    replace (1 * 1 + (0 * 0 + (0 * 0 + (0 * 0 + 0)))) with 1 by ring.
    apply sqrt_1. }
  simpl. replace (1 / 1) with 1 by field. replace (0 / 1) with 0 by field.
  reflexivity.
Qed.

Lemma sigmoid_0 : sigmoid 0 = 1 / 2.
Proof. unfold sigmoid. rewrite Ropp_0, exp_0. field. Qed.

Section FirstRender.
Context `{Backend}.

(** X12: the first rendering after the constructor.  [render] leaves
    the world as it is and returns an image of the shape (height, width)
    that the rasterizer computes from the stored positions, the unit
    rotation (1, 0, 0, 0), the scale exp(-5) on every axis, the opacity
    1/2 and, for every stored SH0 coefficient f, the colour f * C0 + 0.5:
    the normalisation leaves the initial rotation as it is, and the
    sigmoid of the initial logit 0 is one half. *)
Theorem first_render points colors dev w (P C : array) view_matrix K width height :
  heap w !! points = Some (NdArray P) ->
  heap w !! colors = Some (NdArray C) ->
  exists self w1 im xyz c0,
    __init__ points colors dev w = Ok (self, w1) /\
    data_at w1 (means self) = Some xyz /\
    data_at w1 (sh0 self) = Some c0 /\
    render self view_matrix K width height w1 = Ok (im, w1) /\
    im_shape im = (height, width) /\
    im_at im
    = rasterization xyz (replicate (length xyz) [1; 0; 0; 0])
        (replicate (length xyz) [exp (-5); exp (-5); exp (-5)])
        (replicate (length xyz) [1 / 2])
        (emap (fun f => f * SH_C0_SCALE + 0.5) c0) view_matrix K width height.
Proof.
  intros Hp Hc.
  destruct (init_spec points colors dev w P C Hp Hc)
    as (self & w1 & Hinit & HN & _ & _ & Hm & Hs & Hq & Ho & Hsh & _).
  exists self, w1. eexists. exists P. eexists. split; [exact Hinit|].
  split; [apply (data_at_lookup _ _ _ Hm)|].
  split; [apply (data_at_lookup _ _ _ Hsh)|].
  unfold render, bind, load, ret. rewrite Hs, Hq, Ho, Hsh, Hm.
  cbn [obj_data]. split; [reflexivity|]. split; [reflexivity|].
  cbn [im_at]. rewrite set_column_zeros, normalize_identity.
  unfold zeros. rewrite !emap_full. unfold full. cbn [replicate].
  rewrite sigmoid_0.
  replace (-5.0) with (-5) by lra.
  reflexivity.
Qed.
End FirstRender.

Close Scope R_scope.

Lemma first_render_witness :
  exists self w1 im,
    __init__ 1%positive 2%positive "cuda" caller_world = Ok (self, w1) /\
    @render example_backend self identity4 identity3 1 1 w1 = Ok (im, w1) /\
    im_shape im = (1, 1).
Proof.
  destruct (@first_render example_backend 1%positive 2%positive "cuda" caller_world
              [[0; 0; 0]%R] [[0.5; 0.5; 0.5]%R] identity4 identity3 1 1 eq_refl eq_refl)
    as (self & w1 & im & xyz & c0 & Hinit & _ & _ & Hrender & Hshape & _).
  exists self, w1, im. auto.
Defined.

(** * One optimization step on the store of the constructor *)

Lemma NoDup_six {A} (a b c d e f : A) :
  NoDup [a; b; c; d; e; f] ->
  (a <> b /\ a <> c /\ a <> d /\ a <> e /\ a <> f) /\
  (b <> c /\ b <> d /\ b <> e /\ b <> f) /\
  (c <> d /\ c <> e /\ c <> f) /\ (d <> e /\ d <> f) /\ e <> f.
Proof.
  rewrite !NoDup_cons, !not_elem_of_cons. tauto.
Qed.

(** Looking up a reference in a heap that is written as a chain of
    insertions, given that the references are known to differ. *)
Ltac heap_lookup :=
  cbn [heap set_heap files stdout];
  repeat first
    [ rewrite lookup_insert_eq
    | rewrite lookup_insert_ne by (first [assumption | apply not_eq_sym; assumption]) ];
  first [reflexivity | eassumption].

Ltac run_load :=
  apply runs_bind; eapply runs_load; [heap_lookup | cbv beta iota].

Section ExactStep.
Context `{Backend}.

Lemma optimize_step_exact self gt_image view_mat K w m s q o c gm gs gq go gc ci gci :
  NoDup (colors_initial self :: attributes self) ->
  heap w !! means self = Some (Tensor m true gm) ->
  heap w !! scales self = Some (Tensor s true gs) ->
  heap w !! quats self = Some (Tensor q true gq) ->
  heap w !! opacities self = Some (Tensor o true go) ->
  heap w !! sh0 self = Some (Tensor c true gc) ->
  heap w !! colors_initial self = Some (Tensor ci false gci) ->
  param_groups (optimizer self)
  = param_groups (_setup_optimizer (means self) (colors_initial self) (scales self)
                    (quats self) (sh0 self) (opacities self) 0.001%R) ->
  runs (optimize_step self gt_image view_mat K) w (fun r w' =>
    let '(loss, rendered, self') := r in
    let '(g1, g2, g3, g4, g5) := autograd m s q o c gt_image view_mat K in
    let st := adam_state (optimizer self) in
    rendered
    = {| im_shape := im_shape gt_image;
         im_at := rasterization m (normalize_rows q) (emap exp s) (emap sigmoid o)
                    (emap (fun x => (x * SH_C0_SCALE + 0.5)%R) c) view_mat K
                    (snd (im_shape gt_image)) (fst (im_shape gt_image)) |} /\
    loss = step_loss rendered gt_image /\
    heap w' !! means self
    = Some (Tensor (fst (adam_update (0.00016 * 10)%R m g1 (st !! means self)))
                   true (Some g1)) /\
    heap w' !! scales self
    = Some (Tensor (fst (adam_update 0.005%R s g2 (st !! scales self)))
                   true (Some g2)) /\
    heap w' !! quats self
    = Some (Tensor (fst (adam_update 0.001%R q g3 (st !! quats self)))
                   true (Some g3)) /\
    heap w' !! opacities self
    = Some (Tensor (fst (adam_update 0.05%R o g4 (st !! opacities self)))
                   true (Some g4)) /\
    heap w' !! sh0 self
    = Some (Tensor (fst (adam_update 0.0025%R c g5 (st !! sh0 self)))
                   true (Some g5)) /\
    heap w' !! colors_initial self = Some (Tensor ci false None) /\
    (forall l, l ∉ colors_initial self :: attributes self ->
               heap w' !! l = heap w !! l) /\
    files w' = files w /\ stdout w' = stdout w /\
    (exists opt, self' = set_optimizer self opt /\
                 param_groups opt = param_groups (optimizer self) /\
                 adam_state opt !! colors_initial self = st !! colors_initial self)).
Proof.
  intros Hnd Hm Hs Hq Ho Hc Hci Hgroups.
  apply NoDup_six in Hnd
    as ((Ncm & Ncs & Ncq & Nco & Ncc) & (Nms & Nmq & Nmo & Nmc)
        & (Nsq & Nso & Nsc) & (Nqo & Nqc) & Noc).
  unfold optimize_step. destruct (im_shape gt_image) as [Hh Ww] eqn:Hshape.
  cbn [fst snd].
  destruct (autograd m s q o c gt_image view_mat K) as [[[[g1 g2] g3] g4] g5] eqn:Hgrad.
  (* zero_grad *)
  apply runs_bind. unfold zero_grad. rewrite Hgroups.
  cbn [_setup_optimizer param_groups for_each pg_params]. unfold clear_grad.
  do 6 (apply runs_bind; apply runs_bind; run_load; apply runs_store;
        unfold set_heap; cbn [heap files stdout]; apply runs_ret).
  apply runs_ret.
  (* render *)
  apply runs_bind. unfold render.
  do 5 run_load. cbn [obj_data]. apply runs_ret.
  (* backward *)
  apply runs_bind. unfold backward.
  do 5 run_load. cbn [obj_data obj_requires_grad orb]. rewrite Hgrad.
  unfold accumulate_grad.
  do 4 (apply runs_bind; run_load; apply runs_store;
        unfold set_heap; cbn [heap files stdout]).
  run_load. apply runs_store. unfold set_heap; cbn [heap files stdout].
  (* Adam *)
  apply runs_bind. unfold Adam_step. rewrite Hgroups.
  cbn [_setup_optimizer param_groups step_groups step_params pg_params pg_lr].
  apply runs_bind.
  (* means *)
  apply runs_bind. run_load. cbn [obj_grad obj_data obj_requires_grad].
  destruct (adam_update (0.00016 * 10)%R m g1 (adam_state (optimizer self) !! means self))
    as [d1 m1] eqn:E1.
  apply runs_bind. apply runs_store. unfold set_heap; cbn [heap files stdout].
  apply runs_ret.
  (* colors_initial *)
  apply runs_bind. run_load. cbn [obj_grad]. apply runs_ret.
  (* scales *)
  apply runs_bind. run_load. cbn [obj_grad obj_data obj_requires_grad].
  rewrite (lookup_insert_ne _ (means self) (scales self)) by assumption.
  destruct (adam_update 0.005%R s g2 (adam_state (optimizer self) !! scales self))
    as [d2 m2] eqn:E2.
  apply runs_bind. apply runs_store. unfold set_heap; cbn [heap files stdout].
  apply runs_ret.
  (* quats *)
  apply runs_bind. run_load. cbn [obj_grad obj_data obj_requires_grad].
  rewrite !(lookup_insert_ne _ _ (quats self)) by assumption.
  destruct (adam_update 0.001%R q g3 (adam_state (optimizer self) !! quats self))
    as [d3 m3] eqn:E3.
  apply runs_bind. apply runs_store. unfold set_heap; cbn [heap files stdout].
  apply runs_ret.
  (* sh0 *)
  apply runs_bind. run_load. cbn [obj_grad obj_data obj_requires_grad].
  rewrite !(lookup_insert_ne _ _ (sh0 self)) by assumption.
  destruct (adam_update 0.0025%R c g5 (adam_state (optimizer self) !! sh0 self))
    as [d5 m5] eqn:E5.
  apply runs_bind. apply runs_store. unfold set_heap; cbn [heap files stdout].
  apply runs_ret.
  (* opacities *)
  apply runs_bind. run_load. cbn [obj_grad obj_data obj_requires_grad].
  rewrite !(lookup_insert_ne _ _ (opacities self))
    by (first [assumption | apply not_eq_sym; assumption]).
  destruct (adam_update 0.05%R o g4 (adam_state (optimizer self) !! opacities self))
    as [d4 m4] eqn:E4.
  apply runs_bind. apply runs_store. unfold set_heap; cbn [heap files stdout].
  apply runs_ret. apply runs_ret. apply runs_ret. apply runs_ret.
  (* the final store *)
  cbv zeta. cbn [fst snd].
  split; [reflexivity|]. split; [reflexivity|].
  split; [heap_lookup|]. split; [heap_lookup|]. split; [heap_lookup|].
  split; [heap_lookup|]. split; [heap_lookup|]. split; [heap_lookup|].
  split.
  { intros l Hl. unfold attributes in Hl. rewrite !not_elem_of_cons in Hl.
    destruct Hl as (Lc & Lm & Ls & Lq & Lo & Lsh & _).
    cbn [heap]. rewrite !lookup_insert_ne by (apply not_eq_sym; assumption).
    reflexivity. }
  split; [reflexivity|]. split; [reflexivity|].
  eexists. split; [reflexivity|]. split; [reflexivity|].
  cbn [adam_state]. rewrite !lookup_insert_ne by (apply not_eq_sym; assumption).
  reflexivity.
Qed.

End ExactStep.

Section ExactStepTheorem.
Context `{Backend}.

(** X13: one [optimize_step] on a store as the constructor lays it out
    (six different tensors, the five attributes requiring gradients, the
    initial colours not, the six parameter groups of [_setup_optimizer]).
    The step returns; the image it returns is the rasterizer's at the
    activated attributes of before the step; every attribute is replaced by
    the Adam update of its old value with the gradient of this step alone
    (an older gradient is discarded) at the rate of its own group: 0.0016
    for the positions, 0.005 for the scales, 0.001 for the rotations, 0.05
    for the opacities and 0.0025 for the SH0 colours.  The initial colours,
    although in a parameter group, keep their data and end without a
    gradient, and no other object of the heap, no file and no output line
    changes. *)
Theorem optimize_step_updates self gt_image view_mat K w m s q o c gm gs gq go gc
    ci gci :
  NoDup (colors_initial self :: attributes self) ->
  heap w !! means self = Some (Tensor m true gm) ->
  heap w !! scales self = Some (Tensor s true gs) ->
  heap w !! quats self = Some (Tensor q true gq) ->
  heap w !! opacities self = Some (Tensor o true go) ->
  heap w !! sh0 self = Some (Tensor c true gc) ->
  heap w !! colors_initial self = Some (Tensor ci false gci) ->
  param_groups (optimizer self)
  = param_groups (_setup_optimizer (means self) (colors_initial self) (scales self)
                    (quats self) (sh0 self) (opacities self) 0.001%R) ->
  exists loss rendered self' w',
    optimize_step self gt_image view_mat K w = Ok (loss, rendered, self', w') /\
    let '(g1, g2, g3, g4, g5) := autograd m s q o c gt_image view_mat K in
    let st := adam_state (optimizer self) in
    im_at rendered
    = rasterization m (normalize_rows q) (emap exp s) (emap sigmoid o)
        (emap (fun x => (x * SH_C0_SCALE + 0.5)%R) c) view_mat K
        (snd (im_shape gt_image)) (fst (im_shape gt_image)) /\
    heap w' !! means self
    = Some (Tensor (fst (adam_update (0.00016 * 10)%R m g1 (st !! means self)))
                   true (Some g1)) /\
    heap w' !! scales self
    = Some (Tensor (fst (adam_update 0.005%R s g2 (st !! scales self)))
                   true (Some g2)) /\
    heap w' !! quats self
    = Some (Tensor (fst (adam_update 0.001%R q g3 (st !! quats self)))
                   true (Some g3)) /\
    heap w' !! opacities self
    = Some (Tensor (fst (adam_update 0.05%R o g4 (st !! opacities self)))
                   true (Some g4)) /\
    heap w' !! sh0 self
    = Some (Tensor (fst (adam_update 0.0025%R c g5 (st !! sh0 self)))
                   true (Some g5)) /\
    heap w' !! colors_initial self = Some (Tensor ci false None) /\
    (forall l, l ∉ colors_initial self :: attributes self ->
               heap w' !! l = heap w !! l).
Proof.
  intros Hnd Hm Hs Hq Ho Hc Hci Hgroups.
  destruct (optimize_step_exact self gt_image view_mat K w m s q o c gm gs gq go gc
              ci gci Hnd Hm Hs Hq Ho Hc Hci Hgroups)
    as ([[loss rendered] self'] & w' & Hrun & Hpost).
  exists loss, rendered, self', w'. split; [exact Hrun|].
  destruct (autograd m s q o c gt_image view_mat K) as [[[[g1 g2] g3] g4] g5].
  cbv zeta in *.
  destruct Hpost as (-> & _ & H1 & H2 & H3 & H4 & H5 & H6 & H7 & _).
  auto 10.
Qed.

End ExactStepTheorem.

Lemma example_constructed rot : constructed_store example_self (example_world rot).
Proof.
  split; [|split; [|split]].
  - apply (bool_decide_unpack _). vm_compute. exact I.
  - intros l Hl. unfold attributes in Hl. simpl in Hl.
    repeat (apply elem_of_cons in Hl as [-> | Hl]; [eexists _, _; reflexivity|]).
    apply elem_of_nil in Hl. contradiction.
  - eexists _, _. reflexivity.
  - reflexivity.
Qed.

Lemma optimize_step_updates_witness :
  NoDup (colors_initial example_self :: attributes example_self) /\
  exists loss rendered self' w',
    @optimize_step example_backend example_self white_pixel identity4 identity3
      (example_world [1; 0; 0; 0]%R) = Ok (loss, rendered, self', w') /\
    heap w' !! means example_self
    = Some (Tensor (descent (0.00016 * 10)%R [[0; 0; 0]%R] [[1; 1; 1]%R]) true
                   (Some [[1; 1; 1]%R])) /\
    heap w' !! colors_initial example_self
    = Some (Tensor [[0.5; 0.5; 0.5]%R] false None).
Proof.
  pose proof (example_constructed [1; 0; 0; 0]%R) as (Hnd & _ & _ & Hg).
  split; [exact Hnd|].
  destruct (@optimize_step_updates example_backend example_self white_pixel identity4
              identity3 (example_world [1; 0; 0; 0]%R)
              _ _ _ _ _ _ _ _ _ _ _ _ Hnd eq_refl eq_refl eq_refl eq_refl eq_refl
              eq_refl Hg)
    as (loss & rendered & self' & w' & Hrun & Hpost).
  exists loss, rendered, self', w'. split; [exact Hrun|].
  cbn [autograd example_backend adam_update fst] in Hpost.
  destruct Hpost as (_ & Hm & _ & _ & _ & _ & Hci & _).
  split; [exact Hm | exact Hci].
Defined.

(** * Training on the store of the constructor *)

Lemma constructed_lookups self w :
  constructed_store self w ->
  exists m gm s gs q gq o go c gc ci gci,
    heap w !! means self = Some (Tensor m true gm) /\
    heap w !! scales self = Some (Tensor s true gs) /\
    heap w !! quats self = Some (Tensor q true gq) /\
    heap w !! opacities self = Some (Tensor o true go) /\
    heap w !! sh0 self = Some (Tensor c true gc) /\
    heap w !! colors_initial self = Some (Tensor ci false gci).
Proof.
  intros (_ & Hattr & (ci & gci & Hci) & _).
  destruct (Hattr (means self)) as (m & gm & Hm); [attribute_in|].
  destruct (Hattr (scales self)) as (s & gs & Hs); [attribute_in|].
  destruct (Hattr (quats self)) as (q & gq & Hq); [attribute_in|].
  destruct (Hattr (opacities self)) as (o & go & Ho); [attribute_in|].
  destruct (Hattr (sh0 self)) as (c & gc & Hc); [attribute_in|].
  exists m, gm, s, gs, q, gq, o, go, c, gc, ci, gci. auto 10.
Qed.

Lemma training_frame_refl self w : training_frame self w w.
Proof. repeat split. Qed.

Lemma training_frame_trans self w1 w2 w3 :
  training_frame self w1 w2 -> training_frame self w2 w3 -> training_frame self w1 w3.
Proof.
  intros (H1 & D1 & F1 & O1) (H2 & D2 & F2 & O2). split; [|split; [|split]].
  - intros l Hl. now rewrite H2, H1.
  - now rewrite D2.
  - now rewrite F2.
  - now rewrite O2.
Qed.

Lemma training_frame_data self w w' l :
  training_frame self w w' -> l ∉ attributes self -> data_at w' l = data_at w l.
Proof.
  intros (Hh & Hd & _) Hl. destruct (decide (l = colors_initial self)) as [->|Hne].
  - exact Hd.
  - unfold data_at. rewrite Hh; [reflexivity|].
    rewrite not_elem_of_cons. auto.
Qed.

Section TrainedStore.
Context `{Backend}.

Lemma optimize_step_keeps self gt_image view_mat K w :
  constructed_store self w ->
  runs (optimize_step self gt_image view_mat K) w (fun r w' =>
    constructed_store (snd r) w' /\
    attributes (snd r) = attributes self /\
    colors_initial (snd r) = colors_initial self /\
    training_frame self w w').
Proof.
  intros Hcs.
  destruct (constructed_lookups self w Hcs)
    as (m & gm & s & gs & q & gq & o & go & c & gc & ci & gci
        & Hm & Hs & Hq & Ho & Hc & Hci).
  destruct Hcs as (Hnd & _ & _ & Hgroups).
  eapply runs_mono;
    [exact (optimize_step_exact self gt_image view_mat K w m s q o c gm gs gq go gc
              ci gci Hnd Hm Hs Hq Ho Hc Hci Hgroups)|].
  intros [[loss rendered] self'] w'.
  destruct (autograd m s q o c gt_image view_mat K) as [[[[g1 g2] g3] g4] g5].
  cbv zeta.
  intros (_ & _ & H1 & H2 & H3 & H4 & H5 & H6 & Hframe & Hf & Ho' & opt & -> & Hpg & _).
  cbn [snd]. split; [|split; [reflexivity|split; [reflexivity|]]].
  - split; [exact Hnd|]. split; [|split].
    + intros l Hl. unfold attributes in Hl. cbn [set_optimizer means scales quats
        opacities sh0] in Hl.
      repeat (apply elem_of_cons in Hl as [-> | Hl]; [eauto|]).
      apply elem_of_nil in Hl. contradiction.
    + cbn [set_optimizer colors_initial]. eauto.
    + cbn [set_optimizer optimizer means scales quats opacities sh0 colors_initial].
      rewrite Hpg. exact Hgroups.
  - split; [exact Hframe|]. split; [|split; assumption].
    unfold data_at. now rewrite H6, Hci.
Qed.

Lemma optimize_steps_keeps (I : GaussianOptimizer -> world -> Prop) :
  (forall self w gt_image view_mat K,
     constructed_store self w -> I self w ->
     runs (optimize_step self gt_image view_mat K) w (fun r w' => I (snd r) w')) ->
  forall inputs self w,
    constructed_store self w -> I self w ->
    runs (optimize_steps self inputs) w (fun r w' =>
      length (fst r) = length inputs /\
      constructed_store (snd r) w' /\ I (snd r) w' /\
      attributes (snd r) = attributes self /\
      colors_initial (snd r) = colors_initial self /\
      training_frame self w w').
Proof.
  intros Hstep. induction inputs as [|[[gt_image view_mat] K] inputs IH];
    intros self w Hcs HI.
  - simpl. apply runs_ret. simpl. auto 10 using training_frame_refl.
  - simpl. apply runs_bind. eapply runs_mono.
    + apply runs_conj.
      * apply (optimize_step_keeps self gt_image view_mat K w Hcs).
      * apply (Hstep self w gt_image view_mat K Hcs HI).
    + intros [[loss rendered] self1] w1 [(Hcs1 & Ha1 & Hc1 & Hf1) HI1].
      cbn [snd] in *.
      apply runs_bind. eapply runs_mono; [apply (IH self1 w1 Hcs1 HI1)|].
      intros [losses self2] w2 (Hlen & Hcs2 & HI2 & Ha2 & Hc2 & Hf2).
      cbn [fst snd] in *. apply runs_ret. cbn [fst snd].
      split; [simpl; now rewrite Hlen|]. split; [exact Hcs2|]. split; [exact HI2|].
      split; [now rewrite Ha2|]. split; [now rewrite Hc2|].
      eapply training_frame_trans; [exact Hf1|].
      unfold training_frame in *. now rewrite <- Ha1, <- Hc1.
Qed.

Lemma init_constructed points colors dev w (P C : array) :
  heap w !! points = Some (NdArray P) ->
  heap w !! colors = Some (NdArray C) ->
  runs (__init__ points colors dev) w (fun self w1 =>
    constructed_store self w1 /\
    heap w1 !! points = Some (NdArray P) /\
    heap w1 !! colors = Some (NdArray C) /\
    (points ∉ colors_initial self :: attributes self) /\
    (colors ∉ colors_initial self :: attributes self) /\
    (points_initial self ∉ colors_initial self :: attributes self) /\
    data_at w1 (points_initial self) = Some P /\
    data_at w1 (colors_initial self) = Some C /\
    data_at w1 (means self) = Some P /\
    data_at w1 (scales self) = Some (full (length P) 3 (-5.0)%R) /\
    data_at w1 (quats self) = Some (replicate (length P) [1; 0; 0; 0]%R) /\
    data_at w1 (opacities self) = Some (zeros (length P) 1) /\
    data_at w1 (sh0 self)
    = Some (emap (fun c => (c / SH_C0_SCALE)%R) (emap (fun c => (c - 0.5)%R) C)) /\
    (colors_initial self ∈ group_params (optimizer self))).
Proof.
  intros Hp Hc. eapply runs_mono; [exact (init_spec points colors dev w P C Hp Hc)|].
  intros self w1 (HN & Hpi & Hci & Hm & Hs & Hq & Ho & Hsh & Hnd & Hnew & Hold & Hps
                  & Hopt & _).
  apply NoDup_cons in Hnd as [Hpin Hnd].
  assert (forall l, heap w !! l <> None ->
            l ∉ colors_initial self :: attributes self) as Hout.
  { intros l Hl Hin. apply Hl, Hnew. now apply list_elem_of_further. }
  split; [|split; [|split; [|split; [|split; [|split]]]]].
  - split; [exact Hnd|]. split; [|split].
    + intros l Hl. unfold attributes in Hl.
      repeat (apply elem_of_cons in Hl as [-> | Hl]; [eauto|]).
      apply elem_of_nil in Hl. contradiction.
    + eauto.
    + now rewrite Hopt.
  - rewrite Hold; [exact Hp | rewrite Hp; eauto].
  - rewrite Hold; [exact Hc | rewrite Hc; eauto].
  - apply Hout. now rewrite Hp.
  - apply Hout. now rewrite Hc.
  - exact Hpin.
  - rewrite (data_at_lookup _ _ _ Hpi), (data_at_lookup _ _ _ Hci),
      (data_at_lookup _ _ _ Hm), (data_at_lookup _ _ _ Hs), (data_at_lookup _ _ _ Hq),
      (data_at_lookup _ _ _ Ho), (data_at_lookup _ _ _ Hsh).
    cbn [obj_data]. rewrite set_column_zeros.
    repeat (split; [reflexivity|]).
    rewrite Hopt. unfold group_params. simpl. attribute_in.
Qed.

(** X14: training never writes to its inputs.  After the constructor
    and any number of optimization steps, with any targets and cameras, the
    two arrays of the caller and the copies [points_initial] and
    [colors_initial] hold the data they were given, although
    [colors_initial] is among the parameters of the optimizer; the data of
    every object other than the five attributes is as the constructor left
    it, no file is written and nothing is printed.  The steps all return,
    one loss each. *)
Theorem training_keeps_inputs points colors dev w (P C : array) inputs :
  heap w !! points = Some (NdArray P) ->
  heap w !! colors = Some (NdArray C) ->
  exists self w1 losses self' w2,
    __init__ points colors dev w = Ok (self, w1) /\
    optimize_steps self inputs w1 = Ok (losses, self', w2) /\
    length losses = length inputs /\
    (colors_initial self ∈ group_params (optimizer self)) /\
    data_at w2 (colors_initial self) = Some C /\
    data_at w2 (points_initial self) = Some P /\
    heap w2 !! points = Some (NdArray P) /\
    heap w2 !! colors = Some (NdArray C) /\
    (forall l, l ∉ attributes self -> data_at w2 l = data_at w1 l) /\
    files w2 = files w1 /\ stdout w2 = stdout w1.
Proof.
  intros Hp Hc.
  destruct (init_constructed points colors dev w P C Hp Hc)
    as (self & w1 & Hinit & Hcs & Hp1 & Hc1 & Np & Nc & Npi & Dpi & Dci & _ & _ & _ & _
        & _ & Hin).
  destruct (optimize_steps_keeps (fun _ _ => True)
              ltac:(intros; eapply runs_mono;
                    [eapply optimize_step_keeps; eassumption | auto])
              inputs self w1 Hcs I)
    as ([losses self'] & w2 & Hrun & Hlen & _ & _ & _ & _ & Hframe).
  cbn [fst snd] in *.
  exists self, w1, losses, self', w2.
  split; [exact Hinit|]. split; [exact Hrun|]. split; [exact Hlen|].
  split; [exact Hin|].
  destruct Hframe as (Hh & Hd & Hf & Ho).
  split; [now rewrite Hd|].
  split; [unfold data_at in *; now rewrite (Hh _ Npi)|].
  split; [now rewrite (Hh _ Np)|]. split; [now rewrite (Hh _ Nc)|].
  split; [|auto].
  intros l Hl. apply (training_frame_data self w1 w2 l); [|exact Hl].
  repeat split; assumption.
Qed.

Lemma optimize_step_shapes n self gt_image view_mat K w :
  shape_preserving ->
  constructed_store self w -> splat_store n self w ->
  runs (optimize_step self gt_image view_mat K) w (fun r w' =>
    splat_store n (snd r) w').
Proof.
  intros [Hgrad Hadam] Hcs (xyz & s & q & o & c & Dm & Sm & Ds & Ss & Dq & Sq & Do & So
                            & Dc & Sc).
  destruct (constructed_lookups self w Hcs)
    as (m' & gm & s' & gs & q' & gq & o' & go & c' & gc & ci & gci
        & Hm & Hs & Hq & Ho & Hc & Hci).
  rewrite (data_at_lookup _ _ _ Hm) in Dm. rewrite (data_at_lookup _ _ _ Hs) in Ds.
  rewrite (data_at_lookup _ _ _ Hq) in Dq. rewrite (data_at_lookup _ _ _ Ho) in Do.
  rewrite (data_at_lookup _ _ _ Hc) in Dc. cbn [obj_data] in *.
  injection Dm as ->. injection Ds as ->. injection Dq as ->. injection Do as ->.
  injection Dc as ->.
  destruct Hcs as (Hnd & _ & _ & Hgroups).
  eapply runs_mono;
    [exact (optimize_step_exact self gt_image view_mat K w xyz s q o c gm gs gq go gc
              ci gci Hnd Hm Hs Hq Ho Hc Hci Hgroups)|].
  intros [[loss rendered] self'] w'.
  pose proof (Hgrad xyz s q o c gt_image view_mat K n Sm Ss Sq So Sc) as Hg.
  destruct (autograd xyz s q o c gt_image view_mat K) as [[[[g1 g2] g3] g4] g5].
  destruct Hg as (G1 & G2 & G3 & G4 & G5). cbv zeta.
  intros (_ & _ & H1 & H2 & H3 & H4 & H5 & _ & _ & _ & _ & opt & -> & _).
  cbn [snd]. unfold splat_store.
  cbn [set_optimizer means scales quats opacities sh0].
  rewrite (data_at_lookup _ _ _ H1), (data_at_lookup _ _ _ H2),
    (data_at_lookup _ _ _ H3), (data_at_lookup _ _ _ H4), (data_at_lookup _ _ _ H5).
  cbn [obj_data]. eexists _, _, _, _, _.
  repeat (split; [first [reflexivity | apply Hadam; assumption]|]).
  apply Hadam; assumption.
Qed.

(** X15: a trained store can be saved.  When a gradient has the shape of
    its tensor and an Adam update keeps the shape of its parameter, then
    after the constructor on N positions and N colours and any number of
    optimization steps the five attributes still have the shapes (N, 3),
    (N, 3), (N, 4), (N, 1) and (N, 3); [save_ply] returns, and [load_ply]
    reads from its file the trained positions and N colours in [0, 1]. *)
Theorem trained_store_saves points colors dev path w (P C : array) inputs :
  shape_preserving ->
  heap w !! points = Some (NdArray P) ->
  heap w !! colors = Some (NdArray C) ->
  has_shape (length P) 3 P -> has_shape (length P) 3 C ->
  exists self w1 losses self' w2 w3 xyz colors',
    __init__ points colors dev w = Ok (self, w1) /\
    optimize_steps self inputs w1 = Ok (losses, self', w2) /\
    length losses = length inputs /\
    splat_store (length P) self' w2 /\
    data_at w2 (means self') = Some xyz /\
    save_ply self' path w2 = Ok (tt, w3) /\
    load_ply path w3 = Ok (xyz, colors', w3) /\
    has_shape (length P) 3 xyz /\ has_shape (length P) 3 colors' /\
    unit_range colors'.
Proof.
  intros Hsp Hp Hc SP SC.
  destruct (init_constructed points colors dev w P C Hp Hc)
    as (self & w1 & Hinit & Hcs & _ & _ & _ & _ & _ & _ & _ & Dm & Ds & Dq & Do & Dsh
        & _).
  assert (splat_store (length P) self w1) as Hss.
  { exists P, (full (length P) 3 (-5.0)%R), (replicate (length P) [1; 0; 0; 0]%R),
           (zeros (length P) 1),
           (emap (fun c => (c / SH_C0_SCALE)%R) (emap (fun c => (c - 0.5)%R) C)).
    split; [exact Dm|]. split; [exact SP|]. split; [exact Ds|].
    split; [apply full_shape|]. split; [exact Dq|].
    split; [apply (replicate_shape _ [1; 0; 0; 0]%R)|]. split; [exact Do|].
    split; [apply full_shape|]. split; [exact Dsh|]. auto using emap_shape. }
  destruct (optimize_steps_keeps (splat_store (length P))
              ltac:(intros; apply optimize_step_shapes; assumption)
              inputs self w1 Hcs Hss)
    as ([losses self'] & w2 & Hrun & Hlen & _ & Hss2 & _).
  cbn [fst snd] in *.
  pose proof Hss2 as (xyz & s & q & o & c & Em & Sm & Es & Ss & Eq & Sq & Eo & So
                      & Ec & Sc).
  pose proof (save_ply_runs (length P) self' path w2 xyz s q o c
                Em Sm Es Ss Eq Sq Eo So Ec Sc) as Hsave.
  match type of Hsave with _ = Ok (tt, ?w3') => set (w3 := w3') in * end.
  exists self, w1, losses, self', w2, w3, xyz.
  eexists. split; [exact Hinit|]. split; [exact Hrun|]. split; [exact Hlen|].
  split; [exact Hss2|]. split; [exact Em|]. split; [exact Hsave|].
  split; [apply (load_ply_saved (length P) path w3 xyz s q o c);
          [unfold w3; simpl; apply lookup_insert_eq | exact Sm | exact Sc]|].
  split; [exact Sm|]. split; [auto using emap_shape|].
  unfold unit_range, emap. apply Forall_map, Forall_forall. intros r _.
  apply Forall_map, Forall_forall. intros x _. apply clip_range.
Qed.

End TrainedStore.

Lemma descent_shape lr n c (p g : array) :
  has_shape n c p -> has_shape n c g -> has_shape n c (descent lr p g).
Proof.
  intros [<- Hp] [Hn Hg]. unfold descent. revert g Hn Hg.
  induction Hp as [|r p Hr Hp IH]; intros [|rg g] Hn Hg; try discriminate.
  - split; [reflexivity | constructor].
  - apply Forall_cons in Hg as [Hrg Hg]. simpl in Hn.
    destruct (IH g ltac:(lia) Hg) as [Hl Hf]. split.
    + simpl. now rewrite Hl.
    + simpl. constructor; [|exact Hf].
      rewrite length_zip_with. lia.
Qed.

Lemma example_backend_shapes : @shape_preserving example_backend.
Proof.
  split.
  - intros m s q o c gt_image view_mat K n Sm Ss Sq So Sc. simpl.
    unfold ones_like. auto 10 using emap_shape.
  - intros lr p g st n c Sp Sg. simpl. now apply descent_shape.
Qed.

Lemma training_keeps_inputs_witness :
  exists self w1 losses self' w2,
    __init__ 1%positive 2%positive "cuda" caller_world = Ok (self, w1) /\
    @optimize_steps example_backend self
      [(white_pixel, identity4, identity3); (white_pixel, identity4, identity3)] w1
    = Ok (losses, self', w2) /\
    length losses = 2 /\
    data_at w2 (colors_initial self) = Some [[0.5; 0.5; 0.5]%R] /\
    heap w2 !! 1%positive = Some (NdArray [[0; 0; 0]%R]).
Proof.
  destruct (@training_keeps_inputs example_backend 1%positive 2%positive "cuda"
              caller_world [[0; 0; 0]%R] [[0.5; 0.5; 0.5]%R]
              [(white_pixel, identity4, identity3); (white_pixel, identity4, identity3)]
              eq_refl eq_refl)
    as (self & w1 & losses & self' & w2 & Hinit & Hrun & Hlen & _ & Dc & _ & Hp & _).
  exists self, w1, losses, self', w2. auto.
Defined.

Lemma trained_store_saves_witness :
  @shape_preserving example_backend /\
  exists self w1 losses self' w2 w3 xyz colors',
    __init__ 1%positive 2%positive "cuda" caller_world = Ok (self, w1) /\
    @optimize_steps example_backend self
      [(white_pixel, identity4, identity3); (white_pixel, identity4, identity3)] w1
    = Ok (losses, self', w2) /\
    save_ply self' "out.ply" w2 = Ok (tt, w3) /\
    load_ply "out.ply" w3 = Ok (xyz, colors', w3) /\
    has_shape 1 3 xyz.
Proof.
  split; [exact example_backend_shapes|].
  destruct (@trained_store_saves example_backend 1%positive 2%positive "cuda" "out.ply"
              caller_world [[0; 0; 0]%R] [[0.5; 0.5; 0.5]%R]
              [(white_pixel, identity4, identity3); (white_pixel, identity4, identity3)]
              example_backend_shapes eq_refl eq_refl)
    as (self & w1 & losses & self' & w2 & w3 & xyz & colors' & Hinit & Hrun & _ & _ & _
        & Hsave & Hload & Sx & _).
  - split; [reflexivity | repeat constructor].
  - split; [reflexivity | repeat constructor].
  - exists self, w1, losses, self', w2, w3, xyz, colors'. auto.
Defined.
